(** * Troyonix secrets vault: a shallow embedding of
      [src/utils/secure_data_utils.py] and [src/utils/config_utils.py]

    Conventions of the embedding.

    - A Python [str] is a Rocq [string]; a character is a code point in the
      range U+0000..U+00FF.  Code points above U+00FF are not represented.
    - Python [bytes] is [list byte].
    - A Python [dict] is an association list in insertion order whose keys
      are pairwise distinct ([wf_value]); [d[k] = v] is [dict_set].
    - Python [int] is [Z].  Python [float] values are not represented.
    - Functions of the [cryptography], [hmac] and [os] libraries are the
      operations of the class [Crypto]; what the proofs use of their
      documented behaviour is the class [CryptoLaws]. *)

From stdpp Require Import base tactics option list strings gmap sorting.
From Stdlib Require Import ZArith Lia DecimalString DecimalZ.
From Stdlib.Strings Require Import Ascii.
From Stdlib.Strings Require String Byte.

Local Open Scope nat_scope.

(** ** Python strings *)

Module Str.

Fixpoint to_list (s : string) : list ascii :=
  match s with
  | EmptyString => []
  | String c s' => c :: to_list s'
  end.

Fixpoint of_list (l : list ascii) : string :=
  match l with
  | [] => EmptyString
  | c :: l' => String c (of_list l')
  end.

(** [c * n] for a one-character string [c] *)
Fixpoint repeat (c : ascii) (n : nat) : string :=
  match n with
  | O => EmptyString
  | S n' => String c (repeat c n')
  end.

(** [s[:n]] for [n >= 0] *)
Fixpoint take (n : nat) (s : string) : string :=
  match n, s with
  | S n', String c s' => String c (take n' s')
  | _, _ => EmptyString
  end.

(** [s[n:]] for [n >= 0] *)
Fixpoint drop (n : nat) (s : string) : string :=
  match n, s with
  | S n', String _ s' => drop n' s'
  | _, _ => s
  end.

(** [s[-n:]] for [n > 0]: a start before the beginning is clamped to 0 *)
Definition last (n : nat) (s : string) : string :=
  drop (String.length s - n) s.

(** [sub in s] *)
Fixpoint contains (sub s : string) : bool :=
  String.prefix sub s ||
  match s with
  | EmptyString => false
  | String _ s' => contains sub s'
  end.

(** [str.lower] on one code point of U+0000..U+00FF: the uppercase letters
    are A..Z and U+00C0..U+00DE without the multiplication sign U+00D7,
    each 32 below its lowercase form. *)
Definition lower_char (c : ascii) : ascii :=
  let n := nat_of_ascii c in
  if ((65 <=? n) && (n <=? 90)) ||
     ((192 <=? n) && (n <=? 222) && negb (n =? 215))
  then ascii_of_nat (n + 32) else c.

Fixpoint lower (s : string) : string :=
  match s with
  | EmptyString => EmptyString
  | String c s' => String (lower_char c) (lower s')
  end.

(** [str.isascii] *)
Fixpoint isascii (s : string) : bool :=
  match s with
  | EmptyString => true
  | String c s' => (nat_of_ascii c <? 128) && isascii s'
  end.

End Str.

(** ** Python values *)

Unset Elimination Schemes.
Inductive value : Type :=
| VNone
| VBool (b : bool)
| VInt (z : Z)
| VStr (s : string)
| VList (items : list value)
| VDict (items : list (string * value)).
Set Elimination Schemes.

Abbreviation pydict := (list (string * value)).

Definition is_dict (v : value) : bool :=
  match v with VDict _ => true | _ => false end.

Definition is_str (v : value) : bool :=
  match v with VStr _ => true | _ => false end.

Module Dict.

Definition keys (d : pydict) : list string := d.*1.

Fixpoint get (k : string) (d : pydict) : option value :=
  match d with
  | [] => None
  | (k', v) :: d' => if String.eqb k k' then Some v else get k d'
  end.

(** [d[k] = v]: an existing key keeps its position, a new key goes last.
    The entries hold values, or references to values ([PyHeap]). *)
Fixpoint set {A} (k : string) (v : A) (d : list (string * A)) : list (string * A) :=
  match d with
  | [] => [(k, v)]
  | (k', v') :: d' =>
      if String.eqb k k' then (k', v) :: d' else (k', v') :: set k v d'
  end.

End Dict.

(** The representation invariant of Python dicts: keys are distinct, at
    every level. *)
Fixpoint wf_valueb (v : value) : bool :=
  match v with
  | VList items => forallb wf_valueb items
  | VDict items =>
      bool_decide (NoDup (map fst items)) &&
      forallb (fun kv => wf_valueb (snd kv)) items
  | _ => true
  end.

Definition wf_value (v : value) : Prop := wf_valueb v = true.

Definition wf_dict (d : pydict) : Prop := wf_value (VDict d).

(** ** Redactor: [sanitize_sensitive_data] *)

Definition sensitive_fields : list string :=
  [ "api_key"; "password"; "token"; "secret"; "key";
    "credit_card"; "ssn"; "social_security"; "account_number" ].

Definition mask_value (value : string) : string :=
  if String.length value <=? 4 then Str.repeat "*"%char (String.length value)
  else Str.take 2 value
       +:+ Str.repeat "*"%char (String.length value - 4)
       +:+ Str.last 2 value.

(** [any(field in key.lower() for field in sensitive_fields)] *)
Definition key_is_sensitive (key : string) : bool :=
  existsb (fun field => Str.contains field (Str.lower key)) sensitive_fields.

(** The body of the [for] loop of [sanitize_dict]; [rec] is the recursive
    call. *)
Definition sanitize_item (rec : value -> value)
    (result : pydict) (item : string * value) : pydict :=
  let '(key, v) := item in
  match v with
  | VDict _ => Dict.set key (rec v) result
  | VStr s =>
      if key_is_sensitive key
      then Dict.set key (VStr (mask_value s)) result
      else Dict.set key v result
  | _ => Dict.set key v result
  end.

(** The value the loop body stores under [key] (each branch of
    [sanitize_item] is [result[key] = item_value ...]). *)
Definition item_value (rec : value -> value) (key : string) (v : value) : value :=
  match v with
  | VDict _ => rec v
  | VStr s => if key_is_sensitive key then VStr (mask_value s) else v
  | _ => v
  end.

Fixpoint sanitize_dict_value (d : value) : value :=
  match d with
  | VDict items => VDict (fold_left (sanitize_item sanitize_dict_value) items [])
  | _ => d
  end.

Definition sanitize_dict (d : pydict) : pydict :=
  fold_left (sanitize_item sanitize_dict_value) d [].

Definition sanitize_sensitive_data (data : pydict) : pydict :=
  sanitize_dict data.

(** ** Induction on values *)

Section value_ind.
Variable P : value -> Prop.
Hypothesis HNone : P VNone.
Hypothesis HBool : forall b, P (VBool b).
Hypothesis HInt : forall z, P (VInt z).
Hypothesis HStr : forall s, P (VStr s).
Hypothesis HList : forall items, Forall P items -> P (VList items).
Hypothesis HDict :
  forall items, Forall (fun kv => P (snd kv)) items -> P (VDict items).

Fixpoint value_ind (v : value) : P v :=
  match v with
  | VNone => HNone
  | VBool b => HBool b
  | VInt z => HInt z
  | VStr s => HStr s
  | VList items =>
      HList items
        ((fix go (l : list value) : Forall P l :=
            match l with
            | [] => @List.Forall_nil _ P
            | x :: l' => @List.Forall_cons _ P x l' (value_ind x) (go l')
            end) items)
  | VDict items =>
      HDict items
        ((fix go (l : pydict) : Forall (fun kv => P (snd kv)) l :=
            match l with
            | [] => @List.Forall_nil _ _
            | kv :: l' =>
                @List.Forall_cons _ (fun kv => P (snd kv)) kv l'
                  (value_ind (snd kv)) (go l')
            end) items)
  end.
End value_ind.

(** ** The Redactor as the specification words it (section 4.5) *)

Module RedactorSpec.

Definition vocabulary : list string :=
  [ "api_key"; "password"; "token"; "secret"; "key";
    "credit_card"; "ssn"; "social_security"; "account_number" ].

(** "key (case-insensitively) contains a term" *)
Definition contains_ci (term key : string) : bool :=
  Str.contains (Str.lower term) (Str.lower key).

Definition sensitive (key : string) : bool :=
  existsb (fun term => contains_ci term key) vocabulary.

(** The character at position [i] of the masked form of a string of
    length [n] whose character at [i] is [c]. *)
Definition mask_char (n i : nat) (c : ascii) : ascii :=
  if n <=? 4 then "*"%char
  else if (i <? 2) || (n - 2 <=? i) then c
  else "*"%char.

Definition mask (s : string) : string :=
  Str.of_list (imap (mask_char (String.length s)) (Str.to_list s)).

Fixpoint sanitize_value (key : string) (v : value) : value :=
  match v with
  | VDict items =>
      VDict (map (fun kv => (fst kv, sanitize_value (fst kv) (snd kv))) items)
  | VStr s => if sensitive key then VStr (mask s) else v
  | _ => v
  end.

Definition sanitize (d : pydict) : pydict :=
  map (fun kv => (fst kv, sanitize_value (fst kv) (snd kv))) d.

End RedactorSpec.

(** ** Bytes and text *)

Abbreviation bytes := (list Byte.byte).

Global Instance byte_eq_dec : EqDecision Byte.byte := Byte.byte_eq_dec.

Module Bytes.

Definition of_nat (n : nat) : Byte.byte :=
  default Byte.x00 (Byte.of_nat (n mod 256)).

Definition of_ascii_text (s : string) : bytes :=
  map byte_of_ascii (Str.to_list s).

Definition to_latin1 (b : bytes) : string :=
  Str.of_list (map ascii_of_byte b).

End Bytes.

Module Utf8.

(** [str.encode()] (UTF-8) on code points up to U+00FF *)
Definition encode_char (c : ascii) : bytes :=
  let n := nat_of_ascii c in
  if n <? 128 then [Bytes.of_nat n]
  else [Bytes.of_nat (192 + n / 64); Bytes.of_nat (128 + n mod 64)].

Definition encode (s : string) : bytes :=
  flat_map encode_char (Str.to_list s).

(** [bytes.decode()] (UTF-8, strict).  [None] stands for
    [UnicodeDecodeError], and also for a well-formed sequence whose code
    point lies above U+00FF, which the embedding does not represent. *)
Fixpoint decode_list (b : bytes) : option (list ascii) :=
  match b with
  | [] => Some []
  | x :: b' =>
      let n := Byte.to_nat x in
      if n <? 128 then cons (ascii_of_nat n) <$> decode_list b'
      else if (n =? 194) || (n =? 195) then
        match b' with
        | y :: b'' =>
            let m := Byte.to_nat y in
            if (128 <=? m) && (m <? 192)
            then cons (ascii_of_nat ((n - 192) * 64 + (m - 128)))
                   <$> decode_list b''
            else None
        | [] => None
        end
      else None
  end.

Definition decode (b : bytes) : option string :=
  Str.of_list <$> decode_list b.

End Utf8.

Module Hex.

Definition digit (n : nat) : ascii :=
  if n <? 10 then ascii_of_nat (48 + n) else ascii_of_nat (87 + n).

(** two lowercase hexadecimal digits of a number below 256 *)
Definition two (n : nat) : string :=
  String (digit (n / 16)) (String (digit (n mod 16)) EmptyString).

Definition value (c : ascii) : option nat :=
  let n := nat_of_ascii c in
  if (48 <=? n) && (n <=? 57) then Some (n - 48)
  else if (97 <=? n) && (n <=? 102) then Some (n - 87)
  else if (65 <=? n) && (n <=? 70) then Some (n - 55)
  else None.

End Hex.

Module Base64.

Definition alphabet : string :=
  "ABCDEFGHIJKLMNOPQRSTUVWXYZabcdefghijklmnopqrstuvwxyz0123456789-_".

(** the character of a 6-bit value in the URL-safe alphabet *)
Definition char (n : nat) : Byte.byte :=
  byte_of_ascii (default "A"%char (String.get (n mod 64) alphabet)).

Definition pad : Byte.byte := byte_of_ascii "="%char.

(** [base64.urlsafe_b64encode] *)
Fixpoint urlsafe_b64encode (s : bytes) : bytes :=
  match s with
  | [] => []
  | [a] =>
      let a := Byte.to_nat a in
      [char (a / 4); char (a mod 4 * 16); pad; pad]
  | [a; b] =>
      let a := Byte.to_nat a in
      let b := Byte.to_nat b in
      [char (a / 4); char (a mod 4 * 16 + b / 16); char (b mod 16 * 4); pad]
  | a :: b :: c :: rest =>
      let a := Byte.to_nat a in
      let b := Byte.to_nat b in
      let c := Byte.to_nat c in
      char (a / 4) :: char (a mod 4 * 16 + b / 16)
      :: char (b mod 16 * 4 + c / 64) :: char (c mod 64)
      :: urlsafe_b64encode rest
  end.

End Base64.

(** [repr] of a [str] *)
Module Repr.

Definition printable (n : nat) : bool :=
  ((32 <=? n) && (n <? 127)) ||
  ((161 <=? n) && (n <=? 255) && negb (n =? 173)).

Definition escape (quote : ascii) (c : ascii) : string :=
  let n := nat_of_ascii c in
  if Ascii.eqb c quote || Ascii.eqb c "\"%char
  then String "\"%char (String c EmptyString)
  else if n =? 9 then "\t"
  else if n =? 10 then "\n"
  else if n =? 13 then "\r"
  else if printable n then String c EmptyString
  else "\x" +:+ Hex.two n.

Definition quote_of (s : string) : ascii :=
  if Str.contains "'" s && negb (Str.contains (String "034"%char EmptyString) s)
  then "034"%char else "'"%char.

Definition repr (s : string) : string :=
  let q := quote_of s in
  String q (String.concat EmptyString (map (escape q) (Str.to_list s))
            +:+ String q EmptyString).

End Repr.

(** ** Exceptions *)

Inductive exc_class : Type :=
| ConfigError            (* config_utils.ConfigError *)
| SecureDataError        (* secure_data_utils.SecureDataError *)
| FileNotFoundError
| OSError
| InvalidToken           (* cryptography.fernet.InvalidToken *)
| ValueError
| TypeError
| UnicodeDecodeError
| JSONDecodeError.

Global Instance exc_class_eq_dec : EqDecision exc_class.
Proof. solve_decision. Defined.

(** An exception: its class and [str(e)], the text an f-string inserts. *)
Record exc : Type := Exc { exc_type : exc_class; exc_str : string }.

Inductive result (A : Type) : Type :=
| Ok (a : A)
| Raise (e : exc).
Arguments Ok {A} a.
Arguments Raise {A} e.

Definition is_ok {A} (r : result A) : bool :=
  match r with Ok _ => true | Raise _ => false end.

(** ** The world a call runs in *)

(** What the file system does to the next file operation: nothing, refuse it
    before any change (permissions, a directory in the way, a missing parent
    directory), or fail a write after [n] bytes. *)
Inductive fault : Type :=
| NoFault
| FailBefore (e : exc)
| FailDuring (n : nat) (e : exc).

Inductive event : Type :=
| EvExists (path : string)               (* os.path.exists *)
| EvOpenRead (path : string)             (* open(path, "rb") or "r" *)
| EvOpenWrite (path : string)            (* open(path, "wb") or "w": truncates *)
| EvWrite (path : string) (data : bytes) (* the data reached the file *)
| EvRemove (path : string)               (* os.remove *)
| EvGetenv (name : string)               (* os.getenv *)
| EvUrandom (n : nat)                    (* os.urandom *)
| EvTime                                 (* time.time *)
| EvLog (msg : string).                  (* logger.error *)

Global Instance event_eq_dec : EqDecision event.
Proof. solve_decision. Defined.

Record world : Type := World {
  fs : gmap string bytes;          (* regular files by path *)
  env : gmap string string;        (* os.environ *)
  entropy : nat -> Byte.byte;      (* the bytes os.urandom hands out *)
  entropy_pos : nat;               (* how many of them were consumed *)
  clock : Z;                       (* int(time.time()) *)
  faults : list fault;             (* one per file operation to come *)
  trace : list event               (* what happened, oldest first *)
}.

Definition with_fs (f : gmap string bytes) (w : world) : world :=
  World f (env w) (entropy w) (entropy_pos w) (clock w) (faults w) (trace w).

Definition emit (ev : event) (w : world) : world :=
  World (fs w) (env w) (entropy w) (entropy_pos w) (clock w) (faults w)
        (trace w ++ [ev]).

Definition next_fault (w : world) : fault :=
  match faults w with [] => NoFault | f :: _ => f end.

Definition pop_fault (w : world) : world :=
  World (fs w) (env w) (entropy w) (entropy_pos w) (clock w)
        (tail (faults w)) (trace w).

Definition advance_entropy (n : nat) (w : world) : world :=
  World (fs w) (env w) (entropy w) (entropy_pos w + n) (clock w)
        (faults w) (trace w).

(** The bytes the next [os.urandom(n)] returns. *)
Definition peek_urandom (n : nat) (w : world) : bytes :=
  map (entropy w) (seq (entropy_pos w) n).

(** The events of [w'] that [w] did not have yet. *)
Definition events_since (w w' : world) : list event :=
  drop (length (trace w)) (trace w').

(** ** State and exception monad *)

Definition IO (A : Type) : Type := world -> result A * world.

Definition ret {A} (a : A) : IO A := fun w => (Ok a, w).

Definition bind {A B} (m : IO A) (k : A -> IO B) : IO B :=
  fun w =>
    match m w with
    | (Ok a, w') => k a w'
    | (Raise e, w') => (Raise e, w')
    end.

Definition raise {A} (e : exc) : IO A := fun w => (Raise e, w).

(** [try: m  except Exception as e: handler e] *)
Definition try_except {A} (m : IO A) (handler : exc -> IO A) : IO A :=
  fun w =>
    match m w with
    | (Ok a, w') => (Ok a, w')
    | (Raise e, w') => handler e w'
    end.

Notation "'let*' x ':=' m 'in' k" := (bind m (fun x => k))
  (at level 10, x pattern, m at level 100, k at level 200, only parsing).

(** [wp m w Q]: running [m] in [w] ends in a result and a world that
    satisfy [Q]. *)
Definition wp {A} (m : IO A) (w : world) (Q : result A -> world -> Prop) : Prop :=
  Q (m w).1 (m w).2.

(** ** Operating-system calls *)

Module Os.

Definition path_exists (path : string) : IO bool :=
  fun w => (Ok (bool_decide (is_Some (fs w !! path))), emit (EvExists path) w).

Definition getenv (name : string) : IO (option string) :=
  fun w => (Ok (env w !! name), emit (EvGetenv name) w).

Definition urandom (n : nat) : IO bytes :=
  fun w =>
    (Ok (peek_urandom n w), emit (EvUrandom n) (advance_entropy n w)).

Definition time : IO Z :=
  fun w => (Ok (clock w), emit EvTime w).

Definition no_such_file (path : string) : exc :=
  Exc FileNotFoundError
      ("[Errno 2] No such file or directory: " +:+ Repr.repr path).

(** [with open(path, "rb") as f: f.read()] *)
Definition read_file (path : string) : IO bytes :=
  fun w =>
    let w1 := emit (EvOpenRead path) (pop_fault w) in
    match next_fault w with
    | FailBefore e | FailDuring _ e => (Raise e, w1)
    | NoFault =>
        match fs w !! path with
        | Some data => (Ok data, w1)
        | None => (Raise (no_such_file path), w1)
        end
    end.

(** [with open(path, "wb") as f: f.write(data)]: opening truncates the
    file; a failure during the write leaves a prefix of the data. *)
Definition write_file (path : string) (data : bytes) : IO unit :=
  fun w =>
    let w0 := pop_fault w in
    match next_fault w with
    | FailBefore e => (Raise e, w0)
    | FailDuring n e =>
        (Raise e,
         emit (EvOpenWrite path) (with_fs (<[path := take n data]> (fs w)) w0))
    | NoFault =>
        (Ok tt,
         emit (EvWrite path data)
           (emit (EvOpenWrite path) (with_fs (<[path := data]> (fs w)) w0)))
    end.

(** [os.remove(path)] *)
Definition remove (path : string) : IO unit :=
  fun w =>
    let w1 := emit (EvRemove path) (pop_fault w) in
    match next_fault w with
    | FailBefore e | FailDuring _ e => (Raise e, w1)
    | NoFault =>
        match fs w !! path with
        | Some _ => (Ok tt, with_fs (delete path (fs w)) w1)
        | None => (Raise (no_such_file path), w1)
        end
    end.

End Os.

Definition logger_error (msg : string) : IO unit :=
  fun w => (Ok tt, emit (EvLog msg) w).

(** [not x] for an optional string: [None] and the empty string are falsy. *)
Definition falsy (x : option string) : bool :=
  match x with
  | None => true
  | Some s => String.eqb s EmptyString
  end.

(** ** Library functions *)

(** The functions of [cryptography], [hmac] and the texts of library error
    messages, which the embedding does not compute. *)
Class Platform : Type := {
  (** [PBKDF2HMAC(SHA256, length, salt, iterations).derive(password)] *)
  pbkdf2_hmac_sha256 :
    forall (password salt : bytes) (iterations : N) (length : nat), bytes;
  (** [Fernet(key)]: the 32 decoded key bytes; [None] when the constructor
      raises [ValueError] *)
  fernet_key : bytes -> option bytes;
  (** [Fernet.encrypt] with the time and the IV it draws made explicit *)
  fernet_encrypt : forall (key : bytes) (time : Z) (iv data : bytes), bytes;
  (** [Fernet.decrypt]; [None] when it raises [InvalidToken] *)
  fernet_decrypt : forall (key token : bytes), option bytes;
  (** [hmac.new(key, msg, hashlib.sha256).hexdigest()] *)
  hmac_sha256_hexdigest : forall (key msg : bytes), string;
  (** [str(e)] of the [UnicodeDecodeError] for undecodable bytes *)
  unicode_error_str : bytes -> string;
  (** [str(e)] of the [JSONDecodeError] for a rejected document *)
  json_error_str : string -> string
}.

(** What the proofs use of the documented behaviour of those functions. *)
Class PlatformLaws (P : Platform) : Prop := {
  pbkdf2_length :
    forall password salt iterations n,
      length (pbkdf2_hmac_sha256 password salt iterations n) = n;
  fernet_roundtrip :
    forall key time iv data,
      length key = 32 -> length iv = 16 ->
      fernet_decrypt key (fernet_encrypt key time iv data) = Some data
}.

(** ** [json.dumps] *)

Module Json.

Definition dquote : string := String "034"%char EmptyString.
Definition newline : string := String "010"%char EmptyString.

(** [ESCAPE_DCT] and the fallback of [py_encode_basestring_ascii]: every
    character outside [' '..'~'], the double quote and the backslash are
    escaped. *)
Definition escape_char (c : ascii) : string :=
  let n := nat_of_ascii c in
  if n =? 34 then "\" +:+ dquote
  else if n =? 92 then "\\"
  else if n =? 8 then "\b"
  else if n =? 12 then "\f"
  else if n =? 10 then "\n"
  else if n =? 13 then "\r"
  else if n =? 9 then "\t"
  else if (32 <=? n) && (n <=? 126) then String c EmptyString
  else "\u00" +:+ Hex.two n.

Definition encode_basestring_ascii (s : string) : string :=
  dquote +:+ String.concat EmptyString (map escape_char (Str.to_list s))
  +:+ dquote.

(** [int.__repr__] *)
Definition int_repr (z : Z) : string :=
  DecimalString.NilZero.string_of_int (Z.to_int z).

(** [sorted(dct.items())] orders the (key, value) pairs; the keys of a dict
    are distinct, so the keys alone decide.  [str] is ordered by code
    point. *)
Definition key_le (a b : string * string) : Prop := String.le a.1 b.1.

Global Instance key_le_dec : RelDecision key_le.
Proof. intros a b. unfold key_le. apply _. Defined.

Definition sorted (rendered : list (string * string)) : list (string * string) :=
  merge_sort key_le rendered.

Definition newline_indent (indent : option nat) (level : nat) : string :=
  match indent with
  | None => EmptyString
  | Some n => newline +:+ Str.repeat " "%char (n * level)
  end.

Definition item_separator (indent : option nat) : string :=
  match indent with None => ", " | Some _ => "," end.

Definition bracket (opening closing : string) (indent : option nat)
    (level : nat) (chunks : list string) : string :=
  match chunks with
  | [] => opening +:+ closing
  | _ =>
      opening +:+ newline_indent indent (S level)
      +:+ String.concat
            (item_separator indent +:+ newline_indent indent (S level)) chunks
      +:+ newline_indent indent level +:+ closing
  end.

(** An entry of a dict with the text of its value. *)
Definition render (h : value -> string) (kv : string * value) : string * string :=
  let (k, x) := kv in (k, h x).

(** [json.dumps(v, sort_keys=..., indent=...)] at nesting depth [level].
    Each entry of a dict is rendered to (key, text of the value) first and
    the pairs are ordered afterwards; ordering looks at keys only, so this
    is the text of the entries taken in key order. *)
Fixpoint dumps_at (sort_keys : bool) (indent : option nat) (level : nat)
    (v : value) : string :=
  match v with
  | VNone => "null"
  | VBool true => "true"
  | VBool false => "false"
  | VInt z => int_repr z
  | VStr s => encode_basestring_ascii s
  | VList items =>
      bracket "[" "]" indent level
        (map (dumps_at sort_keys indent (S level)) items)
  | VDict items =>
      let rendered :=
        map (fun kv : string * value =>
               let (k, x) := kv in
               (k, dumps_at sort_keys indent (S level) x)) items in
      bracket "{" "}" indent level
        (map (fun kr : string * string =>
                encode_basestring_ascii kr.1 +:+ ": " +:+ kr.2)
             (if sort_keys then sorted rendered else rendered))
  end.

(** [json.dumps(v)] *)
Definition dumps (v : value) : string := dumps_at false None 0 v.

(** [json.dumps(v, sort_keys=True)] *)
Definition dumps_sorted (v : value) : string := dumps_at true None 0 v.

(** [json.dumps(v, indent=4)], the text [json.dump(v, f, indent=4)] writes *)
Definition dumps_indent4 (v : value) : string := dumps_at false (Some 4) 0 v.

End Json.

(** ** [json.loads] *)

Module JsonDecoder.

Definition is_ws (c : ascii) : bool :=
  let n := nat_of_ascii c in
  (n =? 32) || (n =? 9) || (n =? 10) || (n =? 13).

Definition is_digit (c : ascii) : bool :=
  let n := nat_of_ascii c in (48 <=? n) && (n <=? 57).

Fixpoint skip_ws (s : list ascii) : list ascii :=
  match s with
  | c :: s' => if is_ws c then skip_ws s' else s
  | [] => []
  end.

(** the longest prefix of digits, and what follows it *)
Fixpoint span_digits (s : list ascii) : list ascii * list ascii :=
  match s with
  | c :: s' =>
      if is_digit c
      then let (ds, rest) := span_digits s' in (c :: ds, rest)
      else ([], s)
  | [] => ([], [])
  end.

(** [BACKSLASH] of [json.decoder] *)
Definition simple_escape (c : ascii) : option ascii :=
  let n := nat_of_ascii c in
  if n =? 34 then Some c                         (* double quote *)
  else if n =? 92 then Some c                    (* backslash *)
  else if n =? 47 then Some c                    (* slash *)
  else if n =? 98 then Some (ascii_of_nat 8)     (* b *)
  else if n =? 102 then Some (ascii_of_nat 12)   (* f *)
  else if n =? 110 then Some (ascii_of_nat 10)   (* n *)
  else if n =? 114 then Some (ascii_of_nat 13)   (* r *)
  else if n =? 116 then Some (ascii_of_nat 9)    (* t *)
  else None.

Definition hex4 (a b c d : ascii) : option nat :=
  a ← Hex.value a; b ← Hex.value b; c ← Hex.value c; d ← Hex.value d;
  Some (((a * 16 + b) * 16 + c) * 16 + d).

(** [scanstring], strict, from just after the opening quote: the decoded
    characters and the text after the closing quote.  An escape [\uXXXX]
    above U+00FF has no representation and yields [None]. *)
Fixpoint scanstring (s : list ascii) : option (list ascii * list ascii) :=
  match s with
  | [] => None
  | c :: s' =>
      let n := nat_of_ascii c in
      if n =? 34 then Some ([], s')
      else if n =? 92 then
        match s' with
        | [] => None
        | e :: s'' =>
            match simple_escape e with
            | Some ch => prod_map (cons ch) id <$> scanstring s''
            | None =>
                if nat_of_ascii e =? 117 then
                  match s'' with
                  | h1 :: h2 :: h3 :: h4 :: s''' =>
                      match hex4 h1 h2 h3 h4 with
                      | Some code =>
                          if code <? 256
                          then prod_map (cons (ascii_of_nat code)) id
                                 <$> scanstring s'''
                          else None
                      | None => None
                      end
                  | _ => None
                  end
                else None
            end
        end
      else if n <? 32 then None
      else prod_map (cons c) id <$> scanstring s'
  end.

(** [NUMBER_RE] of [json.scanner] for integers.  A fraction or an exponent
    makes the number a float, which has no representation: [None]. *)
Definition scan_number (s : list ascii) : option (Z * list ascii) :=
  let '(sign, s1) :=
    match s with
    | c :: r => if nat_of_ascii c =? 45 then ([c], r) else ([], s)
    | [] => ([], s)
    end in
  let '(digits, rest) := span_digits s1 in
  let leading_zero :=
    match digits with
    | d :: _ :: _ => nat_of_ascii d =? 48
    | _ => false
    end in
  let float_follows :=
    match rest with
    | c :: _ =>
        let n := nat_of_ascii c in (n =? 46) || (n =? 101) || (n =? 69)
    | [] => false
    end in
  match digits with
  | [] => None
  | _ =>
      if leading_zero || float_follows then None
      else
        match NilZero.int_of_string (Str.of_list (sign ++ digits)) with
        | Some d => Some (Z.of_int d, rest)
        | None => None
        end
  end.

Fixpoint starts_with (p s : list ascii) : option (list ascii) :=
  match p, s with
  | [], _ => Some s
  | a :: p', b :: s' => if Ascii.eqb a b then starts_with p' s' else None
  | _ :: _, [] => None
  end.

(** [dict(pairs)]: a repeated key keeps its first position and takes the
    last value. *)
Definition dict_of_pairs (pairs : pydict) : pydict :=
  fold_left (fun d kv => Dict.set kv.1 kv.2 d) pairs [].

(** [scan_once], [JSONObject] and [JSONArray].  [fuel] bounds the nesting
    of calls; [loads] supplies enough of it for the whole text. *)
Fixpoint scan_once (fuel : nat) (s : list ascii) : option (value * list ascii) :=
  match fuel with
  | O => None
  | S fuel =>
      match s with
      | [] => None
      | c :: s' =>
          let n := nat_of_ascii c in
          if n =? 34 then
            '(str, rest) ← scanstring s';
            Some (VStr (Str.of_list str), rest)
          else if n =? 123 then
            match skip_ws s' with
            | [] => None
            | c1 :: r1 =>
                if nat_of_ascii c1 =? 125 then Some (VDict [], r1)
                else
                  '(pairs, rest) ← scan_members fuel (c1 :: r1);
                  Some (VDict (dict_of_pairs pairs), rest)
            end
          else if n =? 91 then
            match skip_ws s' with
            | [] => None
            | c1 :: r1 =>
                if nat_of_ascii c1 =? 93 then Some (VList [], r1)
                else
                  '(items, rest) ← scan_elements fuel (c1 :: r1);
                  Some (VList items, rest)
            end
          else
            match starts_with (Str.to_list "null") s with
            | Some rest => Some (VNone, rest)
            | None =>
            match starts_with (Str.to_list "true") s with
            | Some rest => Some (VBool true, rest)
            | None =>
            match starts_with (Str.to_list "false") s with
            | Some rest => Some (VBool false, rest)
            | None =>
                '(z, rest) ← scan_number s;
                Some (VInt z, rest)
            end end end
      end
  end
with scan_members (fuel : nat) (s : list ascii) : option (pydict * list ascii) :=
  match fuel with
  | O => None
  | S fuel =>
      match s with
      | [] => None
      | q :: s1 =>
          if nat_of_ascii q =? 34 then
            '(k, s2) ← scanstring s1;
            match skip_ws s2 with
            | [] => None
            | colon :: s3 =>
                if nat_of_ascii colon =? 58 then
                  '(v, s4) ← scan_once fuel (skip_ws s3);
                  match skip_ws s4 with
                  | [] => None
                  | d :: s5 =>
                      if nat_of_ascii d =? 125 then
                        Some ([(Str.of_list k, v)], s5)
                      else if nat_of_ascii d =? 44 then
                        '(more, rest) ← scan_members fuel (skip_ws s5);
                        Some ((Str.of_list k, v) :: more, rest)
                      else None
                  end
                else None
            end
          else None
      end
  end
with scan_elements (fuel : nat) (s : list ascii) : option (list value * list ascii) :=
  match fuel with
  | O => None
  | S fuel =>
      '(v, s1) ← scan_once fuel s;
      match skip_ws s1 with
      | [] => None
      | d :: s2 =>
          if nat_of_ascii d =? 93 then Some ([v], s2)
          else if nat_of_ascii d =? 44 then
            '(more, rest) ← scan_elements fuel (skip_ws s2);
            Some (v :: more, rest)
          else None
      end
  end.

(** [json.loads(text)]: one value, white space around it, nothing else.
    [None] stands for [JSONDecodeError] (and for unrepresented numbers and
    characters). *)
Definition loads (text : string) : option value :=
  let s := Str.to_list text in
  '(v, rest) ← scan_once (2 * length s + 2) (skip_ws s);
  match skip_ws rest with
  | [] => Some v
  | _ => None
  end.

End JsonDecoder.

(** ** [cryptography.fernet.Fernet] and [json] as the vault calls them *)

Section Library.
Context {P : Platform}.

(** [Fernet(key)] *)
Definition Fernet (key : bytes) : IO bytes :=
  match fernet_key key with
  | Some k => ret k
  | None =>
      raise (Exc ValueError
               "Fernet key must be 32 url-safe base64-encoded bytes.")
  end.

(** [f.encrypt(data)]: reads the clock, then draws a 16-byte IV *)
Definition Fernet_encrypt (f : bytes) (data : bytes) : IO bytes :=
  let* now := Os.time in
  let* iv := Os.urandom 16 in
  ret (fernet_encrypt f now iv data).

(** [f.decrypt(token)] *)
Definition Fernet_decrypt (f : bytes) (token : bytes) : IO bytes :=
  match fernet_decrypt f token with
  | Some data => ret data
  | None => raise (Exc InvalidToken EmptyString)
  end.

(** [data.decode()] *)
Definition bytes_decode (data : bytes) : IO string :=
  match Utf8.decode data with
  | Some text => ret text
  | None => raise (Exc UnicodeDecodeError (unicode_error_str data))
  end.

(** [json.loads(text)] *)
Definition json_loads (text : string) : IO value :=
  match JsonDecoder.loads text with
  | Some v => ret v
  | None => raise (Exc JSONDecodeError (json_error_str text))
  end.

End Library.

(** ** [src/utils/config_utils.py] *)

Module ConfigUtils.
Section ConfigUtils.
Context {P : Platform}.

Definition default_config_path : string := "config/config.json".

Definition generate_key (password : string) (salt : option bytes)
    : IO (bytes * bytes) :=
  let* salt := match salt with
           | None => Os.urandom 16
           | Some salt => ret salt
           end in
  let key :=
    Base64.urlsafe_b64encode
      (pbkdf2_hmac_sha256 (Utf8.encode password) salt 100000%N 32) in
  ret (key, salt).

Definition encrypt_config (config : value) (key : bytes) : IO bytes :=
  let* f := Fernet key in
  Fernet_encrypt f (Utf8.encode (Json.dumps config)).

Definition decrypt_config (encrypted_data key : bytes) : IO value :=
  let* f := Fernet key in
  let* data := Fernet_decrypt f encrypted_data in
  let* text := bytes_decode data in
  json_loads text.

Definition load_config (config_path : option string) : IO value :=
  try_except
    (let config_path := default default_config_path config_path in
     (* Check if encrypted config exists *)
     let encrypted_path := config_path +:+ ".enc" in
     let* encrypted_exists := Os.path_exists encrypted_path in
     if encrypted_exists : bool then
       (* Get encryption key from environment *)
       let* password := Os.getenv "CONFIG_PASSWORD" in
       if falsy password then
         raise (Exc ConfigError "CONFIG_PASSWORD environment variable not set")
       else
         let password := default EmptyString password in
         (* Load salt *)
         let salt_path := config_path +:+ ".salt" in
         let* salt_exists := Os.path_exists salt_path in
         if negb salt_exists then
           raise (Exc ConfigError "Salt file not found")
         else
           let* salt := Os.read_file salt_path in
           (* Generate key and decrypt *)
           let* (key, _) := generate_key password (Some salt) in
           let* encrypted_data := Os.read_file encrypted_path in
           decrypt_config encrypted_data key
     else
       (* Fallback to unencrypted config *)
       let* data := Os.read_file config_path in
       let* text := bytes_decode data in
       json_loads text)
    (fun e =>
       let* _ := logger_error ("Error loading configuration: " +:+ exc_str e) in
       raise (Exc ConfigError ("Failed to load configuration: " +:+ exc_str e))).

Definition save_config (config : value) (config_path : option string)
    (password : option string) : IO unit :=
  try_except
    (let config_path := default default_config_path config_path in
     if negb (falsy password) then
       let password := default EmptyString password in
       (* Generate new salt and key *)
       let* (key, salt) := generate_key password None in
       (* Save salt *)
       let salt_path := config_path +:+ ".salt" in
       let* _ := Os.write_file salt_path salt in
       (* Encrypt and save config *)
       let* encrypted_data := encrypt_config config key in
       let encrypted_path := config_path +:+ ".enc" in
       let* _ := Os.write_file encrypted_path encrypted_data in
       (* Remove unencrypted config if it exists *)
       let* plain_exists := Os.path_exists config_path in
       if plain_exists : bool then Os.remove config_path else ret tt
     else
       (* Save unencrypted config *)
       Os.write_file config_path (Utf8.encode (Json.dumps_indent4 config)))
    (fun e =>
       let* _ := logger_error ("Error saving configuration: " +:+ exc_str e) in
       raise (Exc ConfigError ("Failed to save configuration: " +:+ exc_str e))).

End ConfigUtils.
End ConfigUtils.

(** ** [src/utils/secure_data_utils.py] *)

Module SecureDataUtils.
Section SecureDataUtils.
Context {P : Platform}.

Definition derive_key (password : string) (salt : option bytes)
    : IO (bytes * bytes) :=
  let* salt := match salt with
           | None => Os.urandom 16
           | Some salt => ret salt
           end in
  let key :=
    Base64.urlsafe_b64encode
      (pbkdf2_hmac_sha256 (Utf8.encode password) salt 100000%N 32) in
  ret (key, salt).

Definition encrypt_data (data : value) (key : bytes) : IO bytes :=
  try_except
    (let* f := Fernet key in
     Fernet_encrypt f (Utf8.encode (Json.dumps data)))
    (fun e =>
       let* _ := logger_error ("Error encrypting data: " +:+ exc_str e) in
       raise (Exc SecureDataError ("Failed to encrypt data: " +:+ exc_str e))).

Definition decrypt_data (encrypted_data key : bytes) : IO value :=
  try_except
    (let* f := Fernet key in
     let* data := Fernet_decrypt f encrypted_data in
     let* text := bytes_decode data in
     json_loads text)
    (fun e =>
       let* _ := logger_error ("Error decrypting data: " +:+ exc_str e) in
       raise (Exc SecureDataError ("Failed to decrypt data: " +:+ exc_str e))).

Definition secure_save (data : value) (filepath password : string) : IO unit :=
  try_except
    ((* Generate key and salt *)
     let* (key, salt) := derive_key password None in
     (* Encrypt data *)
     let* encrypted_data := encrypt_data data key in
     (* Save salt *)
     let salt_path := filepath +:+ ".salt" in
     let* _ := Os.write_file salt_path salt in
     (* Save encrypted data *)
     Os.write_file filepath encrypted_data)
    (fun e =>
       let* _ := logger_error ("Error saving data securely: " +:+ exc_str e) in
       raise (Exc SecureDataError
                ("Failed to save data securely: " +:+ exc_str e))).

Definition secure_load (filepath password : string) : IO value :=
  try_except
    ((* Load salt *)
     let salt_path := filepath +:+ ".salt" in
     let* salt_exists := Os.path_exists salt_path in
     if negb salt_exists then
       raise (Exc SecureDataError "Salt file not found")
     else
       let* salt := Os.read_file salt_path in
       (* Derive key *)
       let* (key, _) := derive_key password (Some salt) in
       (* Load and decrypt data *)
       let* encrypted_data := Os.read_file filepath in
       decrypt_data encrypted_data key)
    (fun e =>
       let* _ := logger_error ("Error loading data securely: " +:+ exc_str e) in
       raise (Exc SecureDataError
                ("Failed to load data securely: " +:+ exc_str e))).

(** Lines 112-117 of [verify_data_integrity]: the signature it computes. *)
Definition calculated_signature (secret_key : string) (data : value) : string :=
  hmac_sha256_hexdigest
    (Utf8.encode secret_key) (Utf8.encode (Json.dumps_sorted data)).

(** [hmac.compare_digest(a, b)] on two [str]: both must be ASCII. *)
Definition compare_digest (a b : string) : IO bool :=
  if Str.isascii a && Str.isascii b then ret (String.eqb a b)
  else
    raise (Exc TypeError
             "comparing strings with non-ASCII characters is not supported").

Definition verify_data_integrity (data : value) (signature : string) : IO bool :=
  try_except
    ((* Get secret key from environment *)
     let* secret_key := Os.getenv "DATA_INTEGRITY_KEY" in
     if falsy secret_key then
       raise (Exc SecureDataError
                "DATA_INTEGRITY_KEY environment variable not set")
     else
       let secret_key := default EmptyString secret_key in
       (* Calculate HMAC *)
       compare_digest (calculated_signature secret_key data) signature)
    (fun e =>
       let* _ := logger_error ("Error verifying data integrity: " +:+ exc_str e) in
       raise (Exc SecureDataError
                ("Failed to verify data integrity: " +:+ exc_str e))).

End SecureDataUtils.
End SecureDataUtils.

(** ** A stand-in platform and sample worlds

    [toy_platform] has the shape of the real functions and satisfies
    [PlatformLaws]; it offers no secrecy.  It serves to run the embedding on
    concrete inputs. *)

Module Toy.

Definition toy_platform : Platform := {|
  pbkdf2_hmac_sha256 password salt _ n :=
    take n (password ++ salt ++ replicate n Byte.x00);
  fernet_key key :=
    if length key =? 44 then Some (take 32 key) else None;
  fernet_encrypt key _ iv data := key ++ iv ++ data;
  fernet_decrypt key token :=
    if bool_decide (take (length key) token = key)
    then Some (drop (length key + 16) token) else None;
  hmac_sha256_hexdigest key msg :=
    String.concat EmptyString (map (fun b => Hex.two (Byte.to_nat b)) (key ++ msg));
  unicode_error_str _ := "invalid utf-8";
  json_error_str _ := "Expecting value"
|}.

Definition empty_world : world :=
  World ∅ ∅ (fun i => Bytes.of_nat (7 * i + 1)) 0 1700000000 [] [].

Definition with_files (files : list (string * bytes)) (w : world) : world :=
  with_fs (list_to_map files ∪ fs w) w.

Definition with_env (name value : string) (w : world) : world :=
  World (fs w) (<[name := value]> (env w)) (entropy w) (entropy_pos w)
        (clock w) (faults w) (trace w).


Definition sample_config : value :=
  VDict [("api_keys", VDict [("fred", VStr "abc123")]); ("retries", VInt 3)].

Definition sample_salt : bytes := map Bytes.of_nat (seq 100 16).

(** A stray salt file next to a legacy plaintext configuration. *)
Definition world_salt_and_plaintext : world :=
  with_files
    [ ("config/config.json.salt", sample_salt);
      ("config/config.json", Utf8.encode (Json.dumps sample_config)) ]
    empty_world.

(** An encrypted vault, no [CONFIG_PASSWORD]. *)
Definition world_vault_no_password : world :=
  with_files
    [ ("config/config.json.salt", sample_salt);
      ("config/config.json.enc", Bytes.of_ascii_text "gAAAAAB") ]
    empty_world.

(** A token file without its salt file, [CONFIG_PASSWORD] set. *)
Definition world_token_without_salt : world :=
  with_env "CONFIG_PASSWORD" "hunter2"
    (with_files
       [ ("config/config.json.enc", Bytes.of_ascii_text "gAAAAAB") ]
       empty_world).

(** A legacy plaintext configuration only. *)
Definition world_plaintext : world :=
  with_files
    [ ("config/config.json", Utf8.encode (Json.dumps sample_config)) ]
    empty_world.


(** Payloads for the Redactor. *)
Definition sanitize_demo : pydict :=
  [ ("API_KEY", VStr "abcdefgh");
    ("name", VStr "abcdefgh");
    ("token", VStr "ab");
    ("count", VInt 7);
    ("db", VDict [("Password", VStr "hunter2!"); ("port", VInt 5432)]) ].

Definition list_demo : pydict :=
  [ ("users", VList [VDict [("password", VStr "hunter2secret")]]) ].

(** The same payload, its keys inserted in two orders. *)
Definition payload_ab : pydict :=
  [ ("amount", VInt 125);
    ("account", VDict [("id", VStr "ACC-1"); ("open", VBool true)]) ].

Definition payload_ba : pydict :=
  [ ("account", VDict [("open", VBool true); ("id", VStr "ACC-1")]);
    ("amount", VInt 125) ].

Definition world_integrity_key : world :=
  with_env "DATA_INTEGRITY_KEY" "integrity-secret" empty_world.

End Toy.

(** ** Situations in which [load_config] fails *)

Module Situation.

(** An encrypted vault is there, the password is not. *)
Definition vault_without_secret (path : string) (w : world) : Prop :=
  is_Some (fs w !! (path +:+ ".enc")) /\
  falsy (env w !! "CONFIG_PASSWORD") = true.

(** The token file is there without its salt file; the password is set. *)
Definition token_without_salt (path : string) (w : world) : Prop :=
  is_Some (fs w !! (path +:+ ".enc")) /\
  fs w !! (path +:+ ".salt") = None /\
  falsy (env w !! "CONFIG_PASSWORD") = false.

(** Neither a token file nor a legacy file, and a file system that does
    not interfere. *)
Definition nothing_stored (path : string) (w : world) : Prop :=
  fs w !! (path +:+ ".enc") = None /\
  fs w !! path = None /\
  next_fault w = NoFault.

Definition missing_secret_error : exc :=
  Exc ConfigError
    "Failed to load configuration: CONFIG_PASSWORD environment variable not set".

Definition salt_missing_error : exc :=
  Exc ConfigError "Failed to load configuration: Salt file not found".

Definition not_found_error (path : string) : exc :=
  Exc ConfigError
    ("Failed to load configuration: [Errno 2] No such file or directory: "
     +:+ Repr.repr path).

End Situation.

(** The key both [generate_key] and [derive_key] return for a password and
    a salt. *)
Definition derived_key {P : Platform} (password : string) (salt : bytes) : bytes :=
  Base64.urlsafe_b64encode
    (pbkdf2_hmac_sha256 (Utf8.encode password) salt 100000%N 32).

(** ** What a (possibly failed) save leaves behind *)

(** Between the world [w] before a save and the world [w'] the save ended
    in: if the token file was touched at all, the salt file holds the salt
    of this save; and in the trace, opening the token file for writing comes
    after the salt reached its file. *)
Definition salt_before_token (w w' : world)
    (salt_path token_path : string) (salt : bytes) : Prop :=
  (fs w' !! token_path <> fs w !! token_path ->
   fs w' !! salt_path = Some salt) /\
  (forall i,
      events_since w w' !! i = Some (EvOpenWrite token_path) ->
      exists j, j < i /\
                events_since w w' !! j = Some (EvWrite salt_path salt)).

(** What a save in world [w] draws: the salt, then the IV of the token. *)
Definition save_salt (w : world) : bytes := peek_urandom 16 w.
Definition save_iv (w : world) : bytes :=
  peek_urandom 16 (advance_entropy 16 w).

(** The token a save of [data] in world [w] writes, [f] being the Fernet
    key. *)
Definition save_token {P : Platform} (f : bytes) (data : value) (w : world) : bytes :=
  fernet_encrypt f (clock w) (save_iv w) (Utf8.encode (Json.dumps data)).

(** ** The same mapping, built in another order *)

(** [same_mapping a b]: [a] and [b] hold the same values under the same
    keys, at every level; the order in which the keys of a dict were inserted
    is free.  Lists are compared position by position. *)
Fixpoint same_mapping (a b : value) : bool :=
  match a, b with
  | VNone, VNone => true
  | VBool x, VBool y => Bool.eqb x y
  | VInt x, VInt y => Z.eqb x y
  | VStr x, VStr y => String.eqb x y
  | VList l1, VList l2 =>
      (fix go (l1 l2 : list value) : bool :=
         match l1, l2 with
         | [], [] => true
         | x :: l1', y :: l2' => same_mapping x y && go l1' l2'
         | _, _ => false
         end) l1 l2
  | VDict d1, VDict d2 =>
      (length d1 =? length d2) &&
      forallb (fun kv : string * value =>
                 let (k, x) := kv in
                 match Dict.get k d2 with
                 | Some y => same_mapping x y
                 | None => false
                 end) d1
  | _, _ => false
  end.

(** ** The text of [json.dumps] as a list of characters *)

Module JsonText.

(** [sep.join(chunks)] on lists of characters *)
Fixpoint join (sep : list ascii) (chunks : list (list ascii)) : list ascii :=
  match chunks with
  | [] => []
  | [x] => x
  | x :: rest => x ++ sep ++ join sep rest
  end.

(** The item separator of the compact form. *)
Definition comma_space : list ascii := [","%char; " "%char].

(** The text of [v] in the compact form [json.dumps(v)] writes. *)
Definition ser (level : nat) (v : value) : list ascii :=
  Str.to_list (Json.dumps_at false None level v).

(** The characters between the quotes of an encoded string. *)
Definition escaped (s : string) : list ascii :=
  concat (map (fun c => Str.to_list (Json.escape_char c)) (Str.to_list s)).

(** The text of one entry of a dict. *)
Definition ser_member (level : nat) (kv : string * value) : list ascii :=
  Str.to_list (Json.encode_basestring_ascii kv.1) ++ Str.to_list ": "
  ++ ser level kv.2.

(** A character that can begin the text of a value. *)
Definition value_start (c : ascii) : bool :=
  let n := nat_of_ascii c in
  (n =? 34) || (n =? 123) || (n =? 91) || (n =? 110) || (n =? 116)
  || (n =? 102) || (n =? 45) || JsonDecoder.is_digit c.

(** What may follow a number without changing how it is read: not a digit,
    and no fraction or exponent. *)
Definition tail_ok (rest : list ascii) : bool :=
  match rest with
  | [] => true
  | c :: _ =>
      let n := nat_of_ascii c in
      negb (JsonDecoder.is_digit c || (n =? 46) || (n =? 101) || (n =? 69))
  end.

(** What the proof that the scanner reads back the text of [v] carries. *)
Definition reads_back (v : value) : Prop :=
  forall level fuel rest,
    length (ser level v) <= fuel ->
    tail_ok rest = true ->
    JsonDecoder.scan_once fuel (ser level v ++ rest) = Some (v, rest).

End JsonText.

(** A key [Fernet] accepts. *)
Definition valid_key {P : Platform} (key : bytes) : Prop :=
  exists f, fernet_key key = Some f /\ length f = 32.

(** ** Python objects on a heap

    [sanitize_sensitive_data] once more, this time on objects with an
    identity: a dict holds references, [result = {}] allocates, and
    [result[key] = value] writes into the object [result] refers to. *)

Module PyHeap.

Abbreviation loc := positive.

Inductive obj : Type :=
| ONone
| OBool (b : bool)
| OInt (z : Z)
| OStr (s : string)
| OList (items : list loc)
| ODict (items : list (string * loc)).

Abbreviation heap := (gmap loc obj).

(** A new object: a reference no object of the heap has. *)
Definition alloc (o : obj) (h : heap) : loc * heap :=
  let l := fresh (dom h) in (l, <[l := o]> h).

(** [d[key] = value] for the dict object at [d] *)
Definition setitem (d : loc) (key : string) (value : loc) (h : heap) : option heap :=
  match h !! d with
  | Some (ODict items) => Some (<[d := ODict (Dict.set key value items)]> h)
  | _ => None
  end.

(** The loop of [sanitize_dict] over the items of [d], [result] being the
    reference of the dict under construction and [rec] the recursive call. *)
Fixpoint sanitize_loop (rec : loc -> heap -> option (loc * heap))
    (result : loc) (items : list (string * loc)) (h : heap) : option heap :=
  match items with
  | [] => Some h
  | (key, value) :: items =>
      match h !! value with
      | Some (ODict _) =>
          '(sanitized, h) ← rec value h;
          h ← setitem result key sanitized h;
          sanitize_loop rec result items h
      | Some (OStr s) =>
          if key_is_sensitive key then
            let (masked, h) := alloc (OStr (mask_value s)) h in
            h ← setitem result key masked h;
            sanitize_loop rec result items h
          else
            h ← setitem result key value h;
            sanitize_loop rec result items h
      | Some _ =>
          h ← setitem result key value h;
          sanitize_loop rec result items h
      | None => None
      end
  end.

(** [sanitize_dict(d)]: the reference of the new dict and the heap after the
    call.  [fuel] bounds the depth of the recursion; [None] stands for a
    dangling reference, an argument that is not a dict, or fuel run out.
    The loop runs over the items [d] has when the call starts; the objects
    that exist then are never written (see [sanitize_dict_heap_spec]), so
    this is what iterating over [d.items()] sees. *)
Fixpoint sanitize_dict (fuel : nat) (d : loc) (h : heap) : option (loc * heap) :=
  match fuel with
  | O => None
  | S fuel =>
      match h !! d with
      | Some (ODict items) =>
          let (result, h) := alloc (ODict []) h in
          h ← sanitize_loop (sanitize_dict fuel) result items h;
          Some (result, h)
      | _ => None
      end
  end.

(** [repr h v l]: the object at [l] in [h], followed through its
    references, is the value [v]. *)
Fixpoint repr (h : heap) (v : value) (l : loc) : Prop :=
  match v with
  | VNone => h !! l = Some ONone
  | VBool b => h !! l = Some (OBool b)
  | VInt z => h !! l = Some (OInt z)
  | VStr s => h !! l = Some (OStr s)
  | VList vs =>
      exists ls,
        h !! l = Some (OList ls) /\
        (fix all (vs : list value) (ls : list loc) : Prop :=
           match vs, ls with
           | [], [] => True
           | v :: vs, l :: ls => repr h v l /\ all vs ls
           | _, _ => False
           end) vs ls
  | VDict d =>
      exists items,
        h !! l = Some (ODict items) /\
        (fix all (d : pydict) (items : list (string * loc)) : Prop :=
           match d, items with
           | [], [] => True
           | (k, v) :: d, (k', l) :: items => k = k' /\ repr h v l /\ all d items
           | _, _ => False
           end) d items
  end.

(** The entries of a dict object and of a dict value, side by side. *)
Definition repr_items (h : heap) (d : pydict) (items : list (string * loc)) : Prop :=
  Forall2 (fun kv kl => kv.1 = kl.1 /\ repr h kv.2 kl.2) d items.

(** How deep dicts are nested in dicts; lists are not entered. *)
Fixpoint dict_depth (v : value) : nat :=
  match v with
  | VDict d => S (foldr (fun kv n => Nat.max (dict_depth kv.2) n) 0 d)
  | _ => 0
  end.

End PyHeap.

(** What a call of [sanitize_dict] on [v] at [dl] does, the heap being [h]
    and [g] any part of it that holds [v]: it returns a reference [r] that
    [h] does not have, every object of [h] is unchanged, and the result is
    held by [g] and objects made during the call. *)
Definition frame_spec (v : value) : Prop :=
  forall d, v = VDict d ->
  forall fuel (g h : PyHeap.heap) dl,
    PyHeap.dict_depth v <= fuel -> g ⊆ h -> PyHeap.repr g v dl ->
    exists r h' g',
      PyHeap.sanitize_dict fuel dl h = Some (r, h') /\
      h ⊆ h' /\ h !! r = None /\ g ⊆ g' /\ g' ⊆ h' /\
      (forall l, is_Some (h !! l) -> is_Some (g' !! l) -> is_Some (g !! l)) /\
      PyHeap.repr g' (VDict (sanitize_dict d)) r.


(** A heap for the examples: a payload with a secret, a nested dict and a
    list, the list's item shared with the payload. *)
Module ToyHeap.

Definition payload : pydict :=
  [("user", VStr "ann");
   ("password", VStr "hunter2");
   ("session", VDict [("token", VStr "abcdef")]);
   ("tags", VList [VStr "ann"])].

Definition payload_ref : PyHeap.loc := 1%positive.

Definition heap_demo : PyHeap.heap :=
  list_to_map
    [(1%positive, PyHeap.ODict [("user", 2%positive); ("password", 3%positive);
                                ("session", 4%positive); ("tags", 6%positive)]);
     (2%positive, PyHeap.OStr "ann");
     (3%positive, PyHeap.OStr "hunter2");
     (4%positive, PyHeap.ODict [("token", 5%positive)]);
     (5%positive, PyHeap.OStr "abcdef");
     (6%positive, PyHeap.OList [2%positive])].

End ToyHeap.

(** ** The accessors of [config_utils.py]

    [get_api_key], [get_user_agent] and [get_rate_limit] look a service up
    in a section of the configuration.  The annotations promise dicts, but
    the configuration is whatever [json.load] returned, so the lookups are
    modelled on every value. *)

(** What the interpreter contributes: the texts of its [TypeError]s, which
    vary with its version, and [float]. *)
Class Interpreter : Type := {
  (** [str(e)] of the [TypeError] of [key in v] when [v] is [None], a bool
      or an int *)
  not_iterable_str : value -> string;
  (** [str(e)] of the [TypeError] of [v[key]] for a [str] key when [v] is a
      [str] or a [list] *)
  bad_index_str : value -> string;
  (** Python floats *)
  pyfloat : Type;
  (** [float(v)]: the float, or the exception raised ([ValueError] for a
      string that is no number, [TypeError] for [None], a list or a dict;
      the [OverflowError] of an int beyond the range of floats is recorded
      under [ValueError], the callers here read only its text) *)
  float_of : value -> result pyfloat
}.

Module Py.

(** [item in l] for a [str] item and a list: an element equal to the item,
    which only a [str] can be *)
Definition str_in_list (item : string) (l : list value) : bool :=
  existsb (fun x => match x with VStr s => String.eqb s item | _ => false end) l.

(** [key not in container] followed, when the key is in, by
    [container[key]]: [None] when the key is not in the container, the
    value under it when the container is a dict.  A [str] has the key
    as a substring and a list has it as an element, but neither is indexed
    by a [str]; [None], bools and ints are no containers. *)
Definition member {I : Interpreter} (container : value) (key : string)
    : IO (option value) :=
  match container with
  | VDict d => ret (Dict.get key d)
  | VStr s =>
      if Str.contains key s
      then raise (Exc TypeError (bad_index_str container))
      else ret None
  | VList l =>
      if str_in_list key l
      then raise (Exc TypeError (bad_index_str container))
      else ret None
  | _ => raise (Exc TypeError (not_iterable_str container))
  end.

End Py.

Module ConfigAccess.

(** [config[section][service]] when [config] and [config[section]] are
    dicts that have the keys: the value the accessors are after. *)
Definition found (config : value) (section service : string) : option value :=
  match config with
  | VDict d =>
      match Dict.get section d with
      | Some (VDict entries) => Dict.get service entries
      | _ => None
      end
  | _ => None
  end.

Section ConfigAccess.
Context {I : Interpreter}.

Definition get_api_key (config : value) (service : string) : IO value :=
  try_except
    (let* api_keys := Py.member config "api_keys" in
     match api_keys with
     | None => raise (Exc ConfigError "API keys not found in configuration")
     | Some api_keys =>
         let* key := Py.member api_keys service in
         match key with
         | None =>
             raise (Exc ConfigError ("API key for " +:+ service +:+ " not found"))
         | Some key => ret key
         end
     end)
    (fun e =>
       let* _ := logger_error ("Error getting API key: " +:+ exc_str e) in
       raise (Exc ConfigError ("Failed to get API key: " +:+ exc_str e))).

Definition get_user_agent (config : value) (service : string) : IO value :=
  try_except
    (let* user_agents := Py.member config "user_agents" in
     match user_agents with
     | None => raise (Exc ConfigError "User agents not found in configuration")
     | Some user_agents =>
         let* agent := Py.member user_agents service in
         match agent with
         | None =>
             raise (Exc ConfigError
                      ("User agent for " +:+ service +:+ " not found"))
         | Some agent => ret agent
         end
     end)
    (fun e =>
       let* _ := logger_error ("Error getting user agent: " +:+ exc_str e) in
       raise (Exc ConfigError ("Failed to get user agent: " +:+ exc_str e))).

Definition get_rate_limit (config : value) (service : string) : IO pyfloat :=
  try_except
    (let* rate_limits := Py.member config "rate_limits" in
     match rate_limits with
     | None => raise (Exc ConfigError "Rate limits not found in configuration")
     | Some rate_limits =>
         let* limit := Py.member rate_limits service in
         match limit with
         | None =>
             raise (Exc ConfigError
                      ("Rate limit for " +:+ service +:+ " not found"))
         | Some limit =>
             match float_of limit with
             | Ok x => ret x
             | Raise e => raise e
             end
         end
     end)
    (fun e =>
       let* _ := logger_error ("Error getting rate limit: " +:+ exc_str e) in
       raise (Exc ConfigError ("Failed to get rate limit: " +:+ exc_str e))).

End ConfigAccess.
End ConfigAccess.

(** ** [secure_log] *)

(** The characters [' '..'~'] and their bytes: what a line of a log is
    made of. *)
Definition printable_ascii (c : ascii) : bool :=
  (32 <=? nat_of_ascii c) && (nat_of_ascii c <=? 126).

Definition printable_byte (b : Byte.byte) : bool :=
  (32 <=? Byte.to_nat b) && (Byte.to_nat b <=? 126).

(** [datetime.now().isoformat()] when the clock reads [t]: the text depends
    on the time zone of the machine and is not computed. *)
Class Calendar : Type := {
  isoformat : Z -> string
}.

Module SecureLog.

(** [with open(path, "a") as f: f.write(text)], the text already encoded:
    the file is created when it is missing and the text goes after what the
    file holds; a failure during the write leaves a prefix of the text
    appended. *)
Definition append_file (path : string) (data : bytes) : IO unit :=
  fun w =>
    let w0 := pop_fault w in
    let old := default [] (fs w !! path) in
    match next_fault w with
    | FailBefore e => (Raise e, w0)
    | FailDuring n e =>
        (Raise e, with_fs (<[path := old ++ take n data]> (fs w)) w0)
    | NoFault =>
        (Ok tt,
         emit (EvWrite path data)
           (with_fs (<[path := old ++ data]> (fs w)) w0))
    end.

(** The sanitized payload with its timestamp, as [secure_log] builds it *)
Definition log_record {C : Calendar} (data : pydict) (now : Z) : pydict :=
  Dict.set "timestamp" (VStr (isoformat now)) (sanitize_sensitive_data data).

(** [json.dump] writes the text of [json.dumps]; it is ASCII, so the
    encoding of the file does not matter. *)
Definition secure_log {C : Calendar} (data : pydict) (log_file : string)
    : IO unit :=
  try_except
    ((* Sanitize data, add timestamp *)
     let* now := Os.time in
     let sanitized_data := log_record data now in
     (* Log to file *)
     append_file log_file
       (Utf8.encode (Json.dumps (VDict sanitized_data) +:+ Json.newline)))
    (fun e =>
       let* _ := logger_error ("Error logging data securely: " +:+ exc_str e) in
       raise (Exc SecureDataError
                ("Failed to log data securely: " +:+ exc_str e))).

End SecureLog.

(** Stand-ins for the examples. *)
Module Toy2.

Definition toy_interpreter : Interpreter := {|
  not_iterable_str _ := "argument is not iterable";
  bad_index_str _ := "indices must be integers";
  pyfloat := Z;
  float_of v :=
    match v with
    | VInt z => Ok z
    | VBool b => Ok (if b then 1%Z else 0%Z)
    | VStr _ => Raise (Exc ValueError "could not convert string to float")
    | _ => Raise (Exc TypeError "float() argument must be a string or a real number")
    end
|}.

Definition toy_calendar : Calendar := {|
  isoformat t := "T+" +:+ Json.int_repr t
|}.

(** A configuration as the scripts of the repository read it *)
Definition config : pydict :=
  [ ("api_keys", VDict [("fred", VStr "0123456789abcdef")]);
    ("user_agents", VDict [("sec", VStr "Troyonix research")]);
    ("rate_limits", VDict [("sec", VInt 10)]) ].

(** A payload to log, with a timestamp of its own *)
Definition event_payload : pydict :=
  [ ("event", VStr "login");
    ("password", VStr "hunter2");
    ("timestamp", VStr "yesterday") ].

Definition world_with_log : world :=
  Toy.with_files [("audit.log", Bytes.of_ascii_text "first line")]
    Toy.empty_world.

End Toy2.

(** ** The text of [json.dump(v, f, indent=n)] as a list of characters *)

Module JsonLayout.

(** The line break and indentation before an item at depth [level] *)
Definition nl (n level : nat) : list ascii :=
  "010"%char :: replicate (n * level) " "%char.

(** The separator of the items at depth [level]: a comma, then a new line *)
Definition sep (n level : nat) : list ascii := ","%char :: nl n level.

(** The text of [v] with [indent=n] *)
Definition ser (n level : nat) (v : value) : list ascii :=
  Str.to_list (Json.dumps_at false (Some n) level v).

(** The text of one entry of a dict *)
Definition ser_member (n level : nat) (kv : string * value) : list ascii :=
  Str.to_list (Json.encode_basestring_ascii kv.1) ++ Str.to_list ": "
  ++ ser n level kv.2.

(** White space only *)
Definition blank (w : list ascii) : Prop :=
  Forall (fun c => JsonDecoder.is_ws c = true) w.

(** What the proof that the scanner reads back the indented text of [v]
    carries. *)
Definition reads_back (n : nat) (v : value) : Prop :=
  forall level fuel rest,
    length (ser n level v) <= fuel ->
    JsonText.tail_ok rest = true ->
    JsonDecoder.scan_once fuel (ser n level v ++ rest) = Some (v, rest).

End JsonLayout.

(** A byte of the URL-safe base64 alphabet: a letter, a digit, [-] or [_] *)
Definition urlsafe_byte (b : Byte.byte) : bool :=
  let n := Byte.to_nat b in
  ((65 <=? n) && (n <=? 90)) || ((97 <=? n) && (n <=? 122))
  || ((48 <=? n) && (n <=? 57)) || (n =? 45) || (n =? 95).
(** * Properties *)

(** ** Strings as lists of characters *)

Module StrFacts.

Lemma of_to_list s : Str.of_list (Str.to_list s) = s.
Proof. induction s; simpl; congruence. Qed.

Lemma to_of_list l : Str.to_list (Str.of_list l) = l.
Proof. induction l; simpl; congruence. Qed.

Lemma to_list_inj s1 s2 : Str.to_list s1 = Str.to_list s2 -> s1 = s2.
Proof. intros H. rewrite <- (of_to_list s1), <- (of_to_list s2). by rewrite H. Qed.

Lemma length_to_list s : length (Str.to_list s) = String.length s.
Proof. induction s; simpl; congruence. Qed.

Lemma to_list_app s1 s2 :
  Str.to_list (s1 +:+ s2) = Str.to_list s1 ++ Str.to_list s2.
Proof.
  induction s1 as [|c s1 IH]; [reflexivity|].
  change (c :: Str.to_list (s1 +:+ s2) = c :: (Str.to_list s1 ++ Str.to_list s2)).
  by rewrite IH.
Qed.

Lemma to_list_repeat c n : Str.to_list (Str.repeat c n) = replicate n c.
Proof. induction n; simpl; congruence. Qed.

Lemma to_list_take n s : Str.to_list (Str.take n s) = take n (Str.to_list s).
Proof.
  revert s. induction n as [|n IH]; intros [|c s]; simpl; try done.
  by rewrite IH.
Qed.

Lemma to_list_drop n s : Str.to_list (Str.drop n s) = drop n (Str.to_list s).
Proof. revert s. induction n as [|n IH]; intros [|c s]; simpl; auto. Qed.

Lemma to_list_last n s :
  Str.to_list (Str.last n s) = drop (String.length s - n) (Str.to_list s).
Proof. unfold Str.last. apply to_list_drop. Qed.

Lemma length_app s1 s2 :
  String.length (s1 +:+ s2) = String.length s1 + String.length s2.
Proof. rewrite <- !length_to_list, to_list_app. apply length_app. Qed.

End StrFacts.

(** ** Redactor *)

Module RedactorFacts.
Import StrFacts.

Lemma mask_short (l : list ascii) :
  length l <= 4 ->
  replicate (length l) "*"%char = imap (RedactorSpec.mask_char (length l)) l.
Proof.
  intros Hlen. apply list_eq. intros i.
  rewrite list_lookup_imap. unfold RedactorSpec.mask_char.
  destruct (Nat.leb_spec (length l) 4); [|lia].
  destruct (l !! i) as [c|] eqn:Hi; simpl.
  - apply lookup_replicate_2. by eapply lookup_lt_Some.
  - apply lookup_replicate_None. by apply lookup_ge_None.
Qed.

Lemma mask_long (l : list ascii) :
  4 < length l ->
  take 2 l ++ replicate (length l - 4) "*"%char ++ drop (length l - 2) l
  = imap (RedactorSpec.mask_char (length l)) l.
Proof.
  intros Hlen. apply list_eq. intros i.
  rewrite list_lookup_imap. unfold RedactorSpec.mask_char.
  destruct (Nat.leb_spec (length l) 4); [lia|].
  destruct (decide (i < 2)) as [Hi|Hi].
  - rewrite lookup_app_l by (rewrite length_take; lia).
    rewrite lookup_take_lt by done.
    destruct (Nat.ltb_spec i 2); [|lia]. simpl.
    by destruct (l !! i).
  - rewrite lookup_app_r by (rewrite length_take; lia).
    rewrite length_take, Nat.min_l by lia.
    destruct (Nat.ltb_spec i 2); [lia|]. simpl.
    destruct (decide (i < length l - 2)) as [Hj|Hj].
    + rewrite lookup_app_l by (rewrite length_replicate; lia).
      destruct (Nat.leb_spec (length l - 2) i); [lia|].
      rewrite lookup_replicate_2 by lia.
      destruct (lookup_lt_is_Some_2 l i) as [c ->]; [lia|done].
    + rewrite lookup_app_r by (rewrite length_replicate; lia).
      rewrite length_replicate, lookup_drop.
      destruct (Nat.leb_spec (length l - 2) i); [|lia].
      replace (length l - 2 + (i - 2 - (length l - 4))) with i by lia.
      by destruct (l !! i).
Qed.

(** [mask_value] is the masking the specification describes. *)
Lemma mask_value_spec s : mask_value s = RedactorSpec.mask s.
Proof.
  apply to_list_inj. unfold mask_value, RedactorSpec.mask.
  rewrite to_of_list, <- length_to_list.
  destruct (Nat.leb_spec (length (Str.to_list s)) 4).
  - rewrite to_list_repeat. by apply mask_short.
  - rewrite !to_list_app, to_list_take, to_list_repeat, to_list_last.
    rewrite <- length_to_list. by apply mask_long.
Qed.

Lemma key_is_sensitive_spec key :
  key_is_sensitive key = RedactorSpec.sensitive key.
Proof. reflexivity. Qed.

Lemma forallb_wf {A} (f : A -> bool) (l : list A) :
  forallb f l = true <-> Forall (fun x => f x = true) l.
Proof.
  induction l as [|x l IH]; simpl.
  - split; [constructor|done].
  - rewrite andb_true_iff, IH, Forall_cons. done.
Qed.

Lemma wf_list_Forall items :
  wf_value (VList items) <-> Forall wf_value items.
Proof. unfold wf_value. simpl. apply forallb_wf. Qed.

Lemma wf_dict_Forall items :
  wf_value (VDict items) <->
  NoDup items.*1 /\ Forall (fun kv => wf_value kv.2) items.
Proof.
  unfold wf_value. simpl.
  rewrite andb_true_iff, bool_decide_eq_true, forallb_wf. done.
Qed.

Lemma dict_set_fresh k v (acc : pydict) :
  k ∉ acc.*1 -> Dict.set k v acc = acc ++ [(k, v)].
Proof.
  induction acc as [|[k' v'] acc IH]; simpl; intros Hk; [done|].
  apply not_elem_of_cons in Hk as [Hne Hk].
  destruct (String.eqb_spec k k'); [done|]. by rewrite IH.
Qed.

Lemma fold_set_fresh (g : string * value -> value) (d acc : pydict) :
  NoDup (acc.*1 ++ d.*1) ->
  fold_left (fun r kv => Dict.set kv.1 (g kv) r) d acc
  = acc ++ map (fun kv => (kv.1, g kv)) d.
Proof.
  revert acc. induction d as [|[k v] d IH]; intros acc Hnd; simpl.
  - by rewrite app_nil_r.
  - simpl in Hnd. apply NoDup_app in Hnd as (Hacc & Hdisj & Hd).
    apply NoDup_cons in Hd as [Hk Hd].
    rewrite dict_set_fresh by (intros Hin; apply (Hdisj _ Hin); left).
    rewrite IH.
    + by rewrite <- app_assoc.
    + rewrite fmap_app. simpl. rewrite <- app_assoc. simpl.
      apply NoDup_app. split_and!; [done| |by constructor].
      intros x Hx. apply Hdisj in Hx. done.
Qed.

Lemma sanitize_item_set rec result kv :
  sanitize_item rec result kv = Dict.set kv.1 (item_value rec kv.1 kv.2) result.
Proof.
  destruct kv as [key v]. destruct v; simpl; try done.
  by destruct (key_is_sensitive key).
Qed.

Lemma sanitize_loop_map rec (d : pydict) :
  NoDup d.*1 ->
  fold_left (sanitize_item rec) d []
  = map (fun kv => (kv.1, item_value rec kv.1 kv.2)) d.
Proof.
  intros Hnd.
  pose proof (fold_set_fresh (fun kv => item_value rec kv.1 kv.2) d [] Hnd) as H.
  simpl in H. rewrite <- H. clear H Hnd.
  generalize (@nil (string * value)) as acc.
  induction d as [|kv d IH]; intros acc; simpl; [done|].
  rewrite sanitize_item_set. apply IH.
Qed.

Lemma item_value_spec v :
  wf_value v ->
  forall key,
    item_value sanitize_dict_value key v = RedactorSpec.sanitize_value key v.
Proof.
  induction v as [| | |s|items IH|items IH] using value_ind;
    intros Hwf key; try done.
  - simpl. rewrite key_is_sensitive_spec, mask_value_spec. done.
  - apply wf_dict_Forall in Hwf as [Hnd Hwf]. simpl. f_equal.
    rewrite sanitize_loop_map by done.
    clear Hnd. revert Hwf.
    induction IH as [|[k x] l Hx _ IHl]; intros Hwf; simpl; [done|].
    apply Forall_cons in Hwf as [Hw Hwf].
    f_equal; [f_equal; by apply Hx | by apply IHl].
Qed.

Lemma dict_get_map (f : string -> value -> value) key (d : pydict) :
  Dict.get key (map (fun kv => (kv.1, f kv.1 kv.2)) d)
  = f key <$> Dict.get key d.
Proof.
  induction d as [|[k v] d IH]; simpl; [done|].
  destruct (String.eqb_spec key k) as [->|]; done.
Qed.

End RedactorFacts.

(** ** Claims about the Redactor *)

(** Examples of section 8, item 8, of the specification. *)
Example sanitize_api_key :
  sanitize_sensitive_data [("api_key", VStr "abcdefgh")]
  = [("api_key", VStr "ab****gh")].
Proof. reflexivity. Qed.

Example sanitize_name :
  sanitize_sensitive_data [("name", VStr "abcdefgh")]
  = [("name", VStr "abcdefgh")].
Proof. reflexivity. Qed.

Example sanitize_token :
  sanitize_sensitive_data [("token", VStr "ab")] = [("token", VStr "**")].
Proof. reflexivity. Qed.

(** C8. For every mapping payload (a dict, keys distinct at every level),
    [sanitize_sensitive_data] returns the entries of the input in the same
    order, where a string value whose key, lowercased, contains a term of the
    vocabulary is masked (all stars when of length at most 4, else the first
    two and last two characters kept and every character in between a star),
    a nested mapping is sanitized recursively, and every other value is
    unchanged. *)
Theorem sanitize_sensitive_data_spec (d : pydict) :
  wf_dict d -> sanitize_sensitive_data d = RedactorSpec.sanitize d.
Proof.
  intros Hwf. unfold sanitize_sensitive_data, sanitize_dict, RedactorSpec.sanitize.
  pose proof (RedactorFacts.item_value_spec (VDict d) Hwf EmptyString) as H.
  simpl in H. by injection H.
Qed.

Lemma sanitize_sensitive_data_spec_witness :
  wf_dict Toy.sanitize_demo /\
  sanitize_sensitive_data Toy.sanitize_demo = RedactorSpec.sanitize Toy.sanitize_demo /\
  RedactorSpec.sanitize Toy.sanitize_demo =
  [ ("API_KEY", VStr "ab****gh");
    ("name", VStr "abcdefgh");
    ("token", VStr "**");
    ("count", VInt 7);
    ("db", VDict [("Password", VStr "hu****2!"); ("port", VInt 5432)]) ].
Proof.
  split; [reflexivity|].
  split; [apply (sanitize_sensitive_data_spec Toy.sanitize_demo); reflexivity|].
  reflexivity.
Defined.

(** C10. [sanitize_sensitive_data] does not descend into list values: a
    value that is neither a mapping nor a string is stored unchanged, so a
    list keeps the mappings inside it verbatim, sensitive keys included. *)
Theorem sanitize_keeps_non_dict_non_str (d : pydict) (key : string) (v : value) :
  wf_dict d ->
  Dict.get key d = Some v ->
  is_dict v = false ->
  is_str v = false ->
  Dict.get key (sanitize_sensitive_data d) = Some v.
Proof.
  intros Hwf Hget Hd Hs. unfold sanitize_sensitive_data, sanitize_dict.
  pose proof (RedactorFacts.item_value_spec (VDict d) Hwf EmptyString) as H.
  simpl in H. injection H as ->.
  rewrite (RedactorFacts.dict_get_map RedactorSpec.sanitize_value), Hget.
  by destruct v.
Qed.

Lemma sanitize_keeps_non_dict_non_str_witness :
  Dict.get "users" (sanitize_sensitive_data Toy.list_demo)
  = Some (VList [VDict [("password", VStr "hunter2secret")]]).
Proof.
  apply (sanitize_keeps_non_dict_non_str Toy.list_demo "users"); reflexivity.
Defined.

(** ** Worlds, traces and paths *)

Module WorldFacts.

Lemma app_ne_self (s t : string) : t <> EmptyString -> s +:+ t <> s.
Proof.
  intros Ht H. apply (f_equal String.length) in H.
  rewrite StrFacts.length_app in H.
  destruct t; [done|]. simpl in H. lia.
Qed.

Lemma enc_ne_salt (s : string) : s +:+ ".enc" <> s +:+ ".salt".
Proof. intros H. by apply String.app_inj in H. Qed.

Lemma events_since_app (w : world) (t : list event) (evs : list event) :
  t = trace w -> drop (length t) (trace w ++ evs) = evs.
Proof. intros ->. apply drop_app_length. Qed.

Lemma exists_true (fsv : gmap string bytes) (path : string) :
  is_Some (fsv !! path) -> bool_decide (is_Some (fsv !! path)) = true.
Proof. intros. by apply bool_decide_eq_true. Qed.

Lemma exists_false (fsv : gmap string bytes) (path : string) :
  fsv !! path = None -> bool_decide (is_Some (fsv !! path)) = false.
Proof. intros H. apply bool_decide_eq_false. rewrite H. by intros [? ?]. Qed.


End WorldFacts.

(** ** Rules for running a computation step by step *)

Module Wp.

Lemma wp_ret {A} (a : A) w Q : Q (Ok a) w -> wp (ret a) w Q.
Proof. done. Qed.

Lemma wp_raise {A} (e : exc) w (Q : result A -> world -> Prop) :
  Q (Raise e) w -> wp (raise e) w Q.
Proof. done. Qed.

Lemma wp_bind {A B} (m : IO A) (k : A -> IO B) w Q :
  wp m w (fun r w' =>
            match r with
            | Ok a => wp (k a) w' Q
            | Raise e => Q (Raise e) w'
            end) ->
  wp (bind m k) w Q.
Proof. unfold wp, bind. by destruct (m w) as [[a|e] w']. Qed.

Lemma wp_try {A} (m : IO A) (h : exc -> IO A) w Q :
  wp m w (fun r w' =>
            match r with
            | Ok a => Q (Ok a) w'
            | Raise e => wp (h e) w' Q
            end) ->
  wp (try_except m h) w Q.
Proof. unfold wp, try_except. by destruct (m w) as [[a|e] w']. Qed.

Lemma wp_logger_error msg w Q :
  Q (Ok tt) (emit (EvLog msg) w) -> wp (logger_error msg) w Q.
Proof. done. Qed.

Lemma wp_path_exists path w Q :
  Q (Ok (bool_decide (is_Some (fs w !! path)))) (emit (EvExists path) w) ->
  wp (Os.path_exists path) w Q.
Proof. done. Qed.

Lemma wp_getenv name w Q :
  Q (Ok (env w !! name)) (emit (EvGetenv name) w) ->
  wp (Os.getenv name) w Q.
Proof. done. Qed.

Lemma wp_urandom n w Q :
  Q (Ok (peek_urandom n w)) (emit (EvUrandom n) (advance_entropy n w)) ->
  wp (Os.urandom n) w Q.
Proof. done. Qed.

Lemma wp_time w Q :
  Q (Ok (clock w)) (emit EvTime w) -> wp Os.time w Q.
Proof. done. Qed.

Lemma wp_read_file path w Q :
  (forall e, Q (Raise e) (emit (EvOpenRead path) (pop_fault w))) ->
  (forall data, fs w !! path = Some data ->
                Q (Ok data) (emit (EvOpenRead path) (pop_fault w))) ->
  wp (Os.read_file path) w Q.
Proof.
  intros Hfail Hok. unfold wp, Os.read_file.
  destruct (next_fault w); [destruct (fs w !! path) eqn:E|..]; simpl; auto.
Qed.

Lemma wp_read_file_no_fault path w Q :
  next_fault w = NoFault ->
  match fs w !! path with
  | Some data => Q (Ok data) (emit (EvOpenRead path) (pop_fault w))
  | None =>
      Q (Raise (Os.no_such_file path)) (emit (EvOpenRead path) (pop_fault w))
  end ->
  wp (Os.read_file path) w Q.
Proof.
  intros Hnf H. unfold wp, Os.read_file. rewrite Hnf.
  by destruct (fs w !! path).
Qed.

(** The three ways a write ends: refused, cut short, done. *)
Lemma wp_write_file path data w Q :
  (forall e, Q (Raise e) (pop_fault w)) ->
  (forall n e,
      Q (Raise e)
        (emit (EvOpenWrite path)
           (with_fs (<[path := take n data]> (fs w)) (pop_fault w)))) ->
  Q (Ok tt)
    (emit (EvWrite path data)
       (emit (EvOpenWrite path)
          (with_fs (<[path := data]> (fs w)) (pop_fault w)))) ->
  wp (Os.write_file path data) w Q.
Proof.
  intros Hrefused Hcut Hdone. unfold wp, Os.write_file.
  destruct (next_fault w); simpl; auto.
Qed.

Lemma wp_remove path w Q :
  (forall e, Q (Raise e) (emit (EvRemove path) (pop_fault w))) ->
  (is_Some (fs w !! path) ->
   Q (Ok tt) (with_fs (delete path (fs w)) (emit (EvRemove path) (pop_fault w)))) ->
  wp (Os.remove path) w Q.
Proof.
  intros Hfail Hok. unfold wp, Os.remove.
  destruct (next_fault w); [destruct (fs w !! path) eqn:E|..]; simpl; auto.
Qed.

Lemma wp_mono {A} (m : IO A) w (Q Q' : result A -> world -> Prop) :
  (forall r w', Q r w' -> Q' r w') -> wp m w Q -> wp m w Q'.
Proof. unfold wp. auto. Qed.

End Wp.

(** Reduce the projections of a world built by the operations above. *)
Ltac wsimpl :=
  unfold emit, pop_fault, with_fs, advance_entropy, next_fault, peek_urandom;
  cbn [fs env entropy entropy_pos clock faults trace
       exc_type exc_str fst snd default from_option id negb andb orb].

(** One step of the program under [wp]. *)
Ltac wp_step :=
  lazymatch goal with
  | |- wp (bind _ _) _ _ => apply Wp.wp_bind
  | |- wp (try_except _ _) _ _ => apply Wp.wp_try
  | |- wp (ret _) _ _ => apply Wp.wp_ret
  | |- wp (raise _) _ _ => apply Wp.wp_raise
  | |- wp (logger_error _) _ _ => apply Wp.wp_logger_error
  | |- wp (Os.path_exists _) _ _ => apply Wp.wp_path_exists
  | |- wp (Os.getenv _) _ _ => apply Wp.wp_getenv
  | |- wp (Os.urandom _) _ _ => apply Wp.wp_urandom
  | |- wp Os.time _ _ => apply Wp.wp_time
  | |- wp (Os.read_file _) _ _ =>
      apply Wp.wp_read_file; [intros ?|intros ? ?]
  | |- wp (Os.write_file _ _) _ _ =>
      apply Wp.wp_write_file; [intros ?|intros ? ?|]
  | |- wp (Os.remove _) _ _ => apply Wp.wp_remove; [intros ?|intros ?]
  | |- wp (Fernet _) _ _ => unfold Fernet
  | |- wp (Fernet_encrypt _ _) _ _ => unfold Fernet_encrypt
  | |- wp (Fernet_decrypt _ _) _ _ => unfold Fernet_decrypt
  | |- wp (bytes_decode _) _ _ => unfold bytes_decode
  | |- wp (json_loads _) _ _ => unfold json_loads
  | |- wp (match ?x with _ => _ end) _ _ =>
      first [ match goal with
              | H : ?y = _ |- _ =>
                  lazymatch x with context [y] => rewrite H end
              end
            | destruct x eqn:? ]
  | |- wp (let _ := _ in _) _ _ => cbv zeta
  end; cbv beta iota; wsimpl.

Ltac wp_run := repeat wp_step.

(** Bring [events_since w w'] to the list of events appended to [trace w]. *)
Ltac trace_norm :=
  unfold events_since; wsimpl;
  rewrite <- ?app_assoc; cbn [app];
  rewrite ?drop_app_length.

(** Membership of an event in an explicit list. *)
Ltac event_in :=
  repeat first [ apply list_elem_of_here | apply list_elem_of_further ].

Ltac event_notin :=
  rewrite ?not_elem_of_cons; split_and?;
  first [ apply not_elem_of_nil | congruence ].

(** ** VaultStore: which file [load_config] reads *)

Module LoadFacts.
Import ConfigUtils WorldFacts.

Section Load.
Context {P : Platform}.

Lemma load_config_plaintext_branch (path : string) (w : world) :
  fs w !! (path +:+ ".enc") = None ->
  EvOpenRead path ∈ events_since w (load_config (Some path) w).2.
Proof.
  intros Henc%exists_false.
  change (wp (load_config (Some path)) w
            (fun _ w' => EvOpenRead path ∈ events_since w w')).
  unfold load_config. destruct w as [fsv envv ent pos clk fl tr].
  cbn [fs] in Henc. wsimpl.
  wp_run; trace_norm; event_in.
Qed.

Lemma load_config_encrypted_branch (path : string) (w : world) :
  is_Some (fs w !! (path +:+ ".enc")) ->
  EvOpenRead path ∉ events_since w (load_config (Some path) w).2.
Proof.
  intros Henc%exists_true.
  change (wp (load_config (Some path)) w
            (fun _ w' => EvOpenRead path ∉ events_since w w')).
  unfold load_config, generate_key, decrypt_config.
  destruct w as [fsv envv ent pos clk fl tr].
  cbn [fs] in Henc. wsimpl.
  pose proof (app_ne_self path ".enc" ltac:(done)).
  pose proof (app_ne_self path ".salt" ltac:(done)).
  wp_run; trace_norm; event_notin.
Qed.

End Load.
End LoadFacts.

(** ** VaultStore: how [load_config] fails *)

Module LoadErrors.
Import ConfigUtils WorldFacts Situation.

Section Errors.
Context {P : Platform}.

Lemma load_config_missing_secret path w :
  vault_without_secret path w ->
  (load_config (Some path) w).1 = Raise missing_secret_error.
Proof.
  intros [Henc%exists_true Hpw].
  change (wp (load_config (Some path)) w
            (fun r _ => r = Raise missing_secret_error)).
  unfold load_config. destruct w as [fsv envv ent pos clk fl tr].
  cbn [fs env] in Henc, Hpw. wsimpl.
  wp_run. done.
Qed.

Lemma load_config_salt_missing path w :
  token_without_salt path w ->
  (load_config (Some path) w).1 = Raise salt_missing_error.
Proof.
  intros (Henc%exists_true & Hsalt%exists_false & Hpw).
  change (wp (load_config (Some path)) w
            (fun r _ => r = Raise salt_missing_error)).
  unfold load_config. destruct w as [fsv envv ent pos clk fl tr].
  cbn [fs env] in Henc, Hsalt, Hpw. wsimpl.
  wp_run. done.
Qed.

Lemma load_config_not_found path w :
  nothing_stored path w ->
  (load_config (Some path) w).1 = Raise (not_found_error path).
Proof.
  intros (Henc%exists_false & Hplain & Hnf).
  change (wp (load_config (Some path)) w
            (fun r _ => r = Raise (not_found_error path))).
  unfold load_config. destruct w as [fsv envv ent pos clk fl tr].
  cbn [fs env] in Henc, Hplain. wsimpl.
  do 5 wp_step. apply Wp.wp_read_file_no_fault; [done|].
  wsimpl. rewrite Hplain. wp_run. done.
Qed.

(** Whatever goes wrong, the caller sees a [ConfigError]. *)
Lemma load_config_raises_ConfigError (config_path : option string) w e :
  (load_config config_path w).1 = Raise e -> exc_type e = ConfigError.
Proof.
  revert e.
  change (wp (load_config config_path) w
            (fun r _ => forall e, r = Raise e -> exc_type e = ConfigError)).
  unfold load_config, generate_key, decrypt_config.
  destruct w as [fsv envv ent pos clk fl tr]. wsimpl.
  wp_run; by intros ? [= <-].
Qed.

Lemma secure_load_raises_SecureDataError (filepath password : string) w e :
  (SecureDataUtils.secure_load filepath password w).1 = Raise e ->
  exc_type e = SecureDataError.
Proof.
  revert e.
  change (wp (SecureDataUtils.secure_load filepath password) w
            (fun r _ => forall e, r = Raise e -> exc_type e = SecureDataError)).
  unfold SecureDataUtils.secure_load, SecureDataUtils.derive_key,
    SecureDataUtils.decrypt_data.
  destruct w as [fsv envv ent pos clk fl tr]. wsimpl.
  wp_run; by intros ? [= <-].
Qed.

Lemma messages_differ (path : string) :
  exc_str missing_secret_error <> exc_str salt_missing_error /\
  exc_str missing_secret_error <> exc_str (not_found_error path) /\
  exc_str salt_missing_error <> exc_str (not_found_error path).
Proof.
  split_and!; [done|..]; intros H;
    apply (f_equal (Str.take 31)) in H; vm_compute in H; discriminate.
Qed.

End Errors.
End LoadErrors.

(** ** KeyDeriver *)

Module DeriveFacts.

Lemma b64encode_length_aux (n : nat) :
  forall s : bytes,
    length s < n ->
    length (Base64.urlsafe_b64encode s) = 4 * ((length s + 2) / 3).
Proof.
  induction n as [|n IH]; intros s Hlen; [lia|].
  destruct s as [|a [|b [|c rest]]]; try reflexivity.
  cbn [Base64.urlsafe_b64encode length].
  rewrite IH by (simpl in Hlen; lia).
  replace (S (S (S (length rest))) + 2) with (length rest + 2 + 1 * 3) by lia.
  rewrite Nat.div_add by lia. lia.
Qed.

Lemma b64encode_length (s : bytes) :
  length (Base64.urlsafe_b64encode s) = 4 * ((length s + 2) / 3).
Proof. apply (b64encode_length_aux (S (length s))). lia. Qed.

Lemma b64encode_length_32 (s : bytes) :
  length s = 32 -> length (Base64.urlsafe_b64encode s) = 44.
Proof. intros H. rewrite b64encode_length, H. reflexivity. Qed.

Lemma peek_urandom_length n w : length (peek_urandom n w) = n.
Proof. unfold peek_urandom. by rewrite length_map, length_seq. Qed.

End DeriveFacts.

(** ** The stand-in platform satisfies the laws *)

Module ToyFacts.
Import Toy.

Lemma toy_laws : PlatformLaws toy_platform.
Proof.
  split.
  - intros password salt iterations n. simpl.
    rewrite length_take, !length_app, length_replicate. lia.
  - intros key time iv data Hkey Hiv. simpl.
    rewrite take_app_length, bool_decide_true by done.
    rewrite <- Hiv, app_assoc, <- length_app. by rewrite drop_app_length.
Qed.

End ToyFacts.

(** * The claims *)

(** ** C1: which file [load_config] reads *)

(** C1, as stated, fails: with [config.json.salt] and a legacy
    [config.json] on disk but no [config.json.enc], [load_config] opens the
    legacy file although one of the two vault files exists. *)
Lemma load_config_reads_plaintext_beside_salt :
  ~ (forall (P : Platform) (path : string) (w : world),
        EvOpenRead path
          ∈ events_since w (ConfigUtils.load_config (Some path) w).2 ->
        fs w !! (path +:+ ".enc") = None /\ fs w !! (path +:+ ".salt") = None).
Proof.
  intros claim.
  destruct (claim Toy.toy_platform "config/config.json"
              Toy.world_salt_and_plaintext) as [_ Hsalt].
  - apply LoadFacts.load_config_plaintext_branch. by vm_compute.
  - vm_compute in Hsalt. discriminate.
Qed.

(** C1, amended: [load_config] opens the legacy plaintext file at [path]
    exactly when [path.enc] does not exist; whether [path.salt] exists plays
    no part in the choice. *)
Theorem load_config_reads_plaintext_iff
    (P : Platform) (config_path : option string) (w : world) :
  let path := default ConfigUtils.default_config_path config_path in
  EvOpenRead path ∈ events_since w (ConfigUtils.load_config config_path w).2
  <-> fs w !! (path +:+ ".enc") = None.
Proof.
  intros path.
  assert (ConfigUtils.load_config config_path
          = ConfigUtils.load_config (Some path)) as -> by (by destruct config_path).
  split.
  - intros Hin. destruct (fs w !! (path +:+ ".enc")) as [tok|] eqn:Henc; [|done].
    exfalso. eapply LoadFacts.load_config_encrypted_branch; [|exact Hin].
    rewrite Henc. by eexists.
  - apply LoadFacts.load_config_plaintext_branch.
Qed.

(** ** C2: the failures of [load_config] *)

(** C2, as stated, fails: the three failures are not told apart by their
    type.  A vault without its password, a token file without its salt file
    and an empty directory all end in the same exception class. *)
Lemma load_config_failures_share_one_type :
  ~ (forall (P : Platform) (path : string) (w1 w2 w3 : world) (e1 e2 e3 : exc),
        Situation.vault_without_secret path w1 ->
        Situation.token_without_salt path w2 ->
        Situation.nothing_stored path w3 ->
        (ConfigUtils.load_config (Some path) w1).1 = Raise e1 ->
        (ConfigUtils.load_config (Some path) w2).1 = Raise e2 ->
        (ConfigUtils.load_config (Some path) w3).1 = Raise e3 ->
        exc_type e1 <> exc_type e2 /\
        exc_type e1 <> exc_type e3 /\
        exc_type e2 <> exc_type e3).
Proof.
  intros claim.
  assert (Situation.vault_without_secret "config/config.json"
            Toy.world_vault_no_password) as H1
    by (split; [vm_compute; eauto|reflexivity]).
  assert (Situation.token_without_salt "config/config.json"
            Toy.world_token_without_salt) as H2
    by (split_and!; [vm_compute; eauto|reflexivity|reflexivity]).
  assert (Situation.nothing_stored "config/config.json" Toy.empty_world) as H3
    by (split_and!; reflexivity).
  destruct (claim Toy.toy_platform _ _ _ _ _ _ _ H1 H2 H3
              (LoadErrors.load_config_missing_secret _ _ H1)
              (LoadErrors.load_config_salt_missing _ _ H2)
              (LoadErrors.load_config_not_found _ _ H3)) as [Hne _].
  by apply Hne.
Qed.

(** C2, amended: every failure of [load_config] reaches the caller as the
    one exception class [ConfigError]; the three failures differ in their
    message only.  With [path.enc] present and [CONFIG_PASSWORD] unset or
    empty the message ends in "CONFIG_PASSWORD environment variable not set";
    with [path.enc] present, the password set and [path.salt] absent it ends
    in "Salt file not found"; with neither [path.enc] nor [path] present it
    ends in the operating system's "No such file or directory" text. *)
Theorem load_config_failures (P : Platform) (path : string) (w : world) :
  (forall e, (ConfigUtils.load_config (Some path) w).1 = Raise e ->
             exc_type e = ConfigError) /\
  (Situation.vault_without_secret path w ->
   (ConfigUtils.load_config (Some path) w).1
   = Raise Situation.missing_secret_error) /\
  (Situation.token_without_salt path w ->
   (ConfigUtils.load_config (Some path) w).1
   = Raise Situation.salt_missing_error) /\
  (Situation.nothing_stored path w ->
   (ConfigUtils.load_config (Some path) w).1
   = Raise (Situation.not_found_error path)) /\
  exc_str Situation.missing_secret_error
    <> exc_str Situation.salt_missing_error /\
  exc_str Situation.missing_secret_error
    <> exc_str (Situation.not_found_error path) /\
  exc_str Situation.salt_missing_error
    <> exc_str (Situation.not_found_error path).
Proof.
  split; [apply LoadErrors.load_config_raises_ConfigError|].
  split; [apply LoadErrors.load_config_missing_secret|].
  split; [apply LoadErrors.load_config_salt_missing|].
  split; [apply LoadErrors.load_config_not_found|].
  apply LoadErrors.messages_differ.
Qed.

(** ** C3: key derivation *)

(** C3, as stated, fails: the empty password is derived from like any
    other. *)
Lemma derive_key_accepts_empty_password :
  ~ (forall (P : Platform) (password : string) (salt : option bytes) (w : world),
        ((exists e, (SecureDataUtils.derive_key password salt w).1 = Raise e)
         <-> password = EmptyString) /\
        (password <> EmptyString ->
         exists key salt',
           (SecureDataUtils.derive_key password salt w).1 = Ok (key, salt') /\
           length key = 32 /\ length salt' = 16)).
Proof.
  intros claim.
  destruct (claim Toy.toy_platform EmptyString (Some Toy.sample_salt)
              Toy.empty_world) as [[_ Hfails] _].
  destruct (Hfails eq_refl) as [e He]. vm_compute in He. discriminate.
Qed.

(** C3, amended: [derive_key] and [generate_key] never fail, whatever the
    password, the empty one included.  They return the URL-safe base64 text
    of the 32 derived bytes, which is 44 bytes long, and the salt: the given
    one unchanged, of whatever length, or 16 fresh bytes when none is
    given. *)
Theorem derive_key_total (P : Platform) (password : string)
    (salt : option bytes) (w : world) :
  PlatformLaws P ->
  let salt' := match salt with Some s => s | None => peek_urandom 16 w end in
  let key :=
    Base64.urlsafe_b64encode
      (pbkdf2_hmac_sha256 (Utf8.encode password) salt' 100000%N 32) in
  (SecureDataUtils.derive_key password salt w).1 = Ok (key, salt') /\
  (ConfigUtils.generate_key password salt w).1 = Ok (key, salt') /\
  length key = 44 /\
  (salt = None -> length salt' = 16).
Proof.
  intros laws salt' key. split_and!.
  - by destruct salt.
  - by destruct salt.
  - apply DeriveFacts.b64encode_length_32, pbkdf2_length.
  - intros ->. apply DeriveFacts.peek_urandom_length.
Qed.

Lemma derive_key_total_witness :
  exists key,
    (SecureDataUtils.derive_key (P:=Toy.toy_platform) EmptyString None
       Toy.empty_world).1
    = Ok (key, peek_urandom 16 Toy.empty_world) /\ length key = 44.
Proof.
  destruct (derive_key_total Toy.toy_platform EmptyString None Toy.empty_world
              ToyFacts.toy_laws) as (H1 & _ & H3 & _).
  eexists. split; [exact H1|exact H3].
Defined.

(** ** VaultStore: the order of the writes of a save *)

Module SaveFacts.
Import WorldFacts.

(** Settle a lookup in a file system built by inserts and deletes. *)
Ltac fs_lookup :=
  repeat first
    [ rewrite lookup_insert_eq
    | rewrite lookup_insert_ne by congruence
    | rewrite lookup_delete_ne by congruence
    | rewrite lookup_delete_eq ].

(** Case analysis on the index of an event in an explicit list: at each
    position the event is not the one looked for, or the salt was written at
    position 2 or 4 before it. *)
Ltac index_cases i Hi :=
  cbn [lookup list_lookup] in Hi;
  lazymatch type of Hi with
  | None = _ => discriminate Hi
  | [] !! _ = _ => first [ discriminate Hi | by destruct i ]
  | (_ :: _) !! _ = _ =>
      destruct i as [|i];
      [ cbn [lookup list_lookup] in Hi;
        first [ congruence
              | exists 2; split; [lia|reflexivity]
              | exists 4; split; [lia|reflexivity] ]
      | index_cases i Hi ]
  end.

(** Settle [salt_before_token] between two explicit worlds. *)
Ltac order_leaf :=
  unfold salt_before_token; split;
  [ wsimpl; intros Hne; first [ by fs_lookup | exfalso; apply Hne; by fs_lookup ]
  | trace_norm; intros i Hi; index_cases i Hi ].

Section Save.
Context {P : Platform}.

Lemma save_config_order config (path password : string) w :
  salt_before_token w
    (ConfigUtils.save_config config (Some path) (Some password) w).2
    (path +:+ ".salt") (path +:+ ".enc") (peek_urandom 16 w).
Proof.
  change (wp (ConfigUtils.save_config config (Some path) (Some password)) w
            (fun _ w' =>
               salt_before_token w w' (path +:+ ".salt") (path +:+ ".enc")
                 (peek_urandom 16 w))).
  unfold ConfigUtils.save_config, ConfigUtils.generate_key,
    ConfigUtils.encrypt_config.
  destruct w as [fsv envv ent pos clk fl tr]. wsimpl.
  pose proof (app_ne_self path ".enc" ltac:(done)).
  pose proof (app_ne_self path ".salt" ltac:(done)).
  pose proof (enc_ne_salt path).
  wp_run; order_leaf.
Qed.

Lemma secure_save_order data (filepath password : string) w :
  salt_before_token w
    (SecureDataUtils.secure_save data filepath password w).2
    (filepath +:+ ".salt") filepath (peek_urandom 16 w).
Proof.
  change (wp (SecureDataUtils.secure_save data filepath password) w
            (fun _ w' =>
               salt_before_token w w' (filepath +:+ ".salt") filepath
                 (peek_urandom 16 w))).
  unfold SecureDataUtils.secure_save, SecureDataUtils.derive_key,
    SecureDataUtils.encrypt_data.
  destruct w as [fsv envv ent pos clk fl tr]. wsimpl.
  pose proof (app_ne_self filepath ".salt" ltac:(done)).
  wp_run; order_leaf.
Qed.

(** A successful encrypted [save_config]: the files it leaves and the
    effects it had, in order. *)
Lemma save_config_success config (path password : string) w :
  password <> EmptyString ->
  (ConfigUtils.save_config config (Some path) (Some password) w).1 = Ok tt ->
  exists f,
    fernet_key (derived_key password (save_salt w)) = Some f /\
    let token := save_token f config w in
    let w' := (ConfigUtils.save_config config (Some path) (Some password) w).2 in
    fs w' !! path = None /\
    fs w' !! (path +:+ ".salt") = Some (save_salt w) /\
    fs w' !! (path +:+ ".enc") = Some token /\
    events_since w w'
    = [ EvUrandom 16;
        EvOpenWrite (path +:+ ".salt"); EvWrite (path +:+ ".salt") (save_salt w);
        EvTime; EvUrandom 16;
        EvOpenWrite (path +:+ ".enc"); EvWrite (path +:+ ".enc") token;
        EvExists path ]
      ++ (if bool_decide (is_Some (fs w !! path)) then [EvRemove path] else []).
Proof.
  intros Hpw%String.eqb_neq.
  change (wp (ConfigUtils.save_config config (Some path) (Some password)) w
    (fun r w' =>
       r = Ok tt ->
       exists f,
         fernet_key (derived_key password (save_salt w)) = Some f /\
         let token := save_token f config w in
         fs w' !! path = None /\
         fs w' !! (path +:+ ".salt") = Some (save_salt w) /\
         fs w' !! (path +:+ ".enc") = Some token /\
         events_since w w'
         = [ EvUrandom 16;
             EvOpenWrite (path +:+ ".salt");
             EvWrite (path +:+ ".salt") (save_salt w);
             EvTime; EvUrandom 16;
             EvOpenWrite (path +:+ ".enc"); EvWrite (path +:+ ".enc") token;
             EvExists path ]
           ++ (if bool_decide (is_Some (fs w !! path))
               then [EvRemove path] else []))).
  unfold ConfigUtils.save_config, ConfigUtils.generate_key,
    ConfigUtils.encrypt_config, derived_key, save_token, save_salt, save_iv.
  destruct w as [fsv envv ent pos clk fl tr]. wsimpl.
  unfold falsy. rewrite Hpw. wsimpl.
  pose proof (app_ne_self path ".enc" ltac:(done)).
  pose proof (app_ne_self path ".salt" ltac:(done)).
  pose proof (enc_ne_salt path).
  wp_run; intros Hok; try discriminate Hok.
  all: rewrite !lookup_insert_ne in * by congruence.
  all: eexists; split; [reflexivity|]; cbv zeta.
  - rewrite Heqb.
    split_and!; [by fs_lookup..|]. by trace_norm.
  - rewrite Heqb. apply bool_decide_eq_false in Heqb.
    split_and!; [|by fs_lookup..|by trace_norm].
    fs_lookup. destruct (fsv !! path) eqn:E; [|done].
    exfalso. apply Heqb. by eexists.
Qed.

(** A successful [secure_save]: the token replaces whatever was at
    [filepath]. *)
Lemma secure_save_success data (filepath password : string) w :
  (SecureDataUtils.secure_save data filepath password w).1 = Ok tt ->
  exists f,
    fernet_key (derived_key password (save_salt w)) = Some f /\
    let token := save_token f data w in
    let w' := (SecureDataUtils.secure_save data filepath password w).2 in
    fs w' !! filepath = Some token /\
    fs w' !! (filepath +:+ ".salt") = Some (save_salt w) /\
    events_since w w'
    = [ EvUrandom 16; EvTime; EvUrandom 16;
        EvOpenWrite (filepath +:+ ".salt");
        EvWrite (filepath +:+ ".salt") (save_salt w);
        EvOpenWrite filepath; EvWrite filepath token ].
Proof.
  change (wp (SecureDataUtils.secure_save data filepath password) w
    (fun r w' =>
       r = Ok tt ->
       exists f,
         fernet_key (derived_key password (save_salt w)) = Some f /\
         let token := save_token f data w in
         fs w' !! filepath = Some token /\
         fs w' !! (filepath +:+ ".salt") = Some (save_salt w) /\
         events_since w w'
         = [ EvUrandom 16; EvTime; EvUrandom 16;
             EvOpenWrite (filepath +:+ ".salt");
             EvWrite (filepath +:+ ".salt") (save_salt w);
             EvOpenWrite filepath; EvWrite filepath token ])).
  unfold SecureDataUtils.secure_save, SecureDataUtils.derive_key,
    SecureDataUtils.encrypt_data, derived_key, save_token, save_salt, save_iv.
  destruct w as [fsv envv ent pos clk fl tr]. wsimpl.
  pose proof (app_ne_self filepath ".salt" ltac:(done)).
  wp_run; intros Hok; try discriminate Hok.
  eexists; split; [reflexivity|]; cbv zeta.
  split_and!; [by fs_lookup..|by trace_norm].
Qed.

End Save.
End SaveFacts.

(** ** C5: the salt is written before the token *)

(** C5. In every run of a save, whatever the file system refuses or cuts
    short, the salt file is written before the token file: when the run ends
    (normally or in an exception) with the token file touched at all, the
    salt file holds the salt of this very save, and in the trace the opening
    of the token file comes after the write of the salt.  This holds for
    [save_config] (token at [path.enc]) and for [secure_save] (token at
    [path]). *)
Theorem save_writes_salt_before_token (P : Platform) (data : value)
    (path password : string) (w : world) :
  salt_before_token w
    (ConfigUtils.save_config data (Some path) (Some password) w).2
    (path +:+ ".salt") (path +:+ ".enc") (save_salt w)
  /\
  salt_before_token w
    (SecureDataUtils.secure_save data path password w).2
    (path +:+ ".salt") path (save_salt w).
Proof.
  split.
  - apply SaveFacts.save_config_order.
  - apply SaveFacts.secure_save_order.
Qed.

(** ** C6: no plaintext is left behind *)

(** C6. A [save_config] with a non-empty password that returns normally has
    written the salt to [path.salt], then the token to [path.enc], and last
    removed the file at [path] when there was one: afterwards no file exists
    at [path].  A [secure_save] that returns normally has replaced whatever
    was at [path] by the token. *)
Theorem encrypted_save_leaves_no_plaintext (P : Platform) (data : value)
    (path password : string) (w : world) :
  password <> EmptyString ->
  ((ConfigUtils.save_config data (Some path) (Some password) w).1 = Ok tt ->
   exists f,
     fernet_key (derived_key password (save_salt w)) = Some f /\
     let token := save_token f data w in
     let w' := (ConfigUtils.save_config data (Some path) (Some password) w).2 in
     fs w' !! path = None /\
     fs w' !! (path +:+ ".salt") = Some (save_salt w) /\
     fs w' !! (path +:+ ".enc") = Some token /\
     events_since w w'
     = [ EvUrandom 16;
         EvOpenWrite (path +:+ ".salt"); EvWrite (path +:+ ".salt") (save_salt w);
         EvTime; EvUrandom 16;
         EvOpenWrite (path +:+ ".enc"); EvWrite (path +:+ ".enc") token;
         EvExists path ]
       ++ (if bool_decide (is_Some (fs w !! path)) then [EvRemove path] else []))
  /\
  ((SecureDataUtils.secure_save data path password w).1 = Ok tt ->
   exists f,
     fernet_key (derived_key password (save_salt w)) = Some f /\
     fs (SecureDataUtils.secure_save data path password w).2 !! path
     = Some (save_token f data w)).
Proof.
  intros Hpw. split.
  - by apply SaveFacts.save_config_success.
  - intros Hok.
    destruct (SaveFacts.secure_save_success data path password w Hok)
      as (f & Hf & Hfile & _).
    by exists f.
Qed.

Lemma encrypted_save_leaves_no_plaintext_witness :
  is_Some (fs Toy.world_plaintext !! "config/config.json") /\
  fs (ConfigUtils.save_config (P:=Toy.toy_platform) Toy.sample_config
        (Some "config/config.json") (Some "pw") Toy.world_plaintext).2
    !! "config/config.json" = None.
Proof.
  split; [vm_compute; eauto|].
  destruct (encrypted_save_leaves_no_plaintext Toy.toy_platform
              Toy.sample_config "config/config.json" "pw" Toy.world_plaintext)
    as [Hsave _]; [done|].
  destruct Hsave as (f & _ & Hgone & _); [by vm_compute|].
  exact Hgone.
Defined.

(** ** IntegrityVerifier: the canonical text does not depend on key order *)

Module CanonicalFacts.
Import RedactorFacts.

Global Instance key_le_trans : Transitive Json.key_le.
Proof. intros a b c. unfold Json.key_le. apply transitivity. Qed.

Global Instance key_le_total : Total Json.key_le.
Proof. intros a b. unfold Json.key_le. apply total, _. Qed.

Lemma dict_get_elem key v (d : pydict) :
  Dict.get key d = Some v -> (key, v) ∈ d.
Proof.
  induction d as [|[k x] d IH]; simpl; [done|].
  destruct (String.eqb_spec key k) as [->|].
  - intros [= ->]. left.
  - intros H. right. auto.
Qed.

Lemma elem_of_fst {B} (l : list (string * B)) k x : (k, x) ∈ l -> k ∈ l.*1.
Proof. intros H. apply list_elem_of_fmap. by exists (k, x). Qed.

Lemma NoDup_fst_agree {B} (l : list (string * B)) k a b :
  NoDup l.*1 -> (k, a) ∈ l -> (k, b) ∈ l -> a = b.
Proof.
  induction l as [|[k' x] l IH]; simpl; intros Hnd Ha Hb.
  - by apply elem_of_nil in Ha.
  - apply NoDup_cons in Hnd as [Hk Hnd].
    apply elem_of_cons in Ha as [Ha|Ha]; apply elem_of_cons in Hb as [Hb|Hb].
    + congruence.
    + injection Ha as <- <-. by apply elem_of_fst in Hb.
    + injection Hb as <- <-. by apply elem_of_fst in Ha.
    + eauto.
Qed.

(** Sorting two arrangements of the same entries gives the same list. *)
Lemma sorted_perm_eq (r1 r2 : list (string * string)) :
  NoDup r1.*1 -> r1 ≡ₚ r2 -> Json.sorted r1 = Json.sorted r2.
Proof.
  intros Hnd Hperm. unfold Json.sorted.
  apply (StronglySorted_unique_strong Json.key_le).
  - intros [k1 t1] [k2 t2] H1 H2 Hle Hge.
    rewrite merge_sort_Permutation in H1, H2. rewrite <- Hperm in H2.
    assert (k1 = k2) as <- by (by apply (anti_symm String.le)).
    f_equal. by eapply NoDup_fst_agree.
  - apply StronglySorted_merge_sort; apply _.
  - apply StronglySorted_merge_sort; apply _.
  - by rewrite !merge_sort_Permutation.
Qed.

Section Render.
Context (f g : value -> string).

Lemma render_fst h (d : pydict) : (map (Json.render h) d).*1 = d.*1.
Proof. induction d as [|[k x] d IH]; [done|]. cbn. f_equal. apply IH. Qed.

(** Entries that agree, whatever their order, render to arrangements of the
    same pairs. *)
Lemma render_perm (d1 d2 : pydict) :
  NoDup d1.*1 -> NoDup d2.*1 ->
  length d1 = length d2 ->
  (forall k x, (k, x) ∈ d1 -> exists y, (k, y) ∈ d2 /\ f x = g y) ->
  map (Json.render f) d1 ≡ₚ map (Json.render g) d2.
Proof.
  intros Hnd1 Hnd2 Hlen Hagree.
  apply submseteq_length_Permutation; [|by rewrite !length_map, Hlen].
  apply NoDup_submseteq.
  - apply (NoDup_fmap_1 fst). by rewrite render_fst.
  - intros [k t] Hin. apply list_elem_of_fmap in Hin.
    destruct Hin as ([k' x] & Heq & Hin).
    simpl in Heq. injection Heq as Hk Ht. subst k t.
    destruct (Hagree _ _ Hin) as (y & Hy & Hfg).
    apply list_elem_of_fmap. exists (k', y). simpl. by rewrite Hfg.
Qed.

End Render.

Lemma same_mapping_list_length (l1 l2 : list value) :
  same_mapping (VList l1) (VList l2) = true ->
  Forall2 (fun x y => same_mapping x y = true) l1 l2.
Proof.
  revert l2. induction l1 as [|x l1 IH]; intros [|y l2] H; try done.
  simpl in H. apply andb_true_iff in H as [Hxy H].
  constructor; [done|]. by apply IH.
Qed.

Lemma same_mapping_dict (d1 d2 : pydict) :
  same_mapping (VDict d1) (VDict d2) = true ->
  length d1 = length d2 /\
  forall k x, (k, x) ∈ d1 ->
              exists y, (k, y) ∈ d2 /\ same_mapping x y = true.
Proof.
  simpl. intros [Hlen Hall]%andb_true_iff. split; [by apply Nat.eqb_eq|].
  intros k x Hin. rewrite forallb_forall in Hall.
  assert (In (k, x) d1) as Hin' by (by apply list_elem_of_In).
  specialize (Hall (k, x) Hin'). simpl in Hall.
  destruct (Dict.get k d2) as [y|] eqn:Hget; [|done].
  exists y. split; [by apply dict_get_elem|done].
Qed.

Lemma dumps_at_dict sort_keys indent level (items : pydict) :
  Json.dumps_at sort_keys indent level (VDict items)
  = let rendered :=
      map (Json.render (Json.dumps_at sort_keys indent (S level))) items in
    Json.bracket "{" "}" indent level
      (map (fun kr : string * string =>
              Json.encode_basestring_ascii kr.1 +:+ ": " +:+ kr.2)
           (if sort_keys then Json.sorted rendered else rendered)).
Proof. reflexivity. Qed.

Lemma dumps_at_list sort_keys indent level (items : list value) :
  Json.dumps_at sort_keys indent level (VList items)
  = Json.bracket "[" "]" indent level
      (map (Json.dumps_at sort_keys indent (S level)) items).
Proof. reflexivity. Qed.

(** The text with sorted keys is the same for the same mapping. *)
Lemma dumps_sorted_same_mapping indent (a : value) :
  wf_value a ->
  forall b, wf_value b -> same_mapping a b = true ->
  forall level,
    Json.dumps_at true indent level a = Json.dumps_at true indent level b.
Proof.
  induction a as [|x|x|x|l1 IH|d1 IH] using value_ind;
    intros Hwa b Hwb Hsame level; destruct b as [|y|y|y|l2|d2]; try done.
  - simpl in Hsame. by apply Bool.eqb_prop in Hsame as ->.
  - simpl in Hsame. by apply Z.eqb_eq in Hsame as ->.
  - simpl in Hsame. by apply String.eqb_eq in Hsame as ->.
  - apply same_mapping_list_length in Hsame.
    apply wf_list_Forall in Hwa, Hwb.
    rewrite !dumps_at_list. f_equal.
    revert Hwa Hwb IH. generalize (S level) as lv.
    induction Hsame as [|x y l1 l2 Hxy _ IHl]; intros lv Hwa Hwb IH; [done|].
    apply Forall_cons in Hwa as [Hx Hwa]. apply Forall_cons in Hwb as [Hy Hwb].
    apply Forall_cons in IH as [IHx IH].
    simpl. f_equal; [by apply IHx|by apply IHl].
  - apply same_mapping_dict in Hsame as [Hlen Hsame].
    apply wf_dict_Forall in Hwa as [Hnd1 Hwa].
    apply wf_dict_Forall in Hwb as [Hnd2 Hwb].
    rewrite !dumps_at_dict. cbv zeta.
    enough (Json.sorted (map (Json.render (Json.dumps_at true indent (S level))) d1)
            = Json.sorted (map (Json.render (Json.dumps_at true indent (S level))) d2))
      as -> by done.
    apply sorted_perm_eq; [by rewrite render_fst|].
    apply render_perm; [done..|].
    intros k x Hin. destruct (Hsame k x Hin) as (y & Hy & Hxy).
    exists y. split; [done|].
    rewrite Forall_forall in IH, Hwa, Hwb.
    apply (IH (k, x) Hin); [apply (Hwa (k, x) Hin)|apply (Hwb (k, y) Hy)|done].
Qed.

End CanonicalFacts.

(** ** C7: the signature does not depend on the order of insertion *)

(** C7. The digest is computed over [json.dumps(data, sort_keys=True)]: two
    payload mappings that hold the same values under the same keys (at every
    level), their keys inserted in whatever order, get the same text, hence
    the same HMAC signature, and [verify_data_integrity] gives the same
    answer for both on every signature, in every world. *)
Theorem signature_independent_of_key_order (P : Platform)
    (data1 data2 : pydict) (secret_key signature : string) (w : world) :
  wf_dict data1 -> wf_dict data2 ->
  same_mapping (VDict data1) (VDict data2) = true ->
  Json.dumps_sorted (VDict data1) = Json.dumps_sorted (VDict data2) /\
  SecureDataUtils.calculated_signature secret_key (VDict data1)
  = SecureDataUtils.calculated_signature secret_key (VDict data2) /\
  SecureDataUtils.verify_data_integrity (VDict data1) signature w
  = SecureDataUtils.verify_data_integrity (VDict data2) signature w.
Proof.
  intros Hw1 Hw2 Hsame.
  assert (Json.dumps_sorted (VDict data1) = Json.dumps_sorted (VDict data2))
    as Htext by (by apply CanonicalFacts.dumps_sorted_same_mapping).
  split; [done|].
  unfold SecureDataUtils.verify_data_integrity,
    SecureDataUtils.calculated_signature.
  by rewrite Htext.
Qed.

Lemma signature_independent_of_key_order_witness :
  Toy.payload_ab <> Toy.payload_ba /\
  SecureDataUtils.calculated_signature (P:=Toy.toy_platform) "integrity-secret"
    (VDict Toy.payload_ab)
  = SecureDataUtils.calculated_signature (P:=Toy.toy_platform) "integrity-secret"
      (VDict Toy.payload_ba).
Proof.
  split; [discriminate|].
  apply (signature_independent_of_key_order Toy.toy_platform
           Toy.payload_ab Toy.payload_ba "integrity-secret" EmptyString
           Toy.world_integrity_key); reflexivity.
Defined.

(** ** [json.loads] reads back what [json.dumps] wrote *)

Module JsonRoundTrip.
Import JsonDecoder JsonText StrFacts.

Lemma utf8_char (c : ascii) (rest : bytes) :
  Utf8.decode_list (Utf8.encode_char c ++ rest)
  = cons c <$> Utf8.decode_list rest.
Proof. destruct c as [[] [] [] [] [] [] [] []]; reflexivity. Qed.

Lemma utf8_roundtrip (s : string) : Utf8.decode (Utf8.encode s) = Some s.
Proof.
  unfold Utf8.decode, Utf8.encode.
  enough (Utf8.decode_list (flat_map Utf8.encode_char (Str.to_list s))
          = Some (Str.to_list s)) as -> by (simpl; by rewrite of_to_list).
  induction (Str.to_list s) as [|c l IH]; [done|].
  cbn [flat_map]. rewrite utf8_char, IH. done.
Qed.

(** *** Strings *)

Lemma scanstring_escape (c : ascii) (tail : list ascii) :
  scanstring (Str.to_list (Json.escape_char c) ++ tail)
  = prod_map (cons c) id <$> scanstring tail.
Proof. destruct c as [[] [] [] [] [] [] [] []]; reflexivity. Qed.

Lemma to_list_concat_empty (l : list string) :
  Str.to_list (String.concat EmptyString l) = concat (map Str.to_list l).
Proof.
  induction l as [|x [|y l] IH]; [done| |].
  - simpl. by rewrite app_nil_r.
  - change (String.concat EmptyString (x :: y :: l))
      with (x +:+ EmptyString +:+ String.concat EmptyString (y :: l)).
    rewrite !to_list_app, IH. done.
Qed.

Lemma to_list_encode (s : string) :
  Str.to_list (Json.encode_basestring_ascii s)
  = "034"%char :: escaped s ++ ["034"%char].
Proof.
  unfold Json.encode_basestring_ascii, escaped.
  rewrite !to_list_app, to_list_concat_empty, map_map. done.
Qed.

Lemma scanstring_escaped (s : string) (rest : list ascii) :
  scanstring (escaped s ++ "034"%char :: rest) = Some (Str.to_list s, rest).
Proof.
  unfold escaped. induction (Str.to_list s) as [|c l IH]; [done|].
  cbn [map concat]. rewrite <- app_assoc, scanstring_escape, IH. done.
Qed.

(** *** Integers *)

Lemma span_digits_tail (rest : list ascii) :
  tail_ok rest = true -> span_digits rest = ([], rest).
Proof.
  destruct rest as [|c rest]; [done|]. unfold tail_ok. simpl.
  destruct (is_digit c); [done|]. done.
Qed.

Lemma span_digits_uint (d : Decimal.uint) (rest : list ascii) :
  tail_ok rest = true ->
  span_digits (Str.to_list (NilEmpty.string_of_uint d) ++ rest)
  = (Str.to_list (NilEmpty.string_of_uint d), rest).
Proof.
  intros Hrest. induction d; simpl; rewrite ?IHd; try done.
  by apply span_digits_tail.
Qed.

Lemma to_uint_no_leading_zero (p : positive) (d' : Decimal.uint) :
  Pos.to_uint p <> Decimal.D0 d'.
Proof.
  intros H.
  assert (Decimal.unorm (Pos.to_uint p) = Pos.to_uint p) as Hnorm.
  { rewrite <- DecimalPos.Unsigned.to_of, DecimalPos.Unsigned.of_to. done. }
  rewrite H, DecimalFacts.unorm_D0 in Hnorm.
  unfold Decimal.unorm in Hnorm.
  destruct (Decimal.nzhead d') eqn:Hd'; try done.
  - injection Hnorm as <-.
    by apply (DecimalPos.Unsigned.to_uint_nonzero p).
  - by apply (DecimalFacts.nzhead_nonzero d' u).
Qed.

Lemma digit_not_minus (c : ascii) :
  is_digit c = true -> (nat_of_ascii c =? 45) = false.
Proof.
  unfold is_digit. intros [H1 H2]%andb_true_iff.
  apply Nat.leb_le in H1. apply Nat.eqb_neq. lia.
Qed.

(** [scan_number] on a sign, a run of digits and a tail. *)
Lemma scan_number_parts (negative : bool) (c : ascii) (ds rest : list ascii)
    (d : Decimal.int) :
  is_digit c = true ->
  span_digits (c :: ds ++ rest) = (c :: ds, rest) ->
  match ds with [] => false | _ :: _ => nat_of_ascii c =? 48 end = false ->
  tail_ok rest = true ->
  NilZero.int_of_string
    (Str.of_list ((if negative then ["-"%char] else []) ++ c :: ds)) = Some d ->
  scan_number ((if negative then ["-"%char] else []) ++ c :: ds ++ rest)
  = Some (Z.of_int d, rest).
Proof.
  intros Hc Hspan Hzero Hrest Hparse.
  assert (match rest with
          | [] => false
          | c0 :: _ =>
              (nat_of_ascii c0 =? 46) || (nat_of_ascii c0 =? 101)
              || (nat_of_ascii c0 =? 69)
          end = false) as Hfloat.
  { destruct rest as [|c' rest]; [done|]. unfold tail_ok in Hrest.
    apply negb_true_iff in Hrest.
    repeat (apply orb_false_iff in Hrest as [Hrest ?]).
    by repeat (apply orb_false_iff; split). }
  unfold scan_number. destruct negative.
  - change (["-"%char] ++ c :: ds ++ rest) with ("-"%char :: c :: ds ++ rest).
    cbv iota. change (nat_of_ascii "-" =? 45) with true. cbv iota beta zeta.
    rewrite Hspan. cbv iota beta zeta. rewrite Hfloat.
    destruct ds; rewrite ?Hzero; cbn [orb]; by rewrite Hparse.
  - change ([] ++ c :: ds ++ rest) with (c :: ds ++ rest).
    cbv iota. rewrite (digit_not_minus c Hc). cbv iota beta zeta.
    rewrite Hspan. cbv iota beta zeta. rewrite Hfloat.
    destruct ds; rewrite ?Hzero; cbn [orb]; by rewrite Hparse.
Qed.

Lemma scan_number_uint (negative : bool) (d : Decimal.uint) (rest : list ascii) :
  d <> Decimal.Nil ->
  (forall d', d = Decimal.D0 d' -> d' = Decimal.Nil) ->
  tail_ok rest = true ->
  scan_number
    ((if negative then ["-"%char] else [])
     ++ Str.to_list (NilEmpty.string_of_uint d) ++ rest)
  = Some (Z.of_int (if negative then Decimal.Neg d else Decimal.Pos d), rest).
Proof.
  intros Hnil Hzero Hrest.
  assert (NilZero.int_of_string
            (Str.of_list ((if negative then ["-"%char] else [])
                          ++ Str.to_list (NilEmpty.string_of_uint d)))
          = Some (if negative then Decimal.Neg d else Decimal.Pos d)) as Hparse.
  { rewrite <- (NilZero.isi (if negative then Decimal.Neg d else Decimal.Pos d))
      by (by destruct negative; intros [= ->]).
    f_equal. destruct negative; simpl; rewrite of_to_list; by destruct d. }
  pose proof (span_digits_uint d rest Hrest) as Hspan.
  destruct d as [|d|d|d|d|d|d|d|d|d|d]; [done|..];
    cbn [NilEmpty.string_of_uint Str.to_list] in *;
    (apply scan_number_parts; [done|done| |done|done]).
  - rewrite (Hzero d eq_refl). done.
  - by destruct (Str.to_list _).
  - by destruct (Str.to_list _).
  - by destruct (Str.to_list _).
  - by destruct (Str.to_list _).
  - by destruct (Str.to_list _).
  - by destruct (Str.to_list _).
  - by destruct (Str.to_list _).
  - by destruct (Str.to_list _).
  - by destruct (Str.to_list _).
Qed.

Lemma scan_number_repr (z : Z) (rest : list ascii) :
  tail_ok rest = true ->
  scan_number (Str.to_list (Json.int_repr z) ++ rest) = Some (z, rest).
Proof.
  intros Hrest. unfold Json.int_repr.
  rewrite <- (DecimalZ.of_to z) at 2.
  destruct z as [|p|p]; cbn [Z.to_int NilZero.string_of_int].
  - apply (scan_number_uint false (Decimal.D0 Decimal.Nil)); [done| |done].
    by intros ? [= <-].
  - pose proof (DecimalPos.Unsigned.to_uint_nonnil p).
    replace (NilZero.string_of_uint (Pos.to_uint p))
      with (NilEmpty.string_of_uint (Pos.to_uint p))
      by (by destruct (Pos.to_uint p)).
    apply (scan_number_uint false); [done| |done].
    intros d' Hd'. by apply to_uint_no_leading_zero in Hd'.
  - pose proof (DecimalPos.Unsigned.to_uint_nonnil p).
    replace (NilZero.string_of_uint (Pos.to_uint p))
      with (NilEmpty.string_of_uint (Pos.to_uint p))
      by (by destruct (Pos.to_uint p)).
    apply (scan_number_uint true); [done| |done].
    intros d' Hd'. by apply to_uint_no_leading_zero in Hd'.
Qed.

(** *** The shape of the text *)

Lemma to_list_concat (sep : string) (l : list string) :
  Str.to_list (String.concat sep l) = join (Str.to_list sep) (map Str.to_list l).
Proof.
  induction l as [|x [|y l] IH]; [done|done|].
  change (String.concat sep (x :: y :: l))
    with (x +:+ sep +:+ String.concat sep (y :: l)).
  rewrite !to_list_app, IH. done.
Qed.

Lemma to_list_bracket (opening closing : string) level (x : string) (l : list string) :
  Str.to_list (Json.bracket opening closing None level (x :: l))
  = Str.to_list opening
    ++ join comma_space (map Str.to_list (x :: l)) ++ Str.to_list closing.
Proof.
  unfold Json.bracket, Json.newline_indent, Json.item_separator.
  rewrite !to_list_app, to_list_concat. done.
Qed.

Lemma ser_list_cons level x (l : list value) :
  ser level (VList (x :: l))
  = "["%char :: join comma_space (map (ser (S level)) (x :: l)) ++ ["]"%char].
Proof.
  unfold ser. rewrite CanonicalFacts.dumps_at_list.
  cbn [map]. rewrite to_list_bracket. cbn [map]. rewrite map_map. done.
Qed.

Lemma ser_dict_cons level kv (d : pydict) :
  ser level (VDict (kv :: d))
  = "{"%char
    :: join comma_space (map (ser_member (S level)) (kv :: d)) ++ ["}"%char].
Proof.
  unfold ser. rewrite CanonicalFacts.dumps_at_dict. cbv zeta.
  cbn [map]. rewrite to_list_bracket. cbn [map]. rewrite !map_map.
  change (Str.to_list "{") with ["{"%char]. cbn [app].
  assert (forall x : string * value,
             Str.to_list
               (Json.encode_basestring_ascii
                  (Json.render (Json.dumps_at false None (S level)) x).1
                +:+ ": "
                +:+ (Json.render (Json.dumps_at false None (S level)) x).2)
             = ser_member (S level) x) as Hmember.
  { intros [k x]. unfold ser_member, ser. cbn [Json.render fst snd].
    by rewrite !to_list_app. }
  rewrite Hmember. do 4 f_equal.
  apply map_ext. intros x. apply Hmember.
Qed.

Lemma ser_member_eq level k x :
  ser_member level (k, x)
  = "034"%char :: escaped k
    ++ "034"%char :: ":"%char :: " "%char :: ser level x.
Proof.
  unfold ser_member. cbn [fst snd]. rewrite to_list_encode.
  cbn [app]. by rewrite <- app_assoc.
Qed.

(** *** How a value begins *)

Lemma value_start_facts (c : ascii) :
  value_start c = true ->
  is_ws c = false /\
  (nat_of_ascii c =? 93) = false /\ (nat_of_ascii c =? 125) = false.
Proof.
  destruct c as [[] [] [] [] [] [] [] []]; vm_compute;
    intros H; first [discriminate H | done].
Qed.

Lemma skip_ws_start (c : ascii) (tl : list ascii) :
  value_start c = true -> skip_ws (c :: tl) = c :: tl.
Proof.
  intros Hc. apply value_start_facts in Hc as (Hws & _). simpl. by rewrite Hws.
Qed.

Lemma number_start (c : ascii) :
  (is_digit c || (nat_of_ascii c =? 45)) = true -> value_start c = true.
Proof.
  unfold value_start. intros [H|H]%orb_true_iff; rewrite H;
    by rewrite ?orb_true_r.
Qed.

Lemma int_repr_start (z : Z) :
  exists c tl,
    Str.to_list (Json.int_repr z) = c :: tl /\
    (is_digit c || (nat_of_ascii c =? 45)) = true.
Proof.
  unfold Json.int_repr.
  destruct z as [|p|p]; cbn [Z.to_int NilZero.string_of_int].
  - by eexists _, _.
  - destruct (Pos.to_uint p); by eexists _, _.
  - by eexists _, _.
Qed.

Lemma ser_start level (v : value) :
  exists c tl, ser level v = c :: tl /\ value_start c = true.
Proof.
  destruct v as [|[]|z|s|[|x l]|[|kv d]]; try (by eexists _, _).
  destruct (int_repr_start z) as (c & tl & Heq & Hc).
  exists c, tl. split; [done|]. by apply number_start.
Qed.

Lemma skip_ws_ser level v (rest : list ascii) :
  skip_ws (ser level v ++ rest) = ser level v ++ rest.
Proof.
  destruct (ser_start level v) as (c & tl & -> & Hc). by apply skip_ws_start.
Qed.

Lemma join_start {A} (f : A -> list ascii) (x : A) (l : list A) :
  exists tl, join comma_space (map f (x :: l)) = f x ++ tl.
Proof.
  destruct l as [|y l]; [exists []; by rewrite app_nil_r|].
  by eexists.
Qed.

(** *** One step of the scanner *)

Lemma scan_once_number (c : ascii) (tl : list ascii) (fuel : nat) :
  (is_digit c || (nat_of_ascii c =? 45)) = true ->
  scan_once (S fuel) (c :: tl)
  = '(z, rest) ← scan_number (c :: tl); Some (VInt z, rest).
Proof.
  destruct c as [[] [] [] [] [] [] [] []];
    intros H; first [discriminate H | reflexivity].
Qed.

Lemma scan_once_string (fuel : nat) (s : list ascii) :
  scan_once (S fuel) ("034"%char :: s)
  = '(str, rest) ← scanstring s; Some (VStr (Str.of_list str), rest).
Proof. reflexivity. Qed.

Lemma scan_once_list_nonempty fuel (c : ascii) (tl : list ascii) items rest :
  value_start c = true ->
  scan_elements fuel (c :: tl) = Some (items, rest) ->
  scan_once (S fuel) ("["%char :: c :: tl) = Some (VList items, rest).
Proof.
  intros (Hws & Hclose & _)%value_start_facts Hscan.
  transitivity
    (match skip_ws (c :: tl) with
     | [] => None
     | c1 :: r1 =>
         if nat_of_ascii c1 =? 93 then Some (VList [], r1)
         else '(items, rest) ← scan_elements fuel (c1 :: r1);
              Some (VList items, rest)
     end); [reflexivity|].
  cbn [skip_ws]. rewrite Hws, Hclose, Hscan. reflexivity.
Qed.

Lemma scan_once_dict_nonempty fuel (tl : list ascii) pairs rest :
  scan_members fuel ("034"%char :: tl) = Some (pairs, rest) ->
  scan_once (S fuel) ("{"%char :: "034"%char :: tl)
  = Some (VDict (dict_of_pairs pairs), rest).
Proof.
  intros Hscan.
  transitivity
    ('(pairs, rest) ← scan_members fuel ("034"%char :: tl);
     Some (VDict (dict_of_pairs pairs), rest)); [reflexivity|].
  by rewrite Hscan.
Qed.

Lemma scan_elements_last fuel (s : list ascii) x rest :
  scan_once fuel s = Some (x, "]"%char :: rest) ->
  scan_elements (S fuel) s = Some ([x], rest).
Proof.
  intros Hx.
  transitivity
    ('(v, s1) ← scan_once fuel s;
     match skip_ws s1 with
     | [] => None
     | d :: s2 =>
         if nat_of_ascii d =? 93 then Some ([v], s2)
         else if nat_of_ascii d =? 44 then
           '(more, rest) ← scan_elements fuel (skip_ws s2);
           Some (v :: more, rest)
         else None
     end); [reflexivity|].
  rewrite Hx. reflexivity.
Qed.

Lemma scan_elements_more fuel (s s2 : list ascii) x more rest :
  scan_once fuel s = Some (x, ","%char :: " "%char :: s2) ->
  scan_elements fuel (skip_ws s2) = Some (more, rest) ->
  scan_elements (S fuel) s = Some (x :: more, rest).
Proof.
  intros Hx Hmore.
  transitivity
    ('(v, s1) ← scan_once fuel s;
     match skip_ws s1 with
     | [] => None
     | d :: s2 =>
         if nat_of_ascii d =? 93 then Some ([v], s2)
         else if nat_of_ascii d =? 44 then
           '(more, rest) ← scan_elements fuel (skip_ws s2);
           Some (v :: more, rest)
         else None
     end); [reflexivity|].
  rewrite Hx.
  transitivity
    ('(more, rest) ← scan_elements fuel (skip_ws s2); Some (x :: more, rest));
    [reflexivity|].
  by rewrite Hmore.
Qed.

Lemma scan_members_value fuel (s1 s2 : list ascii) k :
  scanstring s1 = Some (k, ":"%char :: " "%char :: s2) ->
  scan_members (S fuel) ("034"%char :: s1)
  = '(v, s4) ← scan_once fuel (skip_ws s2);
    match skip_ws s4 with
    | [] => None
    | d :: s5 =>
        if nat_of_ascii d =? 125 then Some ([(Str.of_list k, v)], s5)
        else if nat_of_ascii d =? 44 then
          '(more, rest) ← scan_members fuel (skip_ws s5);
          Some ((Str.of_list k, v) :: more, rest)
        else None
    end.
Proof.
  intros Hk.
  transitivity
    ('(k, s2) ← scanstring s1;
     match skip_ws s2 with
     | [] => None
     | colon :: s3 =>
         if nat_of_ascii colon =? 58 then
           '(v, s4) ← scan_once fuel (skip_ws s3);
           match skip_ws s4 with
           | [] => None
           | d :: s5 =>
               if nat_of_ascii d =? 125 then Some ([(Str.of_list k, v)], s5)
               else if nat_of_ascii d =? 44 then
                 '(more, rest) ← scan_members fuel (skip_ws s5);
                 Some ((Str.of_list k, v) :: more, rest)
               else None
           end
         else None
     end); [reflexivity|].
  rewrite Hk. reflexivity.
Qed.

Lemma scan_members_last fuel (s1 s2 : list ascii) k x rest :
  scanstring s1 = Some (k, ":"%char :: " "%char :: s2) ->
  scan_once fuel (skip_ws s2) = Some (x, "}"%char :: rest) ->
  scan_members (S fuel) ("034"%char :: s1) = Some ([(Str.of_list k, x)], rest).
Proof.
  intros Hk Hx. rewrite (scan_members_value fuel s1 s2 k Hk), Hx. reflexivity.
Qed.

Lemma scan_members_more fuel (s1 s2 s3 : list ascii) k x more rest :
  scanstring s1 = Some (k, ":"%char :: " "%char :: s2) ->
  scan_once fuel (skip_ws s2) = Some (x, ","%char :: " "%char :: s3) ->
  scan_members fuel (skip_ws s3) = Some (more, rest) ->
  scan_members (S fuel) ("034"%char :: s1)
  = Some ((Str.of_list k, x) :: more, rest).
Proof.
  intros Hk Hx Hmore. rewrite (scan_members_value fuel s1 s2 k Hk), Hx.
  transitivity
    ('(more, rest) ← scan_members fuel (skip_ws s3);
     Some ((Str.of_list k, x) :: more, rest)); [reflexivity|].
  by rewrite Hmore.
Qed.

(** *** Lists, dicts, values *)

Lemma join_cons2 {A} (f : A -> list ascii) (x y : A) (l : list A) :
  join comma_space (map f (x :: y :: l))
  = f x ++ ","%char :: " "%char :: join comma_space (map f (y :: l)).
Proof. reflexivity. Qed.

Lemma skip_ws_join level (y : value) (l : list value) (rest : list ascii) :
  skip_ws (join comma_space (map (ser level) (y :: l)) ++ rest)
  = join comma_space (map (ser level) (y :: l)) ++ rest.
Proof.
  destruct (join_start (ser level) y l) as [tl ->].
  rewrite <- app_assoc. apply skip_ws_ser.
Qed.

Lemma scan_elements_join level (items : list value) :
  items <> [] ->
  Forall reads_back items ->
  forall fuel rest,
    length (join comma_space (map (ser level) items)) < fuel ->
    scan_elements fuel
      (join comma_space (map (ser level) items) ++ "]"%char :: rest)
    = Some (items, rest).
Proof.
  induction items as [|x l IH]; [done|].
  intros _ [Hx HP]%Forall_cons fuel rest Hlen.
  destruct fuel as [|fuel]; [lia|].
  destruct l as [|y l].
  - apply scan_elements_last. cbn [map join] in *. apply Hx; [lia|done].
  - rewrite join_cons2 in *. rewrite List.length_app in Hlen.
    cbn [length] in Hlen.
    eapply scan_elements_more.
    + rewrite <- app_assoc. cbn [app]. apply Hx; [lia|done].
    + rewrite skip_ws_join. apply IH; [done|done|lia].
Qed.

Lemma skip_ws_members level (kv : string * value) (d : pydict) (rest : list ascii) :
  skip_ws (join comma_space (map (ser_member level) (kv :: d)) ++ rest)
  = join comma_space (map (ser_member level) (kv :: d)) ++ rest.
Proof.
  destruct (join_start (ser_member level) kv d) as [tl ->].
  destruct kv as [k x]. by rewrite ser_member_eq.
Qed.

Lemma members_start level (kv : string * value) (d : pydict) :
  exists tl,
    join comma_space (map (ser_member level) (kv :: d)) = "034"%char :: tl.
Proof.
  destruct (join_start (ser_member level) kv d) as [tl ->].
  destruct kv as [k x]. rewrite ser_member_eq. by eexists.
Qed.

Lemma scan_members_join level (items : pydict) :
  items <> [] ->
  Forall (fun kv => reads_back kv.2) items ->
  forall fuel rest,
    length (join comma_space (map (ser_member level) items)) < fuel ->
    scan_members fuel
      (join comma_space (map (ser_member level) items) ++ "}"%char :: rest)
    = Some (items, rest).
Proof.
  induction items as [|[k x] l IH]; [done|].
  intros _ [Hx HP]%Forall_cons fuel rest Hlen. cbn [snd] in Hx.
  destruct fuel as [|fuel]; [lia|].
  destruct l as [|kv l].
  - cbn [map join] in *. rewrite ser_member_eq in *.
    repeat first [rewrite List.length_app in Hlen | progress cbn [length] in Hlen].
    repeat first [rewrite <- app_assoc | progress cbn [app]].
    etrans.
    { eapply scan_members_last.
      - apply scanstring_escaped.
      - rewrite skip_ws_ser. apply Hx; [lia|done]. }
    by rewrite of_to_list.
  - rewrite join_cons2 in *. rewrite ser_member_eq in *.
    repeat first [rewrite List.length_app in Hlen | progress cbn [length] in Hlen].
    repeat first [rewrite <- app_assoc | progress cbn [app]].
    etrans.
    { eapply scan_members_more.
      - apply scanstring_escaped.
      - rewrite skip_ws_ser. apply Hx; [lia|done].
      - rewrite skip_ws_members. apply IH; [done|done|lia]. }
    by rewrite of_to_list.
Qed.

Lemma dict_of_pairs_id (items : pydict) :
  NoDup items.*1 -> dict_of_pairs items = items.
Proof.
  intros Hnd. unfold dict_of_pairs.
  rewrite (RedactorFacts.fold_set_fresh snd) by done.
  induction items as [|[k x] l IH]; [done|].
  apply NoDup_cons in Hnd as [_ Hnd]. cbn. f_equal. by apply IH.
Qed.

(** The scanner reads back the text of every well-formed value. *)
Lemma scan_once_ser (v : value) : wf_value v -> reads_back v.
Proof.
  induction v as [|b|z|s|l IH|d IH] using value_ind;
    intros Hwf level fuel rest Hlen Hrest.
  - destruct fuel; [simpl in Hlen; lia|]. reflexivity.
  - destruct fuel; [destruct b; simpl in Hlen; lia|]. by destruct b.
  - destruct (int_repr_start z) as (c & tl & Heq & Hc).
    unfold ser in *. cbn [Json.dumps_at] in *. rewrite Heq in Hlen.
    destruct fuel; [simpl in Hlen; lia|].
    pose proof (scan_number_repr z rest Hrest) as Hnum.
    rewrite Heq in *. cbn [app] in *.
    rewrite scan_once_number, Hnum by done. reflexivity.
  - unfold ser in *. cbn [Json.dumps_at] in *. rewrite to_list_encode in *.
    destruct fuel; [simpl in Hlen; lia|].
    cbn [app]. rewrite scan_once_string, <- app_assoc. cbn [app].
    rewrite scanstring_escaped. cbn. by rewrite of_to_list.
  - apply RedactorFacts.wf_list_Forall in Hwf.
    assert (Forall reads_back l) as HP.
    { clear Hlen. induction IH as [|x l Hx _ IHl]; [constructor|].
      apply Forall_cons in Hwf as [Hwx Hwf]. constructor; auto. }
    destruct l as [|x l].
    + destruct fuel; [simpl in Hlen; lia|]. reflexivity.
    + rewrite ser_list_cons in *. cbn [length] in Hlen.
      rewrite List.length_app in Hlen. cbn [length] in Hlen.
      destruct fuel; [lia|].
      pose proof (scan_elements_join (S level) (x :: l) ltac:(done) HP
                    fuel rest ltac:(lia)) as Hscan.
      destruct (join_start (ser (S level)) x l) as [tl Htl].
      destruct (ser_start (S level) x) as (c & tl' & Hc & Hstart).
      cbn [app]. rewrite <- app_assoc. cbn [app].
      rewrite Htl, Hc in *. cbn [app] in *.
      by apply scan_once_list_nonempty.
  - apply RedactorFacts.wf_dict_Forall in Hwf as [Hnd Hwf].
    assert (Forall (fun kv => reads_back kv.2) d) as HP.
    { clear Hlen Hnd. induction IH as [|x l Hx _ IHl]; [constructor|].
      apply Forall_cons in Hwf as [Hwx Hwf]. constructor; auto. }
    destruct d as [|kv d].
    + destruct fuel; [simpl in Hlen; lia|]. reflexivity.
    + rewrite ser_dict_cons in *. cbn [length] in Hlen.
      rewrite List.length_app in Hlen. cbn [length] in Hlen.
      destruct fuel; [lia|].
      pose proof (scan_members_join (S level) (kv :: d) ltac:(done) HP
                    fuel rest ltac:(lia)) as Hscan.
      destruct (members_start (S level) kv d) as [tl Htl].
      cbn [app]. rewrite <- app_assoc. cbn [app].
      rewrite Htl in *. cbn [app] in *.
      etrans; [by apply scan_once_dict_nonempty|].
      by rewrite dict_of_pairs_id.
Qed.

(** [json.loads(json.dumps(v)) == v] *)
Lemma loads_dumps (v : value) :
  wf_value v -> JsonDecoder.loads (Json.dumps v) = Some v.
Proof.
  intros Hwf. unfold JsonDecoder.loads, Json.dumps.
  change (Str.to_list (Json.dumps_at false None 0 v)) with (ser 0 v).
  rewrite <- (app_nil_r (ser 0 v)) at 2.
  rewrite skip_ws_ser, (scan_once_ser v Hwf) by (done || lia).
  reflexivity.
Qed.

End JsonRoundTrip.

(** ** C4: decryption undoes encryption *)



(** ** The Redactor on the heap *)

Module HeapFacts.

Lemma repr_dict h d l :
  PyHeap.repr h (VDict d) l <->
  exists items, h !! l = Some (PyHeap.ODict items) /\ PyHeap.repr_items h d items.
Proof.
  assert (Hall : forall items,
    (fix all (d : pydict) (items : list (string * PyHeap.loc)) : Prop :=
       match d, items with
       | [], [] => True
       | (k, v) :: d, (k', l) :: items => k = k' /\ PyHeap.repr h v l /\ all d items
       | _, _ => False
       end) d items <-> PyHeap.repr_items h d items).
  { unfold PyHeap.repr_items. induction d as [|[k v] d IH]; intros [|[k' l'] items].
    - split; [constructor|done].
    - split; [done|inversion 1].
    - split; [done|inversion 1].
    - rewrite Forall2_cons, <- IH. simpl. tauto. }
  simpl. split; intros (items & Hl & H); exists items; split; try done;
    by apply Hall.
Qed.

Lemma repr_mono v : forall h h' l, h ⊆ h' -> PyHeap.repr h v l -> PyHeap.repr h' v l.
Proof.
  induction v as [| | | |items IH|items IH] using value_ind;
    intros h h' l Hsub.
  - simpl. intros H. by eapply lookup_weaken.
  - simpl. intros H. by eapply lookup_weaken.
  - simpl. intros H. by eapply lookup_weaken.
  - simpl. intros H. by eapply lookup_weaken.
  - simpl. intros (ls & Hl & Hall). exists ls. split; [by eapply lookup_weaken|].
    clear Hl. revert ls Hall.
    induction IH as [|v vs Hv _ IHvs]; intros [|l' ls]; try done.
    intros [H1 H2]. split; [by eapply Hv|by apply IHvs].
  - rewrite !repr_dict. intros (its & Hl & Hall). exists its.
    split; [by eapply lookup_weaken|].
    clear Hl. revert its Hall. unfold PyHeap.repr_items.
    induction IH as [|[k v] d Hv _ IHd]; intros its Hall;
      inversion Hall as [|? [k' l'] ? its' [Hk Hr] Hrest]; subst;
      constructor; [|by apply IHd].
    split; [done|]. by eapply Hv.
Qed.

Lemma repr_items_mono h h' d items :
  h ⊆ h' -> PyHeap.repr_items h d items -> PyHeap.repr_items h' d items.
Proof.
  intros Hsub Hrep. unfold PyHeap.repr_items. eapply Forall2_impl; [exact Hrep|].
  intros [k v] [k' l] [Hk Hr]. split; [done|]. by eapply repr_mono.
Qed.

(** [result[key] = value] on both sides *)
Lemma repr_items_set h k v l d items :
  PyHeap.repr h v l -> PyHeap.repr_items h d items ->
  PyHeap.repr_items h (Dict.set k v d) (Dict.set k l items).
Proof.
  intros Hv. unfold PyHeap.repr_items.
  induction 1 as [|[k1 v1] [k2 l2] d items [Hk Hr] Hrest IH].
  - simpl. by repeat constructor.
  - simpl in Hk, Hr. subst k2. simpl.
    destruct (String.eqb k k1); constructor; try done.
Qed.

Lemma alloc_fresh o (h : PyHeap.heap) : h !! (PyHeap.alloc o h).1 = None.
Proof.
  unfold PyHeap.alloc. simpl. apply not_elem_of_dom. apply is_fresh.
Qed.

Lemma depth_item k v (d : pydict) fuel :
  (k, v) ∈ d -> PyHeap.dict_depth (VDict d) <= S fuel -> PyHeap.dict_depth v <= fuel.
Proof.
  simpl. intros Hin Hle. apply le_S_n in Hle. revert Hle.
  induction d as [|[k' v'] d IH]; [by apply elem_of_nil in Hin|].
  simpl. apply elem_of_cons in Hin as [[= <- <-]|Hin]; [lia|].
  intros Hle. apply IH; [done|lia].
Qed.

(** The loop, from any point of its run. *)
Lemma sanitize_loop_frame fuel (g h : PyHeap.heap) r (rest : pydict) :
  Forall (fun kv => frame_spec kv.2) rest ->
  Forall (fun kv => PyHeap.dict_depth kv.2 <= fuel) rest ->
  g ⊆ h -> h !! r = None ->
  forall rest_items acc acc_items (G hc : PyHeap.heap),
    PyHeap.repr_items g rest rest_items ->
    g ⊆ G -> G ⊆ hc -> h ⊆ hc -> G !! r = None ->
    (forall l, is_Some (h !! l) -> is_Some (G !! l) -> is_Some (g !! l)) ->
    hc !! r = Some (PyHeap.ODict acc_items) ->
    PyHeap.repr_items G acc acc_items ->
    exists h' G' items',
      PyHeap.sanitize_loop (PyHeap.sanitize_dict fuel) r rest_items hc = Some h' /\
      g ⊆ G' /\ G' ⊆ h' /\ h ⊆ h' /\ G' !! r = None /\
      (forall l, is_Some (h !! l) -> is_Some (G' !! l) -> is_Some (g !! l)) /\
      h' !! r = Some (PyHeap.ODict items') /\
      PyHeap.repr_items G' (fold_left (sanitize_item sanitize_dict_value) rest acc) items'.
Proof.
  intros HIH Hdepth Hgh Hr.
  induction rest as [|[key v] rest IHrest];
    intros rest_items acc acc_items G hc Hrest HgG HGhc Hhhc HGr Hdom Hacc Hrep.
  { inversion Hrest; subst. simpl. by exists hc, G, acc_items. }
  inversion Hrest as [|? [key' vl] ? rest_items' [Hk Hv] Hrest']; subst.
  simpl in Hk, Hv. subst key'.
  apply Forall_cons in HIH as [HIHv HIH].
  apply Forall_cons in Hdepth as [Hdv Hdepth]. simpl in HIHv, Hdv.
  specialize (IHrest HIH Hdepth).
  assert (HvG : PyHeap.repr G v vl) by by eapply repr_mono.
  (* the tail of the loop, once [result[key]] is written *)
  assert (Hstep : forall (x : value) (xl : PyHeap.loc) (G2 h2 : PyHeap.heap),
    sanitize_item sanitize_dict_value acc (key, v) = Dict.set key x acc ->
    G ⊆ G2 -> G2 ⊆ h2 -> hc ⊆ h2 -> G2 !! r = None ->
    (forall l, is_Some (hc !! l) -> is_Some (G2 !! l) -> is_Some (G !! l)) ->
    PyHeap.repr G2 x xl ->
    exists h' G' items',
      (h3 ← PyHeap.setitem r key xl h2;
       PyHeap.sanitize_loop (PyHeap.sanitize_dict fuel) r rest_items' h3) = Some h' /\
      g ⊆ G' /\ G' ⊆ h' /\ h ⊆ h' /\ G' !! r = None /\
      (forall l, is_Some (h !! l) -> is_Some (G' !! l) -> is_Some (g !! l)) /\
      h' !! r = Some (PyHeap.ODict items') /\
      PyHeap.repr_items G'
        (fold_left (sanitize_item sanitize_dict_value) rest
           (sanitize_item sanitize_dict_value acc (key, v))) items').
  { intros x xl G2 h2 Hx HGG2 HG2h2 Hhch2 HG2r Hdom2 Hxl.
    rewrite Hx. unfold PyHeap.setitem.
    rewrite (lookup_weaken _ _ _ _ Hacc Hhch2). simpl.
    apply (IHrest rest_items' _ (Dict.set key xl acc_items) G2).
    - done.
    - by etrans.
    - apply insert_subseteq_r; [done|done].
    - apply insert_subseteq_r; [done|by etrans].
    - done.
    - intros l Hl HG2l. apply Hdom; [done|]. apply Hdom2; [|done].
      destruct Hl as [o Hl]. exists o. by eapply lookup_weaken.
    - by rewrite lookup_insert_eq.
    - apply repr_items_set; [done|]. by eapply repr_items_mono. }
  cbn [PyHeap.sanitize_loop].
  change (fold_left (sanitize_item sanitize_dict_value) ((key, v) :: rest) acc)
    with (fold_left (sanitize_item sanitize_dict_value) rest
            (sanitize_item sanitize_dict_value acc (key, v))).
  destruct v as [|b|z|s|vs|d'].
  - simpl in HvG. rewrite (lookup_weaken _ _ _ _ HvG HGhc).
    apply (Hstep VNone vl G hc); done.
  - simpl in HvG. rewrite (lookup_weaken _ _ _ _ HvG HGhc).
    apply (Hstep (VBool b) vl G hc); done.
  - simpl in HvG. rewrite (lookup_weaken _ _ _ _ HvG HGhc).
    apply (Hstep (VInt z) vl G hc); done.
  - simpl in HvG. rewrite (lookup_weaken _ _ _ _ HvG HGhc).
    destruct (key_is_sensitive key) eqn:Hsens.
    + pose proof (alloc_fresh (PyHeap.OStr (mask_value s)) hc) as Hm.
      unfold PyHeap.alloc in *. simpl in Hm. set (m := fresh (dom hc)) in *.
      assert (Hmr : m <> r) by (intros ->; by rewrite Hacc in Hm).
      apply (Hstep (VStr (mask_value s)) m (<[m := PyHeap.OStr (mask_value s)]> G)).
      * simpl. by rewrite Hsens.
      * apply insert_subseteq. by eapply lookup_weaken_None.
      * by apply insert_mono.
      * by apply insert_subseteq.
      * by rewrite lookup_insert_ne.
      * intros l [o Hl] HGl. rewrite lookup_insert_ne in HGl; [done|].
        intros <-. by rewrite Hm in Hl.
      * simpl. by rewrite lookup_insert_eq.
    + apply (Hstep (VStr s) vl G hc); try done. simpl. by rewrite Hsens.
  - destruct HvG as (ls & HvG & _). rewrite (lookup_weaken _ _ _ _ HvG HGhc).
    apply (Hstep (VList vs) vl G hc); try done.
    by eapply repr_mono.
  - pose proof HvG as HvG'. apply repr_dict in HvG' as (its & Hvl & _).
    rewrite (lookup_weaken _ _ _ _ Hvl HGhc).
    destruct (HIHv d' eq_refl fuel G hc vl Hdv HGhc HvG)
      as (r' & h2 & G2 & Hrun & Hsub & Hr' & HGG2 & HG2h2 & Hdom2 & Hres).
    rewrite Hrun. simpl.
    apply (Hstep (VDict (sanitize_dict d')) r' G2 h2); try done.
    destruct (G2 !! r) eqn:HG2r; [|done].
    destruct (Hdom2 r) as [o' Ho]; [by eexists|by eexists|].
    by rewrite HGr in Ho.
Qed.

Lemma sanitize_dict_frame v : frame_spec v.
Proof.
  induction v as [| | | |items IH|items IH] using value_ind;
    intros d [= ->]. rename d into items.
  intros [|fuel] g h dl Hfuel Hgh Hrep; [simpl in Hfuel; lia|].
  pose proof Hrep as Hrep'. apply repr_dict in Hrep' as (its & Hdl & Hits).
  simpl PyHeap.sanitize_dict. rewrite (lookup_weaken _ _ _ _ Hdl Hgh).
  pose proof (alloc_fresh (PyHeap.ODict []) h) as Hr.
  unfold PyHeap.alloc in *. simpl in Hr. set (r := fresh (dom h)) in *.
  destruct (sanitize_loop_frame fuel g h r items) with
    (rest_items := its) (acc := @nil (string * value))
    (acc_items := @nil (string * PyHeap.loc)) (G := g) (hc := <[r := PyHeap.ODict []]> h)
    as (h' & G' & items' & Hrun & HgG & HGh & Hhh & HGr & Hdom & Hres & Hrepr);
    try done.
  - apply Forall_forall. intros [k v] Hin. simpl. by eapply depth_item.
  - by apply insert_subseteq_r; [eapply lookup_weaken_None|].
  - by apply insert_subseteq.
  - by eapply lookup_weaken_None.
  - by rewrite lookup_insert_eq.
  - constructor.
  - rewrite Hrun. simpl.
    exists r, h', (<[r := PyHeap.ODict items']> G'). repeat split.
    + done.
    + done.
    + etrans; [done|]. by apply insert_subseteq.
    + by apply insert_subseteq_l.
    + intros l Hl HG'. apply Hdom; [done|].
      rewrite lookup_insert_ne in HG'; [done|].
      intros <-. destruct Hl as [o Ho]. by rewrite Hr in Ho.
    + apply repr_dict. exists items'. split; [by rewrite lookup_insert_eq|].
      eapply repr_items_mono; [|done]. by apply insert_subseteq.
Qed.

(** A run: the new dict shares the unmasked items with its argument and
    has new objects where a secret was masked or a dict was nested. *)
Example sanitize_dict_run :
  (PyHeap.sanitize_dict 2 ToyHeap.payload_ref ToyHeap.heap_demo
     ≫= fun rh => rh.2 !! rh.1)
  = Some (PyHeap.ODict [("user", 2%positive); ("password", 8%positive);
                        ("session", 9%positive); ("tags", 6%positive)]).
Proof. by vm_compute. Qed.

End HeapFacts.

(** C9: [sanitize_sensitive_data] never mutates its argument.  For every
    heap [h] in which the reference [dl] holds the mapping [d], the call
    returns (given fuel for the nesting of [d]) a reference [r] and a heap
    [h'] such that: [r] is not a reference of [h], so the result is a newly
    constructed mapping; every object of [h] is the same object in [h'], so
    nothing that existed before the call was written; [dl] holds the same
    mapping [d] after the call as before it; and [r] holds the sanitized
    mapping. *)
Theorem sanitize_never_mutates_argument
    (d : pydict) (h : PyHeap.heap) (dl : PyHeap.loc) (fuel : nat) :
  PyHeap.repr h (VDict d) dl ->
  PyHeap.dict_depth (VDict d) <= fuel ->
  exists r h',
    PyHeap.sanitize_dict fuel dl h = Some (r, h') /\
    h !! r = None /\
    (forall l o, h !! l = Some o -> h' !! l = Some o) /\
    PyHeap.repr h' (VDict d) dl /\
    PyHeap.repr h' (VDict (sanitize_sensitive_data d)) r.
Proof.
  intros Hrep Hfuel.
  destruct (HeapFacts.sanitize_dict_frame (VDict d) d eq_refl fuel h h dl)
    as (r & h' & g' & Hrun & Hsub & Hr & _ & Hg' & _ & Hres); [done..|].
  exists r, h'. split; [done|]. split; [done|]. split; [|split].
  - intros l o Hl. by eapply lookup_weaken.
  - exact (HeapFacts.repr_mono _ _ _ _ Hsub Hrep).
  - unfold sanitize_sensitive_data.
    exact (HeapFacts.repr_mono _ _ _ _ Hg' Hres).
Qed.

Lemma sanitize_never_mutates_argument_witness :
  PyHeap.repr ToyHeap.heap_demo (VDict ToyHeap.payload) ToyHeap.payload_ref /\
  exists r h',
    PyHeap.sanitize_dict 2 ToyHeap.payload_ref ToyHeap.heap_demo = Some (r, h') /\
    ToyHeap.heap_demo !! r = None /\
    (forall l o, ToyHeap.heap_demo !! l = Some o -> h' !! l = Some o) /\
    PyHeap.repr h' (VDict ToyHeap.payload) ToyHeap.payload_ref /\
    PyHeap.repr h' (VDict (sanitize_sensitive_data ToyHeap.payload)) r.
Proof.
  assert (Hrep : PyHeap.repr ToyHeap.heap_demo (VDict ToyHeap.payload)
                   ToyHeap.payload_ref).
  { simpl. repeat first [done | split | eexists]. }
  split; [exact Hrep|].
  apply (sanitize_never_mutates_argument ToyHeap.payload ToyHeap.heap_demo
           ToyHeap.payload_ref 2); [exact Hrep|simpl; lia].
Defined.
(** * Further properties of the vault code *)

(** ** Reading back what a save wrote *)

Module VaultFacts.
Import WorldFacts.

(** A step of a run in which the file system does not interfere. *)
Ltac wp_step_quiet :=
  lazymatch goal with
  | |- wp (Os.read_file _) _ _ =>
      apply Wp.wp_read_file_no_fault; [reflexivity|]; wsimpl;
      match goal with
      | H : ?m !! ?p = _ |- context [?m !! ?p] => rewrite H
      end
  | |- wp (Os.write_file _ _) _ _ => fail
  | _ => wp_step
  end.

Section Vault.
Context {P : Platform}.

Lemma secure_load_reads (path password : string) (w : world)
    (salt token f data : bytes) (text : string) (v : value) :
  fs w !! (path +:+ ".salt") = Some salt ->
  fs w !! path = Some token ->
  faults w = [] ->
  fernet_key (derived_key password salt) = Some f ->
  fernet_decrypt f token = Some data ->
  Utf8.decode data = Some text ->
  JsonDecoder.loads text = Some v ->
  (SecureDataUtils.secure_load path password w).1 = Ok v.
Proof.
  intros Hsalt Htoken Hfl Hf Hdec Hutf Hjson.
  change (wp (SecureDataUtils.secure_load path password) w (fun r _ => r = Ok v)).
  unfold SecureDataUtils.secure_load, SecureDataUtils.derive_key,
    SecureDataUtils.decrypt_data, derived_key in *.
  destruct w as [fsv envv ent pos clk fl tr].
  cbn [fs faults] in Hsalt, Htoken, Hfl. subst fl.
  assert (Hex : bool_decide (is_Some (fsv !! (path +:+ ".salt"))) = true)
    by (apply exists_true; eauto).
  wsimpl.
  repeat wp_step_quiet. done.
Qed.

Lemma load_config_reads_vault (path password : string) (w : world)
    (salt token f data : bytes) (text : string) (v : value) :
  env w !! "CONFIG_PASSWORD" = Some password ->
  password <> EmptyString ->
  fs w !! (path +:+ ".salt") = Some salt ->
  fs w !! (path +:+ ".enc") = Some token ->
  faults w = [] ->
  fernet_key (derived_key password salt) = Some f ->
  fernet_decrypt f token = Some data ->
  Utf8.decode data = Some text ->
  JsonDecoder.loads text = Some v ->
  (ConfigUtils.load_config (Some path) w).1 = Ok v.
Proof.
  intros Hpw Hne%String.eqb_neq Hsalt Htoken Hfl Hf Hdec Hutf Hjson.
  change (wp (ConfigUtils.load_config (Some path)) w (fun r _ => r = Ok v)).
  unfold ConfigUtils.load_config, ConfigUtils.generate_key,
    ConfigUtils.decrypt_config, derived_key in *.
  destruct w as [fsv envv ent pos clk fl tr].
  cbn [fs faults env] in Hpw, Hsalt, Htoken, Hfl. subst fl.
  assert (Hex : bool_decide (is_Some (fsv !! (path +:+ ".salt"))) = true)
    by (apply exists_true; eauto).
  assert (Hex2 : bool_decide (is_Some (fsv !! (path +:+ ".enc"))) = true)
    by (apply exists_true; eauto).
  wsimpl.
  assert (Hfalsy : falsy (Some password) = false) by exact Hne.
  repeat wp_step_quiet. done.
Qed.

Lemma load_config_reads_plaintext (path : string) (w : world)
    (data : bytes) (text : string) (v : value) :
  fs w !! (path +:+ ".enc") = None ->
  fs w !! path = Some data ->
  faults w = [] ->
  Utf8.decode data = Some text ->
  JsonDecoder.loads text = Some v ->
  (ConfigUtils.load_config (Some path) w).1 = Ok v.
Proof.
  intros Henc Hplain Hfl Hutf Hjson.
  change (wp (ConfigUtils.load_config (Some path)) w (fun r _ => r = Ok v)).
  unfold ConfigUtils.load_config in *.
  destruct w as [fsv envv ent pos clk fl tr].
  cbn [fs faults env] in Henc, Hplain, Hfl. subst fl.
  assert (Hex2 : bool_decide (is_Some (fsv !! (path +:+ ".enc"))) = false)
    by (by apply exists_false).
  wsimpl.
  repeat wp_step_quiet. done.
Qed.

End Vault.
End VaultFacts.

(** X1. [secure_load] reads back what [secure_save] wrote.  After a
    [secure_save] of a payload (a dict with distinct keys at every level)
    under [password] that returned normally, a [secure_load] of the same
    path under the same password returns exactly that payload, in every
    later world in which the token file and the salt file are as the save
    left them and the file system does not interfere.  [valid_key] says
    that [Fernet] accepts the derived key, as it does every 44-character
    encoding of 32 bytes. *)
Theorem secure_load_after_secure_save (P : Platform) (payload : pydict)
    (path password : string) (w w2 : world) :
  PlatformLaws P ->
  wf_dict payload ->
  valid_key (derived_key password (save_salt w)) ->
  (SecureDataUtils.secure_save (VDict payload) path password w).1 = Ok tt ->
  fs w2 !! path
  = fs (SecureDataUtils.secure_save (VDict payload) path password w).2 !! path ->
  fs w2 !! (path +:+ ".salt")
  = fs (SecureDataUtils.secure_save (VDict payload) path password w).2
      !! (path +:+ ".salt") ->
  faults w2 = [] ->
  (SecureDataUtils.secure_load path password w2).1 = Ok (VDict payload).
Proof.
  intros laws Hwf (f & Hf & Hlen) Hok Hfile Hsalt Hquiet.
  destruct (SaveFacts.secure_save_success (VDict payload) path password w Hok)
    as (f' & Hf' & Htoken & Hsaltfile & _).
  rewrite Hf in Hf'. injection Hf' as <-.
  rewrite Htoken in Hfile. rewrite Hsaltfile in Hsalt.
  eapply VaultFacts.secure_load_reads; try eassumption.
  - unfold save_token. apply fernet_roundtrip; [done|].
    apply DeriveFacts.peek_urandom_length.
  - apply JsonRoundTrip.utf8_roundtrip.
  - by apply JsonRoundTrip.loads_dumps.
Qed.

Lemma secure_load_after_secure_save_witness :
  (SecureDataUtils.secure_load (P:=Toy.toy_platform) "vault.bin" "pw"
     (SecureDataUtils.secure_save (P:=Toy.toy_platform)
        (VDict Toy.payload_ab) "vault.bin" "pw" Toy.empty_world).2).1
  = Ok (VDict Toy.payload_ab).
Proof.
  apply (secure_load_after_secure_save Toy.toy_platform Toy.payload_ab
           "vault.bin" "pw" Toy.empty_world _ ToyFacts.toy_laws).
  - reflexivity.
  - (eexists; split; [(vm_compute; reflexivity)|reflexivity]).
  - (by vm_compute).
  - reflexivity.
  - reflexivity.
  - (by vm_compute).
Defined.

(** X2. [load_config] reads back what an encrypted [save_config] wrote.
    After a [save_config] of a configuration under a non-empty password
    that returned normally, [load_config] of the same path returns exactly
    that configuration, in every later world in which [path.enc] and
    [path.salt] are as the save left them, [CONFIG_PASSWORD] holds the
    password and the file system does not interfere. *)
Theorem load_config_after_save_config (P : Platform) (config : pydict)
    (path password : string) (w w2 : world) :
  PlatformLaws P ->
  wf_dict config ->
  password <> EmptyString ->
  valid_key (derived_key password (save_salt w)) ->
  (ConfigUtils.save_config (VDict config) (Some path) (Some password) w).1 = Ok tt ->
  fs w2 !! (path +:+ ".enc")
  = fs (ConfigUtils.save_config (VDict config) (Some path) (Some password) w).2
      !! (path +:+ ".enc") ->
  fs w2 !! (path +:+ ".salt")
  = fs (ConfigUtils.save_config (VDict config) (Some path) (Some password) w).2
      !! (path +:+ ".salt") ->
  env w2 !! "CONFIG_PASSWORD" = Some password ->
  faults w2 = [] ->
  (ConfigUtils.load_config (Some path) w2).1 = Ok (VDict config).
Proof.
  intros laws Hwf Hpw (f & Hf & Hlen) Hok Hfile Hsalt Henv Hquiet.
  destruct (SaveFacts.save_config_success (VDict config) path password w Hpw Hok)
    as (f' & Hf' & _ & Hsaltfile & Htoken & _).
  rewrite Hf in Hf'. injection Hf' as <-.
  rewrite Htoken in Hfile. rewrite Hsaltfile in Hsalt.
  eapply VaultFacts.load_config_reads_vault; try eassumption.
  - unfold save_token. apply fernet_roundtrip; [done|].
    apply DeriveFacts.peek_urandom_length.
  - apply JsonRoundTrip.utf8_roundtrip.
  - by apply JsonRoundTrip.loads_dumps.
Qed.

Lemma load_config_after_save_config_witness :
  (ConfigUtils.load_config (P:=Toy.toy_platform) (Some "config/config.json")
     (Toy.with_env "CONFIG_PASSWORD" "pw"
        (ConfigUtils.save_config (P:=Toy.toy_platform)
           (VDict Toy.payload_ab) (Some "config/config.json") (Some "pw")
           Toy.world_plaintext).2)).1
  = Ok (VDict Toy.payload_ab).
Proof.
  apply (load_config_after_save_config Toy.toy_platform Toy.payload_ab
           "config/config.json" "pw" Toy.world_plaintext _ ToyFacts.toy_laws).
  - reflexivity.
  - done.
  - eexists; split; [vm_compute; reflexivity|reflexivity].
  - by vm_compute.
  - by vm_compute.
  - by vm_compute.
  - by vm_compute.
  - by vm_compute.
Defined.

(** ** Loading reads, and only reads *)

(** X3. Loading never writes.  In every run of [load_config], of
    [secure_load] and of [verify_data_integrity], whether it returns or
    raises and whatever the file system refuses, the files are afterwards
    exactly what they were before and no random bytes were drawn;
    [verify_data_integrity] does not touch the file system at all. *)
Theorem loading_never_writes (P : Platform) (config_path : option string)
    (filepath password signature : string) (data : value) (w : world) :
  (let w' := (ConfigUtils.load_config config_path w).2 in
   fs w' = fs w /\ entropy_pos w' = entropy_pos w) /\
  (let w' := (SecureDataUtils.secure_load filepath password w).2 in
   fs w' = fs w /\ entropy_pos w' = entropy_pos w) /\
  (let w' := (SecureDataUtils.verify_data_integrity data signature w).2 in
   fs w' = fs w /\ entropy_pos w' = entropy_pos w /\ faults w' = faults w).
Proof.
  split_and!.
  - change (wp (ConfigUtils.load_config config_path) w
              (fun _ w' => fs w' = fs w /\ entropy_pos w' = entropy_pos w)).
    unfold ConfigUtils.load_config, ConfigUtils.generate_key,
      ConfigUtils.decrypt_config.
    destruct w as [fsv envv ent pos clk fl tr]. wsimpl.
    wp_run; done.
  - change (wp (SecureDataUtils.secure_load filepath password) w
              (fun _ w' => fs w' = fs w /\ entropy_pos w' = entropy_pos w)).
    unfold SecureDataUtils.secure_load, SecureDataUtils.derive_key,
      SecureDataUtils.decrypt_data.
    destruct w as [fsv envv ent pos clk fl tr]. wsimpl.
    wp_run; done.
  - change (wp (SecureDataUtils.verify_data_integrity data signature) w
              (fun _ w' => fs w' = fs w /\ entropy_pos w' = entropy_pos w /\
                           faults w' = faults w)).
    unfold SecureDataUtils.verify_data_integrity, SecureDataUtils.compare_digest.
    destruct w as [fsv envv ent pos clk fl tr]. wsimpl.
    wp_run; done.
Qed.
Module IntegrityFacts.
Section Integrity.
Context {P : Platform}.



End Integrity.
End IntegrityFacts.

(** ** IntegrityVerifier: what [verify_data_integrity] answers *)





(** ** A token that [Fernet] rejects *)

Module RejectFacts.
Import WorldFacts VaultFacts.
Section Reject.
Context {P : Platform}.

Lemma secure_load_rejected (path password : string) (w : world)
    (salt token f : bytes) :
  fs w !! (path +:+ ".salt") = Some salt ->
  fs w !! path = Some token ->
  faults w = [] ->
  fernet_key (derived_key password salt) = Some f ->
  fernet_decrypt f token = None ->
  (SecureDataUtils.secure_load path password w).1
  = Raise (Exc SecureDataError
             "Failed to load data securely: Failed to decrypt data: ").
Proof.
  intros Hsalt Htoken Hfl Hf Hdec.
  change (wp (SecureDataUtils.secure_load path password) w
    (fun r _ => r = Raise (Exc SecureDataError
             "Failed to load data securely: Failed to decrypt data: "))).
  unfold SecureDataUtils.secure_load, SecureDataUtils.derive_key,
    SecureDataUtils.decrypt_data, derived_key in *.
  destruct w as [fsv envv ent pos clk fl tr].
  cbn [fs faults] in Hsalt, Htoken, Hfl. subst fl.
  assert (Hex : bool_decide (is_Some (fsv !! (path +:+ ".salt"))) = true)
    by (apply exists_true; eauto).
  wsimpl.
  repeat wp_step_quiet. done.
Qed.

Lemma load_config_rejected (path password : string) (w : world)
    (salt token f : bytes) :
  env w !! "CONFIG_PASSWORD" = Some password ->
  password <> EmptyString ->
  fs w !! (path +:+ ".salt") = Some salt ->
  fs w !! (path +:+ ".enc") = Some token ->
  faults w = [] ->
  fernet_key (derived_key password salt) = Some f ->
  fernet_decrypt f token = None ->
  (ConfigUtils.load_config (Some path) w).1
  = Raise (Exc ConfigError "Failed to load configuration: ").
Proof.
  intros Hpw Hne%String.eqb_neq Hsalt Htoken Hfl Hf Hdec.
  change (wp (ConfigUtils.load_config (Some path)) w
    (fun r _ => r = Raise (Exc ConfigError "Failed to load configuration: "))).
  unfold ConfigUtils.load_config, ConfigUtils.generate_key,
    ConfigUtils.decrypt_config, derived_key in *.
  destruct w as [fsv envv ent pos clk fl tr].
  cbn [fs faults env] in Hpw, Hsalt, Htoken, Hfl. subst fl.
  assert (Hex : bool_decide (is_Some (fsv !! (path +:+ ".salt"))) = true)
    by (apply exists_true; eauto).
  assert (Hex2 : bool_decide (is_Some (fsv !! (path +:+ ".enc"))) = true)
    by (apply exists_true; eauto).
  assert (Hfalsy : falsy (Some password) = false) by exact Hne.
  wsimpl.
  repeat wp_step_quiet. done.
Qed.

End Reject.
End RejectFacts.

(** X6. A rejected token is reported without a reason.  When the vault
    files are there and readable but [Fernet] rejects the token under the
    key derived from the password (a wrong password, a damaged token),
    [InvalidToken] carries an empty text: [secure_load] raises
    [SecureDataError] with the message "Failed to load data securely: Failed
    to decrypt data: " and [load_config] raises [ConfigError] with the
    message "Failed to load configuration: ", nothing following the
    colon. *)
Theorem rejected_token_gives_no_reason (P : Platform) (path password : string)
    (salt token f : bytes) (w : world) :
  fs w !! (path +:+ ".salt") = Some salt ->
  faults w = [] ->
  fernet_key (derived_key password salt) = Some f ->
  fernet_decrypt f token = None ->
  (fs w !! path = Some token ->
   (SecureDataUtils.secure_load path password w).1
   = Raise (Exc SecureDataError
              "Failed to load data securely: Failed to decrypt data: ")) /\
  (fs w !! (path +:+ ".enc") = Some token ->
   env w !! "CONFIG_PASSWORD" = Some password ->
   password <> EmptyString ->
   (ConfigUtils.load_config (Some path) w).1
   = Raise (Exc ConfigError "Failed to load configuration: ")).
Proof.
  intros Hsalt Hquiet Hf Hdec. split.
  - intros Htoken. by eapply RejectFacts.secure_load_rejected.
  - intros Htoken Henv Hpw. by eapply RejectFacts.load_config_rejected.
Qed.

Lemma rejected_token_gives_no_reason_witness :
  (SecureDataUtils.secure_load (P:=Toy.toy_platform) "vault.bin" "other"
     (SecureDataUtils.secure_save (P:=Toy.toy_platform)
        (VDict Toy.payload_ab) "vault.bin" "pw" Toy.empty_world).2).1
  = Raise (Exc SecureDataError
             "Failed to load data securely: Failed to decrypt data: ").
Proof.
  eapply (rejected_token_gives_no_reason Toy.toy_platform "vault.bin" "other").
  1: vm_compute; reflexivity.
  4: vm_compute; reflexivity.
  - by vm_compute.
  - vm_compute; reflexivity.
  - by vm_compute.
Defined.

(** ** A save cut short between its two writes *)

Module InterruptFacts.
Import WorldFacts.



Section Interrupt.
Context {P : Platform}.



End Interrupt.
End InterruptFacts.



(** ** More on the Redactor *)

Module RedactorMore.
Import StrFacts RedactorFacts.

Lemma imap_idem {A} (f : nat -> A -> A) (l : list A) :
  (forall i x, f i (f i x) = f i x) -> imap f (imap f l) = imap f l.
Proof.
  revert f. induction l as [|x l IH]; intros f Hf; simpl; [done|].
  rewrite Hf. f_equal. apply IH. intros i y. apply Hf.
Qed.

Lemma mask_char_idem n i c :
  RedactorSpec.mask_char n i (RedactorSpec.mask_char n i c)
  = RedactorSpec.mask_char n i c.
Proof.
  unfold RedactorSpec.mask_char.
  destruct (n <=? 4); [done|]. by destruct ((i <? 2) || (n - 2 <=? i)).
Qed.

Lemma mask_value_length s : String.length (mask_value s) = String.length s.
Proof.
  rewrite mask_value_spec. unfold RedactorSpec.mask.
  by rewrite <- !length_to_list, to_of_list, length_imap.
Qed.

Lemma mask_value_idem s : mask_value (mask_value s) = mask_value s.
Proof.
  rewrite (mask_value_spec (mask_value s)).
  unfold RedactorSpec.mask. rewrite mask_value_length.
  rewrite (mask_value_spec s) at 1. unfold RedactorSpec.mask.
  rewrite to_of_list, imap_idem by apply mask_char_idem.
  by rewrite mask_value_spec.
Qed.

(** What the loop stores under a key, applied to what it stored. *)
Lemma item_value_idem v :
  wf_value v ->
  forall key,
    wf_value (item_value sanitize_dict_value key v) /\
    item_value sanitize_dict_value key (item_value sanitize_dict_value key v)
    = item_value sanitize_dict_value key v.
Proof.
  induction v as [| | |s|items IH|items IH] using value_ind;
    intros Hwf key; try done.
  - simpl. destruct (key_is_sensitive key) eqn:Hs; simpl; rewrite ?Hs; [|done].
    by rewrite mask_value_idem.
  - apply wf_dict_Forall in Hwf as [Hnd Hwf].
    assert (Hkeys : forall l : pydict,
      (map (fun kv : string * value =>
              (kv.1, item_value sanitize_dict_value kv.1 kv.2)) l).*1 = l.*1).
    { intros l. induction l as [|[k x] l IHl]; [done|].
      cbn. f_equal. exact IHl. }
    simpl. rewrite sanitize_loop_map by done.
    rewrite sanitize_loop_map by (by rewrite Hkeys).
    split.
    + apply wf_dict_Forall. rewrite Hkeys. split; [done|].
      clear Hnd Hkeys. induction IH as [|[k x] l Hx _ IHl]; simpl; [done|].
      apply Forall_cons in Hwf as [Hw Hwf].
      constructor; [by apply Hx|by apply IHl].
    + f_equal. clear Hnd Hkeys.
      induction IH as [|[k x] l Hx _ IHl]; simpl; [done|].
      apply Forall_cons in Hwf as [Hw Hwf].
      f_equal; [f_equal; by apply Hx|by apply IHl].
Qed.

Lemma prefix_app (sub s t : string) :
  String.prefix sub s = true -> String.prefix sub (s +:+ t) = true.
Proof.
  revert s. induction sub as [|c sub IH]; intros s.
  { intros _. by destruct (s +:+ t). }
  destruct s as [|c' s]; [done|].
  change (String c' s +:+ t) with (String c' (s +:+ t)).
  cbn [String.prefix].
  destruct (Ascii.ascii_dec c c'); [apply IH|done].
Qed.

Lemma contains_app_r (sub s t : string) :
  Str.contains sub s = true -> Str.contains sub (s +:+ t) = true.
Proof.
  induction s as [|c s IH].
  - simpl. rewrite orb_false_r. intros H.
    apply (prefix_app sub EmptyString t) in H.
    destruct t; simpl in *; by rewrite H.
  - change (String c s +:+ t) with (String c (s +:+ t)).
    cbn [Str.contains]. rewrite !orb_true_iff. intros [H|H].
    + left. by apply (prefix_app sub (String c s) t).
    + right. by apply IH.
Qed.

Lemma contains_app_l (sub s t : string) :
  Str.contains sub s = true -> Str.contains sub (t +:+ s) = true.
Proof.
  intros H. induction t as [|c t IH]; [done|].
  change (String c t +:+ s) with (String c (t +:+ s)).
  cbn [Str.contains]. by rewrite IH, orb_true_r.
Qed.

Lemma lower_app (s t : string) :
  Str.lower (s +:+ t) = Str.lower s +:+ Str.lower t.
Proof.
  induction s as [|c s IH]; [done|].
  change (String c s +:+ t) with (String c (s +:+ t)).
  cbn [Str.lower]. by rewrite IH.
Qed.

Lemma lower_char_idem c : Str.lower_char (Str.lower_char c) = Str.lower_char c.
Proof. by destruct c as [[] [] [] [] [] [] [] []]. Qed.

Lemma lower_idem s : Str.lower (Str.lower s) = Str.lower s.
Proof.
  induction s as [|c s IH]; [done|]. simpl. by rewrite lower_char_idem, IH.
Qed.

End RedactorMore.

(** X8. Sanitizing is idempotent: on a payload with distinct keys at
    every level, sanitizing the sanitized payload changes nothing more.  A
    masked string is masked to itself, because masking keeps the length and
    the four characters it shows. *)
Theorem sanitize_idempotent (d : pydict) :
  wf_dict d ->
  sanitize_sensitive_data (sanitize_sensitive_data d) = sanitize_sensitive_data d.
Proof.
  intros Hwf.
  destruct (RedactorMore.item_value_idem (VDict d) Hwf EmptyString) as [_ H].
  simpl in H. by injection H.
Qed.

Lemma sanitize_idempotent_witness :
  sanitize_sensitive_data (sanitize_sensitive_data Toy.sanitize_demo)
  = sanitize_sensitive_data Toy.sanitize_demo.
Proof. apply (sanitize_idempotent Toy.sanitize_demo). reflexivity. Defined.

(** X9. Sanitizing keeps the shape of a payload with distinct keys: the
    result has the same keys in the same order and again distinct keys at
    every level; under each key a string is replaced by a string of the same
    length (masked or not, the length of a secret stays visible), a mapping
    by a mapping, and any other value by itself. *)
Theorem sanitize_keeps_shape (d : pydict) :
  wf_dict d ->
  wf_dict (sanitize_sensitive_data d) /\
  Dict.keys (sanitize_sensitive_data d) = Dict.keys d /\
  forall key v,
    Dict.get key d = Some v ->
    exists v',
      Dict.get key (sanitize_sensitive_data d) = Some v' /\
      match v with
      | VStr s => exists s', v' = VStr s' /\ String.length s' = String.length s
      | VDict _ => is_dict v' = true
      | _ => v' = v
      end.
Proof.
  intros Hwf.
  destruct (RedactorMore.item_value_idem (VDict d) Hwf EmptyString) as [Hwf' _].
  split; [exact Hwf'|].
  apply RedactorFacts.wf_dict_Forall in Hwf as [Hnd _].
  unfold sanitize_sensitive_data, sanitize_dict.
  rewrite RedactorFacts.sanitize_loop_map by done.
  split.
  - unfold Dict.keys. clear Hnd Hwf'.
    induction d as [|[k x] d IH]; [done|]. cbn. f_equal. exact IH.
  - intros key v Hget.
    rewrite (RedactorFacts.dict_get_map (item_value sanitize_dict_value)), Hget.
    simpl. eexists. split; [reflexivity|].
    destruct v as [| | |s| |]; try done.
    simpl. destruct (key_is_sensitive key); eexists; split; try reflexivity.
    apply RedactorMore.mask_value_length.
Qed.

Lemma sanitize_keeps_shape_witness :
  Dict.keys (sanitize_sensitive_data Toy.sanitize_demo)
  = ["API_KEY"; "name"; "token"; "count"; "db"].
Proof.
  destruct (sanitize_keeps_shape Toy.sanitize_demo) as (_ & Hkeys & _).
  - reflexivity.
  - exact Hkeys.
Defined.

(** X10. How keys are matched.  Whether a key is sensitive does not depend
    on the case of its letters, and a key that contains a sensitive key is
    sensitive: matching is by substring of the lowercased key, so text
    before or after a sensitive key never makes it harmless. *)
Theorem sensitive_key_matching (key before after : string) :
  key_is_sensitive (Str.lower key) = key_is_sensitive key /\
  (key_is_sensitive key = true ->
   key_is_sensitive (before +:+ key +:+ after) = true).
Proof.
  unfold key_is_sensitive. split.
  - by rewrite RedactorMore.lower_idem.
  - rewrite !existsb_exists. intros (field & Hin & Hc).
    exists field. split; [done|].
    rewrite !RedactorMore.lower_app.
    apply RedactorMore.contains_app_l. by apply RedactorMore.contains_app_r.
Qed.

Lemma sensitive_key_matching_witness :
  key_is_sensitive ("primary_" +:+ "KEY" +:+ "_id") = true.
Proof.
  apply (sensitive_key_matching "KEY" "primary_" "_id"). reflexivity.
Defined.

(** ** The accessors of the configuration *)

Module AccessFacts.
Section Access.
Context {I : Interpreter}.

Ltac run_access :=
  unfold ConfigAccess.get_api_key, ConfigAccess.get_user_agent,
    ConfigAccess.get_rate_limit, try_except, bind, Py.member, raise, ret,
    logger_error;
  cbn [exc_str].

Ltac split_value v :=
  destruct v as [| | |?s|?l|?d]; cbn [ConfigAccess.found] in *;
  repeat match goal with
  | |- context [Str.contains ?a ?b] => destruct (Str.contains a b)
  | |- context [Py.str_in_list ?a ?b] => destruct (Py.str_in_list a b)
  end.

Lemma get_api_key_found config service v w :
  ConfigAccess.found config "api_keys" service = Some v ->
  ConfigAccess.get_api_key config service w = (Ok v, w).
Proof.
  unfold ConfigAccess.found. destruct config as [| | | | |d]; try done.
  destruct (Dict.get "api_keys" d) as [[| | | | |entries]|] eqn:Hs; try done.
  intros Hv. run_access. by rewrite Hs, Hv.
Qed.

Lemma get_user_agent_found config service v w :
  ConfigAccess.found config "user_agents" service = Some v ->
  ConfigAccess.get_user_agent config service w = (Ok v, w).
Proof.
  unfold ConfigAccess.found. destruct config as [| | | | |d]; try done.
  destruct (Dict.get "user_agents" d) as [[| | | | |entries]|] eqn:Hs; try done.
  intros Hv. run_access. by rewrite Hs, Hv.
Qed.

Lemma get_api_key_not_found config service w :
  ConfigAccess.found config "api_keys" service = None ->
  exists reason,
    ConfigAccess.get_api_key config service w
    = (Raise (Exc ConfigError ("Failed to get API key: " +:+ reason)),
       emit (EvLog ("Error getting API key: " +:+ reason)) w) /\
    (forall d, config = VDict d -> Dict.get "api_keys" d = None ->
               reason = "API keys not found in configuration") /\
    (forall d entries,
        config = VDict d -> Dict.get "api_keys" d = Some (VDict entries) ->
        reason = "API key for " +:+ service +:+ " not found").
Proof.
  intros Hnone. run_access. split_value config.
  all: try by (eexists; split_and!; [reflexivity|intros; simplify_eq..]).
  destruct (Dict.get "api_keys" d) as [x|] eqn:Hs.
  - split_value x.
    all: try rewrite Hnone.
    all: by (eexists; split_and!; [reflexivity|intros; simplify_eq..]).
  - by (eexists; split_and!; [reflexivity|intros; simplify_eq..]).
Qed.

Lemma get_user_agent_not_found config service w :
  ConfigAccess.found config "user_agents" service = None ->
  exists reason,
    ConfigAccess.get_user_agent config service w
    = (Raise (Exc ConfigError ("Failed to get user agent: " +:+ reason)),
       emit (EvLog ("Error getting user agent: " +:+ reason)) w) /\
    (forall d, config = VDict d -> Dict.get "user_agents" d = None ->
               reason = "User agents not found in configuration") /\
    (forall d entries,
        config = VDict d -> Dict.get "user_agents" d = Some (VDict entries) ->
        reason = "User agent for " +:+ service +:+ " not found").
Proof.
  intros Hnone. run_access. split_value config.
  all: try by (eexists; split_and!; [reflexivity|intros; simplify_eq..]).
  destruct (Dict.get "user_agents" d) as [x|] eqn:Hs.
  - split_value x.
    all: try rewrite Hnone.
    all: by (eexists; split_and!; [reflexivity|intros; simplify_eq..]).
  - by (eexists; split_and!; [reflexivity|intros; simplify_eq..]).
Qed.

Lemma get_rate_limit_found config service limit w :
  ConfigAccess.found config "rate_limits" service = Some limit ->
  ConfigAccess.get_rate_limit config service w
  = match float_of limit with
    | Ok x => (Ok x, w)
    | Raise e =>
        (Raise (Exc ConfigError ("Failed to get rate limit: " +:+ exc_str e)),
         emit (EvLog ("Error getting rate limit: " +:+ exc_str e)) w)
    end.
Proof.
  unfold ConfigAccess.found. destruct config as [| | | | |d]; try done.
  destruct (Dict.get "rate_limits" d) as [[| | | | |entries]|] eqn:Hs; try done.
  intros Hv. run_access. rewrite Hs, Hv. by destruct (float_of limit).
Qed.

Lemma get_rate_limit_not_found config service w :
  ConfigAccess.found config "rate_limits" service = None ->
  exists reason,
    ConfigAccess.get_rate_limit config service w
    = (Raise (Exc ConfigError ("Failed to get rate limit: " +:+ reason)),
       emit (EvLog ("Error getting rate limit: " +:+ reason)) w) /\
    (forall d, config = VDict d -> Dict.get "rate_limits" d = None ->
               reason = "Rate limits not found in configuration") /\
    (forall d entries,
        config = VDict d -> Dict.get "rate_limits" d = Some (VDict entries) ->
        reason = "Rate limit for " +:+ service +:+ " not found").
Proof.
  intros Hnone. run_access. split_value config.
  all: try by (eexists; split_and!; [reflexivity|intros; simplify_eq..]).
  destruct (Dict.get "rate_limits" d) as [x|] eqn:Hs.
  - split_value x.
    all: try rewrite Hnone.
    all: by (eexists; split_and!; [reflexivity|intros; simplify_eq..]).
  - by (eexists; split_and!; [reflexivity|intros; simplify_eq..]).
Qed.

End Access.
End AccessFacts.

(** X11. When the accessors return.  [get_api_key] returns a value exactly
    when the configuration is a dict whose entry "api_keys" is a dict that
    has the service, and then it returns the value stored there;
    [get_user_agent] likewise with "user_agents".  A call that returns has
    changed nothing: no log entry is written. *)
Theorem accessors_return_iff_found (I : Interpreter) (config : value)
    (service : string) (w : world) :
  (forall v,
      ConfigAccess.get_api_key config service w = (Ok v, w) <->
      ConfigAccess.found config "api_keys" service = Some v) /\
  (forall v,
      ConfigAccess.get_user_agent config service w = (Ok v, w) <->
      ConfigAccess.found config "user_agents" service = Some v) /\
  (forall v w',
      ConfigAccess.get_api_key config service w = (Ok v, w') \/
      ConfigAccess.get_user_agent config service w = (Ok v, w') ->
      w' = w).
Proof.
  split_and!.
  - intros v. split; [|apply AccessFacts.get_api_key_found].
    destruct (ConfigAccess.found config "api_keys" service) as [v'|] eqn:Hf.
    + rewrite (AccessFacts.get_api_key_found _ _ _ _ Hf). by intros [= ->].
    + destruct (AccessFacts.get_api_key_not_found config service w Hf)
        as (reason & -> & _). done.
  - intros v. split; [|apply AccessFacts.get_user_agent_found].
    destruct (ConfigAccess.found config "user_agents" service) as [v'|] eqn:Hf.
    + rewrite (AccessFacts.get_user_agent_found _ _ _ _ Hf). by intros [= ->].
    + destruct (AccessFacts.get_user_agent_not_found config service w Hf)
        as (reason & -> & _). done.
  - intros v w' [Hr|Hr].
    + destruct (ConfigAccess.found config "api_keys" service) as [v'|] eqn:Hf.
      * rewrite (AccessFacts.get_api_key_found _ _ _ _ Hf) in Hr. by injection Hr.
      * destruct (AccessFacts.get_api_key_not_found config service w Hf)
          as (reason & Hr' & _). by rewrite Hr' in Hr.
    + destruct (ConfigAccess.found config "user_agents" service) as [v'|] eqn:Hf.
      * rewrite (AccessFacts.get_user_agent_found _ _ _ _ Hf) in Hr.
        by injection Hr.
      * destruct (AccessFacts.get_user_agent_not_found config service w Hf)
          as (reason & Hr' & _). by rewrite Hr' in Hr.
Qed.

(** X12. How the accessors fail.  Whenever the value is not there, be it
    that a key is missing or that the configuration or the section is not a
    dict, [get_api_key] raises [ConfigError] with the message "Failed to get
    API key: " followed by a reason, after one [logger.error] entry "Error
    getting API key: " with the same reason, and nothing else happens.  The
    reason is "API keys not found in configuration" when the section is
    missing and "API key for <service> not found" when the section is a dict
    without the service.  [get_user_agent] likewise with its own texts. *)
Theorem accessor_failures (I : Interpreter) (config : value)
    (service : string) (w : world) :
  (ConfigAccess.found config "api_keys" service = None ->
   exists reason,
     ConfigAccess.get_api_key config service w
     = (Raise (Exc ConfigError ("Failed to get API key: " +:+ reason)),
        emit (EvLog ("Error getting API key: " +:+ reason)) w) /\
     (forall d, config = VDict d -> Dict.get "api_keys" d = None ->
                reason = "API keys not found in configuration") /\
     (forall d entries,
         config = VDict d -> Dict.get "api_keys" d = Some (VDict entries) ->
         reason = "API key for " +:+ service +:+ " not found")) /\
  (ConfigAccess.found config "user_agents" service = None ->
   exists reason,
     ConfigAccess.get_user_agent config service w
     = (Raise (Exc ConfigError ("Failed to get user agent: " +:+ reason)),
        emit (EvLog ("Error getting user agent: " +:+ reason)) w) /\
     (forall d, config = VDict d -> Dict.get "user_agents" d = None ->
                reason = "User agents not found in configuration") /\
     (forall d entries,
         config = VDict d -> Dict.get "user_agents" d = Some (VDict entries) ->
         reason = "User agent for " +:+ service +:+ " not found")).
Proof.
  split.
  - apply AccessFacts.get_api_key_not_found.
  - apply AccessFacts.get_user_agent_not_found.
Qed.

Lemma accessor_failures_witness :
  ConfigAccess.get_api_key (I:=Toy2.toy_interpreter) (VDict Toy2.config)
    "kaggle" Toy.empty_world
  = (Raise (Exc ConfigError "Failed to get API key: API key for kaggle not found"),
     emit (EvLog "Error getting API key: API key for kaggle not found")
       Toy.empty_world).
Proof.
  destruct (accessor_failures Toy2.toy_interpreter (VDict Toy2.config)
              "kaggle" Toy.empty_world) as [Hkey _].
  destruct Hkey as (reason & Hrun & _ & Hreason); [reflexivity|].
  rewrite (Hreason Toy2.config _ eq_refl eq_refl) in Hrun.
  exact Hrun.
Defined.

(** X13. [get_rate_limit].  When the configuration is a dict whose entry
    "rate_limits" is a dict that has the service, the call returns [float]
    of the stored value, or, when [float] raises, raises [ConfigError] with
    the text of that exception after "Failed to get rate limit: ".
    Otherwise it raises [ConfigError] with a reason after the same prefix:
    "Rate limits not found in configuration" for a missing section, "Rate
    limit for <service> not found" for a missing service.  Every failure
    is logged once and changes nothing else. *)
Theorem get_rate_limit_behaviour (I : Interpreter) (config : value)
    (service : string) (w : world) :
  match ConfigAccess.found config "rate_limits" service with
  | Some limit =>
      ConfigAccess.get_rate_limit config service w
      = match float_of limit with
        | Ok x => (Ok x, w)
        | Raise e =>
            (Raise (Exc ConfigError ("Failed to get rate limit: " +:+ exc_str e)),
             emit (EvLog ("Error getting rate limit: " +:+ exc_str e)) w)
        end
  | None =>
      exists reason,
        ConfigAccess.get_rate_limit config service w
        = (Raise (Exc ConfigError ("Failed to get rate limit: " +:+ reason)),
           emit (EvLog ("Error getting rate limit: " +:+ reason)) w) /\
        (forall d, config = VDict d -> Dict.get "rate_limits" d = None ->
                   reason = "Rate limits not found in configuration") /\
        (forall d entries,
            config = VDict d -> Dict.get "rate_limits" d = Some (VDict entries) ->
            reason = "Rate limit for " +:+ service +:+ " not found")
  end.
Proof.
  destruct (ConfigAccess.found config "rate_limits" service) as [limit|] eqn:Hf.
  - by apply AccessFacts.get_rate_limit_found.
  - by apply AccessFacts.get_rate_limit_not_found.
Qed.

(** X14. Sanitizing looks at the key next to a string, not at the keys
    above it.  An API key stored as [config["api_keys"][service]] survives
    [sanitize_sensitive_data] in clear whenever the name of the service is
    not itself a sensitive key: [get_api_key] on the sanitized configuration
    returns the very key, although it sits under "api_keys". *)
Theorem sanitize_leaves_api_keys_readable (I : Interpreter) (config : pydict)
    (service key : string) (w : world) :
  wf_dict config ->
  ConfigAccess.found (VDict config) "api_keys" service = Some (VStr key) ->
  key_is_sensitive service = false ->
  ConfigAccess.get_api_key (VDict (sanitize_sensitive_data config)) service w
  = (Ok (VStr key), w).
Proof.
  intros Hwf Hfound Hservice.
  apply AccessFacts.get_api_key_found.
  unfold ConfigAccess.found in *.
  destruct (Dict.get "api_keys" config) as [[| | | | |entries]|] eqn:Hs;
    try done.
  pose proof Hwf as [Hnd Hall]%RedactorFacts.wf_dict_Forall.
  unfold sanitize_sensitive_data, sanitize_dict.
  rewrite RedactorFacts.sanitize_loop_map by done.
  rewrite (RedactorFacts.dict_get_map (item_value sanitize_dict_value)), Hs.
  cbn [fmap option_fmap option_map item_value sanitize_dict_value].
  assert (Hentries : wf_value (VDict entries)).
  { apply CanonicalFacts.dict_get_elem in Hs.
    rewrite Forall_forall in Hall. by apply (Hall _ Hs). }
  apply RedactorFacts.wf_dict_Forall in Hentries as [Hnd' _].
  rewrite RedactorFacts.sanitize_loop_map by done.
  rewrite (RedactorFacts.dict_get_map (item_value sanitize_dict_value)), Hfound.
  simpl. by rewrite Hservice.
Qed.

Lemma sanitize_leaves_api_keys_readable_witness :
  ConfigAccess.get_api_key (I:=Toy2.toy_interpreter)
    (VDict (sanitize_sensitive_data Toy2.config)) "fred" Toy.empty_world
  = (Ok (VStr "0123456789abcdef"), Toy.empty_world).
Proof.
  apply (sanitize_leaves_api_keys_readable Toy2.toy_interpreter Toy2.config
           "fred" "0123456789abcdef" Toy.empty_world); reflexivity.
Defined.

(** ** The text of [json.dumps] is printable ASCII *)

Module PrintableFacts.
Import StrFacts JsonText JsonRoundTrip.

Abbreviation printable l := (Forall (fun c => printable_ascii c = true) l).

Lemma escape_char_printable (c : ascii) :
  printable (Str.to_list (Json.escape_char c)).
Proof.
  apply RedactorFacts.forallb_wf.
  by destruct c as [[] [] [] [] [] [] [] []].
Qed.

Lemma escaped_printable (s : string) : printable (escaped s).
Proof.
  unfold escaped. induction (Str.to_list s) as [|c l IH]; [constructor|].
  cbn [map concat]. apply Forall_app. split; [apply escape_char_printable|done].
Qed.

Lemma uint_printable (d : Decimal.uint) :
  printable (Str.to_list (NilEmpty.string_of_uint d)).
Proof. induction d; simpl; by constructor. Qed.

Lemma int_repr_printable (z : Z) : printable (Str.to_list (Json.int_repr z)).
Proof.
  unfold Json.int_repr.
  destruct z as [|p|p]; cbn [Z.to_int NilZero.string_of_int].
  - by repeat constructor.
  - replace (NilZero.string_of_uint (Pos.to_uint p))
      with (NilEmpty.string_of_uint (Pos.to_uint p)).
    + apply uint_printable.
    + pose proof (DecimalPos.Unsigned.to_uint_nonnil p).
      by destruct (Pos.to_uint p).
  - change (Str.to_list (String "-" (NilZero.string_of_uint (Pos.to_uint p))))
      with ("-"%char :: Str.to_list (NilZero.string_of_uint (Pos.to_uint p))).
    constructor; [done|].
    replace (NilZero.string_of_uint (Pos.to_uint p))
      with (NilEmpty.string_of_uint (Pos.to_uint p)).
    + apply uint_printable.
    + pose proof (DecimalPos.Unsigned.to_uint_nonnil p).
      by destruct (Pos.to_uint p).
Qed.

Lemma join_printable (chunks : list (list ascii)) :
  Forall (fun l => printable l) chunks -> printable (join comma_space chunks).
Proof.
  induction 1 as [|x l Hx Hl IH]; [constructor|].
  destruct l as [|y l]; [done|].
  change (join comma_space (x :: y :: l))
    with (x ++ comma_space ++ join comma_space (y :: l)).
  rewrite !Forall_app. split_and!; [done|by repeat constructor|done].
Qed.

Lemma ser_printable (v : value) : forall level, printable (ser level v).
Proof.
  induction v as [|b|z|s|l IH|d IH] using value_ind; intros level.
  - by repeat constructor.
  - destruct b; by repeat constructor.
  - apply int_repr_printable.
  - unfold ser. cbn [Json.dumps_at]. rewrite to_list_encode.
    constructor; [done|]. apply Forall_app. split; [apply escaped_printable|].
    by repeat constructor.
  - destruct l as [|x l]; [by repeat constructor|].
    rewrite ser_list_cons. constructor; [done|].
    apply Forall_app. split; [|by repeat constructor].
    apply join_printable. apply Forall_map.
    eapply Forall_impl; [exact IH|]. intros y Hy. apply Hy.
  - destruct d as [|kv d]; [by repeat constructor|].
    rewrite ser_dict_cons. constructor; [done|].
    apply Forall_app. split; [|by repeat constructor].
    apply join_printable. apply Forall_map.
    eapply Forall_impl; [exact IH|]. intros [k y] Hy. simpl in Hy.
    rewrite ser_member_eq. constructor; [done|].
    apply Forall_app. split; [apply escaped_printable|].
    repeat (constructor; [done|]). apply Hy.
Qed.

Lemma encode_char_printable (c : ascii) :
  printable_ascii c = true ->
  Forall (fun b => printable_byte b = true) (Utf8.encode_char c).
Proof.
  intros Hc. apply RedactorFacts.forallb_wf. revert Hc.
  by destruct c as [[] [] [] [] [] [] [] []].
Qed.

Lemma encode_printable (s : string) :
  printable (Str.to_list s) ->
  Forall (fun b => printable_byte b = true) (Utf8.encode s).
Proof.
  unfold Utf8.encode. induction 1 as [|c l Hc Hl IH]; [constructor|].
  cbn [flat_map]. apply Forall_app. split; [by apply encode_char_printable|done].
Qed.

Lemma encode_app (s t : string) :
  Utf8.encode (s +:+ t) = Utf8.encode s ++ Utf8.encode t.
Proof. unfold Utf8.encode. by rewrite to_list_app, flat_map_app. Qed.

End PrintableFacts.

(** ** [secure_log] *)

Module LogFacts.
Import WorldFacts.

Lemma get_set_eq {A} (k : string) (v : A) (d : list (string * A)) :
  (Dict.set k v d).*1 = if bool_decide (k ∈ d.*1) then d.*1 else d.*1 ++ [k].
Proof.
  induction d as [|[k' v'] d IH]; [done|]. cbn.
  destruct (String.eqb_spec k k') as [->|Hne].
  - rewrite bool_decide_true by left. done.
  - cbn. rewrite IH. destruct (decide (k ∈ d.*1)) as [Hin|Hin].
    + rewrite !bool_decide_true; [done|by right|done].
    + rewrite !bool_decide_false; [done| |done].
      by intros [?|?]%elem_of_cons.
Qed.

Lemma dict_get_set (k : string) (v : value) (d : pydict) :
  Dict.get k (Dict.set k v d) = Some v.
Proof.
  induction d as [|[k' v'] d IH]; simpl.
  - by rewrite String.eqb_refl.
  - destruct (String.eqb_spec k k') as [->|Hne]; simpl.
    + by rewrite String.eqb_refl.
    + by destruct (String.eqb_spec k k').
Qed.

Lemma dict_get_set_ne (k k' : string) (v : value) (d : pydict) :
  k' <> k -> Dict.get k' (Dict.set k v d) = Dict.get k' d.
Proof.
  intros Hne. induction d as [|[k0 v0] d IH]; simpl.
  - by destruct (String.eqb_spec k' k).
  - destruct (String.eqb_spec k k0) as [->|Hk]; simpl.
    + by destruct (String.eqb_spec k' k0).
    + by rewrite IH.
Qed.

Lemma wf_dict_set (k : string) (v : value) (d : pydict) :
  wf_value v -> wf_dict d -> wf_dict (Dict.set k v d).
Proof.
  intros Hv [Hnd Hall]%RedactorFacts.wf_dict_Forall.
  apply RedactorFacts.wf_dict_Forall. split.
  - rewrite get_set_eq. case_bool_decide as Hin; [done|].
    apply NoDup_app. split_and!; [done| |apply NoDup_singleton].
    intros x Hx ->%list_elem_of_singleton. done.
  - clear Hnd. induction Hall as [|[k' v'] d Hv' Hall IH]; simpl.
    + by repeat constructor.
    + destruct (String.eqb k k'); constructor; try done.
Qed.

Section Log.
Context {C : Calendar}.

Lemma log_record_wf (data : pydict) (now : Z) :
  wf_dict data -> wf_dict (SecureLog.log_record data now).
Proof.
  intros Hwf. unfold SecureLog.log_record. apply wf_dict_set; [done|].
  by destruct (RedactorMore.item_value_idem (VDict data) Hwf EmptyString).
Qed.

(** The bytes of the line for [data] when the clock reads [now], the
    newline apart. *)
Lemma line_printable (data : pydict) (now : Z) :
  Forall (fun b => printable_byte b = true)
    (Utf8.encode (Json.dumps (VDict (SecureLog.log_record data now)))).
Proof.
  apply PrintableFacts.encode_printable.
  apply (PrintableFacts.ser_printable _ 0).
Qed.

(** Every run of [secure_log], by the way the append ends. *)
Lemma secure_log_run (data : pydict) (log_file : string) (w : world) :
  let line := Utf8.encode (Json.dumps (VDict (SecureLog.log_record data (clock w)))) in
  let old := default [] (fs w !! log_file) in
  let r := SecureLog.secure_log data log_file w in
  match r.1 with
  | Ok _ =>
      next_fault w = NoFault /\
      fs r.2 = <[log_file := old ++ line ++ [Byte.x0a]]> (fs w)
  | Raise e =>
      exists cause,
        e = Exc SecureDataError ("Failed to log data securely: " +:+ exc_str cause) /\
        EvLog ("Error logging data securely: " +:+ exc_str cause)
          ∈ events_since w r.2 /\
        (next_fault w = FailBefore cause /\ fs r.2 = fs w \/
         exists n,
           next_fault w = FailDuring n cause /\
           fs r.2 = <[log_file := old ++ take n (line ++ [Byte.x0a])]> (fs w))
  end.
Proof.
  cbv zeta.
  unfold SecureLog.secure_log, SecureLog.append_file, try_except, bind, Os.time,
    logger_error, raise.
  destruct w as [fsv envv ent pos clk fl tr]. wsimpl.
  rewrite PrintableFacts.encode_app.
  change (Utf8.encode Json.newline) with [Byte.x0a].
  destruct fl as [|[|cause|n cause] fl]; cbn [fst snd fs].
  - done.
  - done.
  - exists cause. split_and!; [done|trace_norm; event_in|by left].
  - exists cause. split_and!; [done|trace_norm; event_in|right; by exists n].
Qed.

End Log.
End LogFacts.

(** X15. A call of [secure_log] that returns has appended exactly one
    line to the log: the content of the file is what it was before (nothing,
    when the file did not exist), then the text of [json.dumps] of the
    sanitized payload with its timestamp, then one newline.  The text is
    made of the characters [' '..'~'] only, whatever the strings of the
    payload hold, so the newline at its end is the only one written; no
    other file is touched. *)
Theorem secure_log_appends_one_line (C : Calendar) (data : pydict)
    (log_file : string) (w : world) :
  (SecureLog.secure_log data log_file w).1 = Ok tt ->
  exists line,
    line = Utf8.encode (Json.dumps (VDict (SecureLog.log_record data (clock w)))) /\
    Forall (fun b => printable_byte b = true) line /\
    fs (SecureLog.secure_log data log_file w).2
    = <[log_file := default [] (fs w !! log_file) ++ line ++ [Byte.x0a]]> (fs w).
Proof.
  intros Hok. pose proof (LogFacts.secure_log_run data log_file w) as Hrun.
  cbv zeta in Hrun. rewrite Hok in Hrun. destruct Hrun as [_ Hfs].
  eexists. split; [reflexivity|]. split; [|exact Hfs].
  apply LogFacts.line_printable.
Qed.

Lemma secure_log_appends_one_line_witness :
  exists line,
    line = Utf8.encode
             (Json.dumps (VDict (SecureLog.log_record (C:=Toy2.toy_calendar)
                                   Toy2.event_payload 1700000000))) /\
    Forall (fun b => printable_byte b = true) line /\
    fs (SecureLog.secure_log (C:=Toy2.toy_calendar) Toy2.event_payload
          "audit.log" Toy2.world_with_log).2
    = <["audit.log" := Bytes.of_ascii_text "first line" ++ line ++ [Byte.x0a]]>
        (fs Toy2.world_with_log).
Proof.
  apply (secure_log_appends_one_line Toy2.toy_calendar Toy2.event_payload
           "audit.log" Toy2.world_with_log).
  by vm_compute.
Defined.

(** X16. What a reader of the log finds.  For a payload with distinct
    keys, the line a returning [secure_log] appended is read by
    [json.loads] as a record in which "timestamp" is the time of the call
    (a "timestamp" of the payload is replaced) and every other key holds
    what [sanitize_sensitive_data] made of the payload's value. *)
Theorem logged_line_reads_back (C : Calendar) (data : pydict)
    (log_file : string) (w : world) :
  wf_dict data ->
  (SecureLog.secure_log data log_file w).1 = Ok tt ->
  exists text record,
    fs (SecureLog.secure_log data log_file w).2 !! log_file
    = Some (default [] (fs w !! log_file) ++ Utf8.encode text ++ [Byte.x0a]) /\
    JsonDecoder.loads text = Some (VDict record) /\
    Dict.get "timestamp" record = Some (VStr (isoformat (clock w))) /\
    forall key,
      key <> "timestamp" ->
      Dict.get key record = Dict.get key (sanitize_sensitive_data data).
Proof.
  intros Hwf Hok. pose proof (LogFacts.secure_log_run data log_file w) as Hrun.
  cbv zeta in Hrun. rewrite Hok in Hrun. destruct Hrun as [_ Hfs].
  exists (Json.dumps (VDict (SecureLog.log_record data (clock w)))),
         (SecureLog.log_record data (clock w)).
  split_and!.
  - by rewrite Hfs, lookup_insert_eq.
  - apply JsonRoundTrip.loads_dumps. by apply LogFacts.log_record_wf.
  - apply LogFacts.dict_get_set.
  - intros key Hkey. by apply LogFacts.dict_get_set_ne.
Qed.

Lemma logged_line_reads_back_witness :
  exists text record,
    fs (SecureLog.secure_log (C:=Toy2.toy_calendar) Toy2.event_payload
          "audit.log" Toy2.world_with_log).2 !! "audit.log"
    = Some (Bytes.of_ascii_text "first line" ++ Utf8.encode text ++ [Byte.x0a]) /\
    JsonDecoder.loads text = Some (VDict record) /\
    Dict.get "timestamp" record = Some (VStr "T+1700000000") /\
    forall key,
      key <> "timestamp" ->
      Dict.get key record
      = Dict.get key (sanitize_sensitive_data Toy2.event_payload).
Proof.
  apply (logged_line_reads_back Toy2.toy_calendar Toy2.event_payload
           "audit.log" Toy2.world_with_log).
  - reflexivity.
  - by vm_compute.
Defined.

(** X17. [secure_log] never loses a line.  In every run, returning or
    raising, whatever the file system refuses or cuts short, what the log
    held before is a prefix of what it holds afterwards and every other file
    is as it was; and when the call does not return it raises
    [SecureDataError] with the text of the failure after "Failed to log
    data securely: ". *)
Theorem secure_log_keeps_earlier_lines (C : Calendar) (data : pydict)
    (log_file : string) (w : world) :
  let r := SecureLog.secure_log data log_file w in
  default [] (fs w !! log_file) `prefix_of` default [] (fs r.2 !! log_file) /\
  (forall path, path <> log_file -> fs r.2 !! path = fs w !! path) /\
  (r.1 = Ok tt \/
   exists reason,
     r.1 = Raise (Exc SecureDataError
                    ("Failed to log data securely: " +:+ reason))).
Proof.
  cbv zeta. pose proof (LogFacts.secure_log_run data log_file w) as Hrun.
  cbv zeta in Hrun.
  destruct (SecureLog.secure_log data log_file w).1 as [[]|e].
  - destruct Hrun as [_ ->]. split_and!.
    + rewrite lookup_insert_eq. by apply prefix_app_r.
    + intros path Hne. by rewrite lookup_insert_ne.
    + by left.
  - destruct Hrun as (cause & -> & _ & [[_ ->]|(n & _ & ->)]).
    + split_and!; [done|done|right; by eexists].
    + split_and!.
      * rewrite lookup_insert_eq. by apply prefix_app_r.
      * intros path Hne. by rewrite lookup_insert_ne.
      * right; by eexists.
Qed.

(** ** [json.load] reads what [json.dump(..., indent=n)] wrote *)

Module IndentRoundTrip.
Import StrFacts JsonDecoder JsonText JsonRoundTrip.
Import JsonLayout.

Lemma skip_ws_blank (w s : list ascii) :
  blank w -> skip_ws (w ++ s) = skip_ws s.
Proof. induction 1 as [|c w Hc _ IH]; [done|]. cbn. by rewrite Hc. Qed.

Lemma nl_blank n level : blank (nl n level).
Proof.
  constructor; [done|]. apply Forall_forall.
  intros c Hc%elem_of_replicate. by destruct Hc as [-> _].
Qed.

Lemma tail_ok_blank (w : list ascii) (c : ascii) (rest : list ascii) :
  blank w -> tail_ok [c] = true -> tail_ok (w ++ c :: rest) = true.
Proof.
  intros Hw Hc. destruct Hw as [|x w Hx _]; [exact Hc|].
  cbn. revert Hx. by destruct x as [[] [] [] [] [] [] [] []].
Qed.

Lemma to_list_newline_indent n level :
  Str.to_list (Json.newline_indent (Some n) level) = nl n level.
Proof.
  unfold Json.newline_indent, nl, Json.newline.
  by rewrite to_list_app, to_list_repeat.
Qed.

Lemma to_list_bracket_indent (opening closing : string) n level
    (x : string) (l : list string) :
  Str.to_list (Json.bracket opening closing (Some n) level (x :: l))
  = Str.to_list opening ++ nl n (S level)
    ++ join (sep n (S level)) (map Str.to_list (x :: l))
    ++ nl n level ++ Str.to_list closing.
Proof.
  unfold Json.bracket, Json.item_separator.
  rewrite !to_list_app, to_list_concat, to_list_app, !to_list_newline_indent.
  done.
Qed.

Lemma ser_list_cons_indent n level x (l : list value) :
  ser n level (VList (x :: l))
  = "["%char :: nl n (S level)
    ++ join (sep n (S level)) (map (ser n (S level)) (x :: l))
    ++ nl n level ++ ["]"%char].
Proof.
  unfold ser. rewrite CanonicalFacts.dumps_at_list.
  cbn [map]. rewrite to_list_bracket_indent. cbn [map]. rewrite map_map. done.
Qed.

Lemma ser_dict_cons_indent n level kv (d : pydict) :
  ser n level (VDict (kv :: d))
  = "{"%char :: nl n (S level)
    ++ join (sep n (S level)) (map (ser_member n (S level)) (kv :: d))
    ++ nl n level ++ ["}"%char].
Proof.
  unfold ser. rewrite CanonicalFacts.dumps_at_dict. cbv zeta.
  cbn [map]. rewrite to_list_bracket_indent. cbn [map]. rewrite !map_map.
  change (Str.to_list "{") with ["{"%char]. cbn [app].
  assert (forall x : string * value,
             Str.to_list
               (Json.encode_basestring_ascii
                  (Json.render (Json.dumps_at false (Some n) (S level)) x).1
                +:+ ": "
                +:+ (Json.render (Json.dumps_at false (Some n) (S level)) x).2)
             = ser_member n (S level) x) as Hmember.
  { intros [k x]. unfold ser_member, ser. cbn [Json.render fst snd].
    by rewrite !to_list_app. }
  rewrite Hmember. do 5 f_equal.
  apply map_ext. intros x. apply Hmember.
Qed.

Lemma ser_member_eq_indent n level k x :
  ser_member n level (k, x)
  = "034"%char :: escaped k
    ++ "034"%char :: ":"%char :: " "%char :: ser n level x.
Proof.
  unfold ser_member. cbn [fst snd]. rewrite to_list_encode.
  cbn [app]. by rewrite <- app_assoc.
Qed.

Lemma ser_start_indent n level (v : value) :
  exists c tl, ser n level v = c :: tl /\ value_start c = true.
Proof.
  destruct v as [|[]|z|s|[|x l]|[|kv d]]; try (by eexists _, _).
  destruct (int_repr_start z) as (c & tl & Heq & Hc).
  exists c, tl. split; [done|]. by apply number_start.
Qed.

Lemma skip_ws_ser_indent n level v (rest : list ascii) :
  skip_ws (ser n level v ++ rest) = ser n level v ++ rest.
Proof.
  destruct (ser_start_indent n level v) as (c & tl & -> & Hc). by apply skip_ws_start.
Qed.

Lemma join_start_indent {A} (s : list ascii) (f : A -> list ascii) (x : A) (l : list A) :
  exists tl, join s (map f (x :: l)) = f x ++ tl.
Proof.
  destruct l as [|y l]; [exists []; by rewrite app_nil_r|].
  by eexists.
Qed.

Lemma join_cons2_indent {A} (s : list ascii) (f : A -> list ascii) (x y : A) (l : list A) :
  join s (map f (x :: y :: l)) = f x ++ s ++ join s (map f (y :: l)).
Proof. reflexivity. Qed.

(** *** One step of the scanner, white space allowed *)

Lemma scan_once_list_blank fuel (w : list ascii) (c : ascii) (tl : list ascii)
    items rest :
  blank w -> value_start c = true ->
  scan_elements fuel (c :: tl) = Some (items, rest) ->
  scan_once (S fuel) ("["%char :: w ++ c :: tl) = Some (VList items, rest).
Proof.
  intros Hw (Hws & Hclose & _)%value_start_facts Hscan.
  transitivity
    (match skip_ws (w ++ c :: tl) with
     | [] => None
     | c1 :: r1 =>
         if nat_of_ascii c1 =? 93 then Some (VList [], r1)
         else '(items, rest) ← scan_elements fuel (c1 :: r1);
              Some (VList items, rest)
     end); [reflexivity|].
  rewrite skip_ws_blank by done.
  cbn [skip_ws]. rewrite Hws, Hclose, Hscan. reflexivity.
Qed.

Lemma scan_once_dict_blank fuel (w tl : list ascii) pairs rest :
  blank w ->
  scan_members fuel ("034"%char :: tl) = Some (pairs, rest) ->
  scan_once (S fuel) ("{"%char :: w ++ "034"%char :: tl)
  = Some (VDict (dict_of_pairs pairs), rest).
Proof.
  intros Hw Hscan.
  transitivity
    (match skip_ws (w ++ "034"%char :: tl) with
     | [] => None
     | c1 :: r1 =>
         if nat_of_ascii c1 =? 125 then Some (VDict [], r1)
         else '(pairs, rest) ← scan_members fuel (c1 :: r1);
              Some (VDict (dict_of_pairs pairs), rest)
     end); [reflexivity|].
  rewrite skip_ws_blank by done.
  transitivity
    ('(pairs, rest) ← scan_members fuel ("034"%char :: tl);
     Some (VDict (dict_of_pairs pairs), rest)); [reflexivity|].
  by rewrite Hscan.
Qed.

Lemma scan_elements_last_blank fuel (s w : list ascii) x rest :
  blank w ->
  scan_once fuel s = Some (x, w ++ "]"%char :: rest) ->
  scan_elements (S fuel) s = Some ([x], rest).
Proof.
  intros Hw Hx.
  transitivity
    ('(v, s1) ← scan_once fuel s;
     match skip_ws s1 with
     | [] => None
     | d :: s2 =>
         if nat_of_ascii d =? 93 then Some ([v], s2)
         else if nat_of_ascii d =? 44 then
           '(more, rest) ← scan_elements fuel (skip_ws s2);
           Some (v :: more, rest)
         else None
     end); [reflexivity|].
  rewrite Hx. cbn [mbind option_bind]. rewrite skip_ws_blank by done.
  reflexivity.
Qed.

Lemma scan_elements_more_blank fuel (s w s2 : list ascii) x more rest :
  blank w ->
  scan_once fuel s = Some (x, ","%char :: w ++ s2) ->
  scan_elements fuel (skip_ws s2) = Some (more, rest) ->
  scan_elements (S fuel) s = Some (x :: more, rest).
Proof.
  intros Hw Hx Hmore.
  transitivity
    ('(v, s1) ← scan_once fuel s;
     match skip_ws s1 with
     | [] => None
     | d :: s2 =>
         if nat_of_ascii d =? 93 then Some ([v], s2)
         else if nat_of_ascii d =? 44 then
           '(more, rest) ← scan_elements fuel (skip_ws s2);
           Some (v :: more, rest)
         else None
     end); [reflexivity|].
  rewrite Hx.
  transitivity
    ('(more, rest) ← scan_elements fuel (skip_ws (w ++ s2));
     Some (x :: more, rest)); [reflexivity|].
  rewrite skip_ws_blank by done. by rewrite Hmore.
Qed.

Lemma scan_members_last_blank fuel (s1 s2 w : list ascii) k x rest :
  blank w ->
  scanstring s1 = Some (k, ":"%char :: " "%char :: s2) ->
  scan_once fuel (skip_ws s2) = Some (x, w ++ "}"%char :: rest) ->
  scan_members (S fuel) ("034"%char :: s1) = Some ([(Str.of_list k, x)], rest).
Proof.
  intros Hw Hk Hx. rewrite (scan_members_value fuel s1 s2 k Hk), Hx.
  cbn [mbind option_bind]. rewrite skip_ws_blank by done. reflexivity.
Qed.

Lemma scan_members_more_blank fuel (s1 s2 s3 w : list ascii) k x more rest :
  blank w ->
  scanstring s1 = Some (k, ":"%char :: " "%char :: s2) ->
  scan_once fuel (skip_ws s2) = Some (x, ","%char :: w ++ s3) ->
  scan_members fuel (skip_ws s3) = Some (more, rest) ->
  scan_members (S fuel) ("034"%char :: s1)
  = Some ((Str.of_list k, x) :: more, rest).
Proof.
  intros Hw Hk Hx Hmore. rewrite (scan_members_value fuel s1 s2 k Hk), Hx.
  transitivity
    ('(more, rest) ← scan_members fuel (skip_ws (w ++ s3));
     Some ((Str.of_list k, x) :: more, rest)); [reflexivity|].
  rewrite skip_ws_blank by done. by rewrite Hmore.
Qed.

(** *** Lists, dicts, values *)

Lemma skip_ws_join_indent n level (w : list ascii) (y : value) (l : list value)
    (rest : list ascii) :
  skip_ws (join w (map (ser n level) (y :: l)) ++ rest)
  = join w (map (ser n level) (y :: l)) ++ rest.
Proof.
  destruct (join_start_indent w (ser n level) y l) as [tl ->].
  rewrite <- app_assoc. apply skip_ws_ser_indent.
Qed.

Lemma scan_elements_join_indent n level (w : list ascii) (items : list value) :
  blank w ->
  items <> [] ->
  Forall (reads_back n) items ->
  forall fuel rest,
    length (join (sep n level) (map (ser n level) items)) < fuel ->
    scan_elements fuel
      (join (sep n level) (map (ser n level) items) ++ w ++ "]"%char :: rest)
    = Some (items, rest).
Proof.
  intros Hw. induction items as [|x l IH]; [done|].
  intros _ [Hx HP]%Forall_cons fuel rest Hlen.
  destruct fuel as [|fuel]; [lia|].
  destruct l as [|y l].
  - apply (scan_elements_last_blank _ _ w); [done|].
    cbn [map join] in *. apply Hx; [lia|by apply tail_ok_blank].
  - rewrite join_cons2_indent in *. rewrite !List.length_app in Hlen.
    unfold sep in *. cbn [length] in Hlen.
    eapply (scan_elements_more_blank _ _ (nl n level)); [apply nl_blank| |].
    + rewrite <- !app_assoc. cbn [app]. apply Hx; [lia|done].
    + rewrite <- ?app_assoc, skip_ws_join_indent. apply IH; [done|done|lia].
Qed.

Lemma skip_ws_members_indent n level (w : list ascii) (kv : string * value)
    (d : pydict) (rest : list ascii) :
  skip_ws (join w (map (ser_member n level) (kv :: d)) ++ rest)
  = join w (map (ser_member n level) (kv :: d)) ++ rest.
Proof.
  destruct (join_start_indent w (ser_member n level) kv d) as [tl ->].
  destruct kv as [k x]. by rewrite ser_member_eq_indent.
Qed.

Lemma members_start_indent n level (w : list ascii) (kv : string * value) (d : pydict) :
  exists tl, join w (map (ser_member n level) (kv :: d)) = "034"%char :: tl.
Proof.
  destruct (join_start_indent w (ser_member n level) kv d) as [tl ->].
  destruct kv as [k x]. rewrite ser_member_eq_indent. by eexists.
Qed.

Lemma scan_members_join_indent n level (w : list ascii) (items : pydict) :
  blank w ->
  items <> [] ->
  Forall (fun kv => reads_back n kv.2) items ->
  forall fuel rest,
    length (join (sep n level) (map (ser_member n level) items)) < fuel ->
    scan_members fuel
      (join (sep n level) (map (ser_member n level) items)
       ++ w ++ "}"%char :: rest)
    = Some (items, rest).
Proof.
  intros Hw. induction items as [|[k x] l IH]; [done|].
  intros _ [Hx HP]%Forall_cons fuel rest Hlen. cbn [snd] in Hx.
  destruct fuel as [|fuel]; [lia|].
  destruct l as [|kv l].
  - cbn [map join] in *. rewrite ser_member_eq_indent in *.
    repeat first [rewrite List.length_app in Hlen | progress cbn [length] in Hlen].
    repeat first [rewrite <- app_assoc | progress cbn [app]].
    etrans.
    { eapply (scan_members_last_blank _ _ _ w); [done| |].
      - apply scanstring_escaped.
      - rewrite skip_ws_ser_indent. apply Hx; [lia|by apply tail_ok_blank]. }
    by rewrite of_to_list.
  - rewrite join_cons2_indent in *. rewrite ser_member_eq_indent in *. unfold sep in *.
    repeat first [rewrite List.length_app in Hlen | progress cbn [length] in Hlen].
    repeat first [rewrite <- app_assoc | progress cbn [app]].
    etrans.
    { eapply (scan_members_more_blank _ _ _ _ (nl n level)); [apply nl_blank|..].
      - apply scanstring_escaped.
      - rewrite skip_ws_ser_indent. apply Hx; [lia|done].
      - rewrite skip_ws_members_indent. apply IH; [done|done|lia]. }
    by rewrite of_to_list.
Qed.

(** The scanner reads back the indented text of every well-formed value. *)
Lemma scan_once_ser_indent n (v : value) : wf_value v -> reads_back n v.
Proof.
  induction v as [|b|z|s|l IH|d IH] using value_ind;
    intros Hwf level fuel rest Hlen Hrest.
  - destruct fuel; [simpl in Hlen; lia|]. reflexivity.
  - destruct fuel; [destruct b; simpl in Hlen; lia|]. by destruct b.
  - destruct (int_repr_start z) as (c & tl & Heq & Hc).
    unfold ser in *. cbn [Json.dumps_at] in *. rewrite Heq in Hlen.
    destruct fuel; [simpl in Hlen; lia|].
    pose proof (scan_number_repr z rest Hrest) as Hnum.
    rewrite Heq in *. cbn [app] in *.
    rewrite scan_once_number, Hnum by done. reflexivity.
  - unfold ser in *. cbn [Json.dumps_at] in *. rewrite to_list_encode in *.
    destruct fuel; [simpl in Hlen; lia|].
    cbn [app]. rewrite scan_once_string, <- app_assoc. cbn [app].
    rewrite scanstring_escaped. cbn. by rewrite of_to_list.
  - apply RedactorFacts.wf_list_Forall in Hwf.
    assert (Forall (reads_back n) l) as HP.
    { clear Hlen. induction IH as [|x l Hx _ IHl]; [constructor|].
      apply Forall_cons in Hwf as [Hwx Hwf]. constructor; auto. }
    destruct l as [|x l].
    + destruct fuel; [simpl in Hlen; lia|]. reflexivity.
    + rewrite ser_list_cons_indent in *. cbn [length] in Hlen.
      rewrite !List.length_app in Hlen. cbn [length] in Hlen.
      destruct fuel; [lia|].
      pose proof (scan_elements_join_indent n (S level) (nl n level) (x :: l)
                    (nl_blank n level) ltac:(done) HP
                    fuel rest ltac:(lia)) as Hscan.
      destruct (join_start_indent (sep n (S level)) (ser n (S level)) x l) as [tl Htl].
      destruct (ser_start_indent n (S level) x) as (c & tl' & Hc & Hstart).
      cbn [app]. rewrite <- !app_assoc. cbn [app].
      rewrite Htl, Hc in *. cbn [app] in *. rewrite <- ?app_assoc in *.
      apply scan_once_list_blank; [apply nl_blank|done|exact Hscan].
  - apply RedactorFacts.wf_dict_Forall in Hwf as [Hnd Hwf].
    assert (Forall (fun kv => reads_back n kv.2) d) as HP.
    { clear Hlen Hnd. induction IH as [|x l Hx _ IHl]; [constructor|].
      apply Forall_cons in Hwf as [Hwx Hwf]. constructor; auto. }
    destruct d as [|kv d].
    + destruct fuel; [simpl in Hlen; lia|]. reflexivity.
    + rewrite ser_dict_cons_indent in *. cbn [length] in Hlen.
      rewrite !List.length_app in Hlen. cbn [length] in Hlen.
      destruct fuel; [lia|].
      pose proof (scan_members_join_indent n (S level) (nl n level) (kv :: d)
                    (nl_blank n level) ltac:(done) HP
                    fuel rest ltac:(lia)) as Hscan.
      destruct (members_start_indent n (S level) (sep n (S level)) kv d) as [tl Htl].
      cbn [app]. rewrite <- !app_assoc. cbn [app].
      rewrite Htl in *. cbn [app] in *.
      etrans; [apply scan_once_dict_blank; [apply nl_blank|exact Hscan]|].
      by rewrite dict_of_pairs_id.
Qed.

(** [json.loads(json.dumps(v, indent=n)) == v] *)
Lemma loads_dumps_indent n (v : value) :
  wf_value v ->
  JsonDecoder.loads (Json.dumps_at false (Some n) 0 v) = Some v.
Proof.
  intros Hwf. unfold JsonDecoder.loads.
  change (Str.to_list (Json.dumps_at false (Some n) 0 v)) with (ser n 0 v).
  rewrite <- (app_nil_r (ser n 0 v)) at 2.
  rewrite skip_ws_ser_indent, (scan_once_ser_indent n v Hwf) by (done || lia).
  reflexivity.
Qed.

End IndentRoundTrip.

(** ** Saving without a password *)

Module PlainFacts.
Import WorldFacts.
Section Plain.
Context {P : Platform}.

(** Every run of [save_config] without a password, by the way the write
    ends. *)
Lemma save_config_plain config (path : string) (password : option string) w :
  falsy password = true ->
  let text := Utf8.encode (Json.dumps_indent4 config) in
  let r := ConfigUtils.save_config config (Some path) password w in
  entropy_pos r.2 = entropy_pos w /\
  (forall other, other <> path -> fs r.2 !! other = fs w !! other) /\
  match r.1 with
  | Ok _ => fs r.2 !! path = Some text
  | Raise e =>
      exists cause,
        e = Exc ConfigError ("Failed to save configuration: " +:+ exc_str cause) /\
        (fs r.2 !! path = fs w !! path \/
         exists n, fs r.2 !! path = Some (take n text))
  end.
Proof.
  intros Hpw. cbv zeta.
  change (wp (ConfigUtils.save_config config (Some path) password) w
    (fun r w' =>
       entropy_pos w' = entropy_pos w /\
       (forall other, other <> path -> fs w' !! other = fs w !! other) /\
       match r with
       | Ok _ => fs w' !! path = Some (Utf8.encode (Json.dumps_indent4 config))
       | Raise e =>
           exists cause,
             e = Exc ConfigError
                   ("Failed to save configuration: " +:+ exc_str cause) /\
             (fs w' !! path = fs w !! path \/
              exists n,
                fs w' !! path
                = Some (take n (Utf8.encode (Json.dumps_indent4 config))))
       end)).
  unfold ConfigUtils.save_config.
  destruct w as [fsv envv ent pos clk fl tr]. wsimpl.
  rewrite Hpw. wsimpl.
  wp_run.
  - split_and!; [done|done|]. eexists. split; [reflexivity|by left].
  - split_and!; [done|by intros; rewrite lookup_insert_ne|].
    eexists. split; [reflexivity|]. right. eexists. by rewrite lookup_insert_eq.
  - split_and!; [done|by intros; rewrite lookup_insert_ne|].
    by rewrite lookup_insert_eq.
Qed.

End Plain.
End PlainFacts.

(** X18. An empty password means no encryption.  [save_config] called
    without a password, or with the empty string as password, draws no
    random bytes, leaves every file but [path] as it was ([path.salt] and
    [path.enc] included), and when it returns [path] holds the
    configuration in clear, as [json.dump(config, f, indent=4)] writes
    it. *)
Theorem save_config_without_password_is_plain (P : Platform) (config : value)
    (path : string) (password : option string) (w : world) :
  falsy password = true ->
  let r := ConfigUtils.save_config config (Some path) password w in
  entropy_pos r.2 = entropy_pos w /\
  (forall other, other <> path -> fs r.2 !! other = fs w !! other) /\
  (r.1 = Ok tt ->
   fs r.2 !! path = Some (Utf8.encode (Json.dumps_indent4 config))).
Proof.
  intros Hpw. cbv zeta.
  destruct (PlainFacts.save_config_plain config path password w Hpw)
    as (Hent & Hother & Hrun).
  split_and!; [done|done|]. intros Hok. by rewrite Hok in Hrun.
Qed.

Lemma save_config_without_password_is_plain_witness :
  fs (ConfigUtils.save_config (P:=Toy.toy_platform) Toy.sample_config
        (Some "config/config.json") (Some EmptyString) Toy.empty_world).2
    !! "config/config.json"
  = Some (Utf8.encode (Json.dumps_indent4 Toy.sample_config)).
Proof.
  apply (save_config_without_password_is_plain Toy.toy_platform
           Toy.sample_config "config/config.json" (Some EmptyString)
           Toy.empty_world).
  - reflexivity.
  - by vm_compute.
Defined.

(** X19. [load_config] reads back what a plaintext [save_config] wrote.
    After a [save_config] without password of a configuration (a dict with
    distinct keys at every level) that returned normally, [load_config] of
    the same path returns exactly that configuration, in every later world
    in which the file is as the save left it, there is no [path.enc] (which
    would be preferred to it) and the file system does not interfere.  The
    file is indented by four spaces; [json.load] skips the white space. *)
Theorem load_config_after_plain_save (P : Platform) (config : pydict)
    (path : string) (password : option string) (w w2 : world) :
  wf_dict config ->
  falsy password = true ->
  (ConfigUtils.save_config (VDict config) (Some path) password w).1 = Ok tt ->
  fs w2 !! path
  = fs (ConfigUtils.save_config (VDict config) (Some path) password w).2 !! path ->
  fs w2 !! (path +:+ ".enc") = None ->
  faults w2 = [] ->
  (ConfigUtils.load_config (Some path) w2).1 = Ok (VDict config).
Proof.
  intros Hwf Hpw Hok Hfile Henc Hquiet.
  destruct (PlainFacts.save_config_plain (VDict config) path password w Hpw)
    as (_ & _ & Hrun).
  rewrite Hok in Hrun. rewrite Hrun in Hfile.
  eapply VaultFacts.load_config_reads_plaintext; try eassumption.
  - apply JsonRoundTrip.utf8_roundtrip.
  - by apply IndentRoundTrip.loads_dumps_indent.
Qed.

Lemma load_config_after_plain_save_witness :
  (ConfigUtils.load_config (P:=Toy.toy_platform) (Some "config/config.json")
     (ConfigUtils.save_config (P:=Toy.toy_platform) (VDict Toy2.config)
        (Some "config/config.json") None Toy.empty_world).2).1
  = Ok (VDict Toy2.config).
Proof.
  apply (load_config_after_plain_save Toy.toy_platform Toy2.config
           "config/config.json" None Toy.empty_world).
  - reflexivity.
  - reflexivity.
  - by vm_compute.
  - by vm_compute.
  - by vm_compute.
  - by vm_compute.
Defined.

(** X20. [json.dumps] tells payloads apart: two values with distinct keys
    at every level that have the same text are the same value, in the
    compact form that is encrypted and in the indented form of the plaintext
    configuration.  So what [encrypt_data] and [encrypt_config] hand to
    [Fernet] determines the payload. *)
Theorem dumps_injective (a b : value) :
  wf_value a -> wf_value b ->
  (Json.dumps a = Json.dumps b -> a = b) /\
  (Json.dumps_indent4 a = Json.dumps_indent4 b -> a = b).
Proof.
  intros Ha Hb. split; intros Heq.
  - pose proof (JsonRoundTrip.loads_dumps a Ha) as Hla.
    rewrite Heq, (JsonRoundTrip.loads_dumps b Hb) in Hla. by injection Hla.
  - pose proof (IndentRoundTrip.loads_dumps_indent 4 a Ha) as Hla.
    unfold Json.dumps_indent4 in Heq.
    rewrite Heq, (IndentRoundTrip.loads_dumps_indent 4 b Hb) in Hla.
    by injection Hla.
Qed.

Lemma dumps_injective_witness :
  String.eqb (Json.dumps (VDict Toy.payload_ab)) (Json.dumps (VDict Toy.payload_ba))
  = false.
Proof.
  destruct (String.eqb_spec (Json.dumps (VDict Toy.payload_ab))
              (Json.dumps (VDict Toy.payload_ba))) as [Heq|Hne]; [|reflexivity].
  destruct (dumps_injective (VDict Toy.payload_ab) (VDict Toy.payload_ba))
    as [Hinj _]; [reflexivity|reflexivity|].
  discriminate (Hinj Heq).
Defined.


(** ** How [secure_load] fails *)

Module SecureLoadErrors.
Import WorldFacts VaultFacts.
Section Errors.
Context {P : Platform}.

Lemma secure_load_salt_missing (path password : string) (w : world) :
  fs w !! (path +:+ ".salt") = None ->
  (SecureDataUtils.secure_load path password w).1
  = Raise (Exc SecureDataError
             "Failed to load data securely: Salt file not found").
Proof.
  intros Hsalt%exists_false.
  change (wp (SecureDataUtils.secure_load path password) w
    (fun r _ => r = Raise (Exc SecureDataError
             "Failed to load data securely: Salt file not found"))).
  unfold SecureDataUtils.secure_load.
  destruct w as [fsv envv ent pos clk fl tr]. cbn [fs] in Hsalt. wsimpl.
  wp_run. done.
Qed.

Lemma secure_load_token_missing (path password : string) (w : world) :
  is_Some (fs w !! (path +:+ ".salt")) ->
  fs w !! path = None ->
  faults w = [] ->
  (SecureDataUtils.secure_load path password w).1
  = Raise (Exc SecureDataError
             ("Failed to load data securely: "
              +:+ "[Errno 2] No such file or directory: " +:+ Repr.repr path)).
Proof.
  intros [salt Hsalt] Htoken Hfl.
  change (wp (SecureDataUtils.secure_load path password) w
    (fun r _ => r = Raise (Exc SecureDataError
             ("Failed to load data securely: "
              +:+ "[Errno 2] No such file or directory: " +:+ Repr.repr path)))).
  unfold SecureDataUtils.secure_load, SecureDataUtils.derive_key,
    SecureDataUtils.decrypt_data, Os.no_such_file in *.
  destruct w as [fsv envv ent pos clk fl tr].
  cbn [fs faults] in Hsalt, Htoken, Hfl. subst fl.
  assert (Hex : bool_decide (is_Some (fsv !! (path +:+ ".salt"))) = true)
    by (apply exists_true; eauto).
  wsimpl.
  repeat wp_step_quiet. done.
Qed.

End Errors.
End SecureLoadErrors.

(** X21. How [secure_load] fails.  Without a salt file the call raises
    [SecureDataError] with the message "Failed to load data securely: Salt
    file not found", whether the token file exists or not and whatever the
    file system would do: the salt is looked for with [os.path.exists]
    before anything is opened.  With the salt file there and the token file
    missing, the message carries the text of the [FileNotFoundError] of
    [open], the path quoted.  Whatever goes wrong, what the caller sees is
    a [SecureDataError]. *)
Theorem secure_load_failures (P : Platform) (path password : string)
    (w : world) :
  (fs w !! (path +:+ ".salt") = None ->
   (SecureDataUtils.secure_load path password w).1
   = Raise (Exc SecureDataError
              "Failed to load data securely: Salt file not found")) /\
  (is_Some (fs w !! (path +:+ ".salt")) ->
   fs w !! path = None ->
   faults w = [] ->
   (SecureDataUtils.secure_load path password w).1
   = Raise (Exc SecureDataError
              ("Failed to load data securely: "
               +:+ "[Errno 2] No such file or directory: "
               +:+ Repr.repr path))) /\
  (forall e,
      (SecureDataUtils.secure_load path password w).1 = Raise e ->
      exc_type e = SecureDataError).
Proof.
  split_and!.
  - apply SecureLoadErrors.secure_load_salt_missing.
  - apply SecureLoadErrors.secure_load_token_missing.
  - intros e. apply LoadErrors.secure_load_raises_SecureDataError.
Qed.

Lemma secure_load_failures_witness :
  (SecureDataUtils.secure_load (P:=Toy.toy_platform) "vault.bin" "pw"
     Toy.empty_world).1
  = Raise (Exc SecureDataError
             "Failed to load data securely: Salt file not found") /\
  (SecureDataUtils.secure_load (P:=Toy.toy_platform) "config/config.json" "pw"
     Toy.world_vault_no_password).1
  = Raise (Exc SecureDataError
             "Failed to load data securely: [Errno 2] No such file or directory: 'config/config.json'").
Proof.
  split.
  - apply (secure_load_failures Toy.toy_platform "vault.bin" "pw"
             Toy.empty_world).
    reflexivity.
  - apply (secure_load_failures Toy.toy_platform "config/config.json" "pw"
             Toy.world_vault_no_password).
    + by vm_compute; eauto.
    + reflexivity.
    + reflexivity.
Defined.

(** ** The alphabet of a derived key *)

Module Base64Facts.

Lemma char_urlsafe (n : nat) : urlsafe_byte (Base64.char n) = true.
Proof.
  unfold Base64.char.
  assert (Hall : forallb (fun i => urlsafe_byte
                   (byte_of_ascii (default "A"%char
                      (String.get i Base64.alphabet)))) (seq 0 64) = true)
    by by vm_compute.
  rewrite forallb_forall in Hall. apply Hall.
  apply in_seq. pose proof (Nat.mod_upper_bound n 64). lia.
Qed.

(** The text is made of the alphabet; padding comes last and is at most two
    bytes. *)
Lemma encode_shape_aux (k : nat) :
  forall s : bytes,
    length s < k ->
    exists body,
      Forall (fun b => urlsafe_byte b = true) body /\
      Base64.urlsafe_b64encode s
      = body ++ replicate ((3 - length s mod 3) mod 3) Base64.pad.
Proof.
  induction k as [|k IH]; intros s Hlen; [lia|].
  destruct s as [|a [|b [|c rest]]].
  - by exists [].
  - eexists [_; _]. split; [|reflexivity].
    repeat constructor; apply char_urlsafe.
  - eexists [_; _; _]. split; [|reflexivity].
    repeat constructor; apply char_urlsafe.
  - destruct (IH rest) as (body & Hbody & Heq); [simpl in Hlen; lia|].
    cbn [Base64.urlsafe_b64encode]. rewrite Heq.
    eexists (_ :: _ :: _ :: _ :: body). split.
    + repeat (constructor; [apply char_urlsafe|]). done.
    + cbn [app length]. do 5 f_equal.
      replace (S (S (S (length rest)))) with (length rest + 1 * 3) by lia.
      by rewrite Nat.Div0.mod_add.
Qed.

Lemma encode_shape (s : bytes) :
  exists body,
    Forall (fun b => urlsafe_byte b = true) body /\
    Base64.urlsafe_b64encode s
    = body ++ replicate ((3 - length s mod 3) mod 3) Base64.pad.
Proof. apply (encode_shape_aux (S (length s))). lia. Qed.

End Base64Facts.

(** X22. The shape of a derived key.  The key that [derive_key] and
    [generate_key] return is 43 bytes of the URL-safe alphabet (letters,
    digits, [-] and [_], never [+] or [/]) followed by one [=]: the
    encoding of the 32 bytes PBKDF2 yields. *)
Theorem derived_key_shape (P : Platform) (password : string) (salt : bytes)
    (w : world) :
  PlatformLaws P ->
  exists body,
    length body = 43 /\
    Forall (fun b => urlsafe_byte b = true) body /\
    (SecureDataUtils.derive_key password (Some salt) w).1
    = Ok (body ++ [Base64.pad], salt) /\
    (ConfigUtils.generate_key password (Some salt) w).1
    = Ok (body ++ [Base64.pad], salt).
Proof.
  intros laws.
  pose proof (pbkdf2_length (Utf8.encode password) salt 100000%N 32) as Hlen.
  destruct (Base64Facts.encode_shape
              (pbkdf2_hmac_sha256 (Utf8.encode password) salt 100000%N 32))
    as (body & Hbody & Heq).
  rewrite Hlen in Heq. change ((3 - 32 mod 3) mod 3) with 1 in Heq.
  exists body. split_and!; [|done|..].
  - pose proof (DeriveFacts.b64encode_length_32 _ Hlen) as H44.
    rewrite Heq, length_app in H44. simpl in H44. lia.
  - unfold SecureDataUtils.derive_key, bind, ret. cbn [fst]. by rewrite Heq.
  - unfold ConfigUtils.generate_key, bind, ret. cbn [fst]. by rewrite Heq.
Qed.

Lemma derived_key_shape_witness :
  exists body,
    length body = 43 /\
    Forall (fun b => urlsafe_byte b = true) body /\
    (SecureDataUtils.derive_key (P:=Toy.toy_platform) "pw"
       (Some Toy.sample_salt) Toy.empty_world).1
    = Ok (body ++ [Base64.pad], Toy.sample_salt) /\
    (ConfigUtils.generate_key (P:=Toy.toy_platform) "pw"
       (Some Toy.sample_salt) Toy.empty_world).1
    = Ok (body ++ [Base64.pad], Toy.sample_salt).
Proof.
  apply (derived_key_shape Toy.toy_platform "pw" Toy.sample_salt
           Toy.empty_world).
  exact ToyFacts.toy_laws.
Defined.
